(** * FaceLog: the face-recognition attendance service

    A shallow embedding of [face_recognition_app/services.py]
    ([recognize_faces_in_stream]) together with the parts of
    [attendance/models.py] it reads and writes, and the properties of the
    session-scoped attendance resolver proved about it.

    Conventions of the embedding
    - database tables are finite maps keyed by primary key; the
      [unique_together = ['session', 'student']] constraint of [Attendance]
      makes [(session_id, student_id)] the key of the attendance table;
    - datetimes are integers counting microseconds ([Z]); dates count days,
      times of day count microseconds since midnight; they are unbounded
      (the [OverflowError] of [datetime + timedelta] past year 9999 is
      outside the model);
    - float64 values, the [face_recognition] library, the wall clock and the
      time zone are an interface ([FaceRecognitionLib], [Environment]): the
      service is verified for every implementation of them;
    - the function body runs in a small state-and-exception monad whose
      state is the [World]: the database, the Django cache, the number of
      clock readings made so far and the trace of log lines and external
      calls. *)

From Stdlib Require Import ZArith List Bool String Lia.
From stdpp Require Import base option list gmap strings.

Local Open Scope Z_scope.

(** ** External capabilities *)

(** [float] stands for numpy's float64; only [<=] on it is used
    ([compare_faces] is [face_distance(...) <= tolerance]).
    [face_distance1 known face] is the entry of
    [face_recognition.face_distance] for one known encoding.  [detect] is
    [load_image_file], [face_locations] and [face_encodings] in a row
    (lines 75-77); it answers [None] when one of them raises. *)
Class FaceRecognitionLib := {
  float : Type;
  float_le : float -> float -> bool;
  face_distance1 : list float -> list float -> float;
  image : Type;
  detect : image -> string -> option (list (list float));
}.

(** [clock n] is the instant (in microseconds) returned by the [n]-th
    reading of the wall clock; [utcoffset] is the offset [make_aware]
    attaches to a naive local datetime. *)
Class Environment := {
  clock : nat -> Z;
  utcoffset : Z -> Z;
}.

(** An encoding is a numpy array of floats. *)
Abbreviation encoding := (list float).

(** ** Data model ([attendance/models.py], [face_recognition_app/models.py]) *)

Inductive Status := present | absent | late | excused.

#[global] Instance Status_eq_dec : EqDecision Status.
Proof. solve_decision. Defined.

Record AttendanceSession := {
  ficha : option Z;            (* ForeignKey(Ficha, null=True) *)
  date : Z;
  start_time : Z;
  permisividad : Z;
}.

Record Attendance := {
  status : Status;
  check_in_time : option Z;
  verified_by_face : bool;
}.

#[global] Instance Attendance_eq_dec : EqDecision Attendance.
Proof. solve_decision. Defined.

Record RecognizedStudent := {
  rs_id : Z;
  rs_full_name : string;
  rs_status : Status;
}.

Inductive ErrorMessage :=
| NoActiveFaces        (* line 69: "No hay rostros registrados o activos ..." *)
| NoFaceDetected       (* line 81: "No se detectó ningún rostro ..." *)
| SessionWithoutFicha  (* line 144: "La sesión de asistencia no existe ..." *)
| UnexpectedError.     (* line 147: "Ocurrió un error inesperado ..." *)

Inductive Response :=
| ErrorResponse (e : ErrorMessage)        (* {"error": ...} *)
| RecognizedStudents (l : list RecognizedStudent).
                                          (* {"recognized_students": [...]} *)

(** The trace: one constructor per log line of the service (the line number
    of the source is given), and one per call that leaves the process. *)
Inductive Event :=
| LogStart (session_id : Z)                          (* 38 *)
| LogThreshold                                       (* 41 *)
| LogCacheHit (ficha_id : Z)                         (* 51 *)
| CallStudentsQuery (ficha_id : Z)                   (* 53: students.all() *)
| LogLoadingFromDb (ficha_id : Z) (count : nat)      (* 54 *)
| LogWrongLength (student_id : Z) (len : nat)        (* 65, warning *)
| LogNoActiveEncodings (ficha_id : Z)                (* 68, warning *)
| LogCached (ficha_id : Z) (count : nat)             (* 72 *)
| CallDetect                                         (* 75-77 *)
| LogDetected (count : nat)                          (* 78 *)
| LogProcessing (i n : nat)                          (* 85 *)
| LogUnique (student_id : Z)                         (* 96 *)
| LogAmbiguous (i : nat) (ids : list Z)              (* 101, warning *)
| LogNoMatch (i : nat)                               (* 105, warning *)
| LogRecordFound (student_id : Z) (st : Status)      (* 110 *)
| CallSave (session_id student_id : Z)               (* 125: save() *)
| LogUpdated (student_id : Z) (st : Status)          (* 126 *)
| LogAlreadyRecorded (student_id : Z) (st : Status)  (* 134 *)
| LogRecordMissing (student_id : Z)                  (* 137, error *)
| LogNoFicha (session_id : Z)                        (* 143, error *)
| LogException (session_id : Z).                     (* 146 *)

#[global] Instance Event_eq_dec : EqDecision Event.
Proof. solve_decision. Defined.

Inductive Exn :=
| FichaDoesNotExist
| AttendanceDoesNotExist
| OtherException.

(** A computation either yields a value, executes a [return] of the
    enclosing function, or raises. *)
Inductive Res (A : Type) :=
| Val (a : A)
| Return (r : Response)
| Raise (e : Exn).
Arguments Val {A} a.
Arguments Return {A} r.
Arguments Raise {A} e.

Section Service.
Context `{Lib : FaceRecognitionLib} `{Env : Environment}.

(** [FaceEncoding]: [encoding_array] is what [get_encoding_array()]
    answers for the row. *)
Record FaceEncoding := {
  is_active : bool;
  encoding_array : option encoding;
}.

(** [User]: [face_encoding_data] is the reverse one-to-one accessor, absent
    ([hasattr] false) when the user has no [FaceEncoding] row. *)
Record User := {
  full_name : string;
  face_encoding_data : option FaceEncoding;
}.

Record Ficha := {
  numero_ficha : string;
  students : list Z;          (* ids of ficha.students.all(), in query order *)
}.

Record FaceRecognitionSettings := {
  confidence_threshold : float;
  face_detection_model : string;
}.

(** A cache entry: the cached pair and the instant it stops being served. *)
Record CacheEntry := {
  ce_encodings : list encoding;
  ce_student_ids : list Z;
  ce_expires : Z;
}.

Record World := {
  w_settings : FaceRecognitionSettings;
  w_users : gmap Z User;
  w_fichas : gmap Z Ficha;
  w_sessions : gmap Z AttendanceSession;
  w_attendance : gmap (Z * Z) Attendance;
  w_cache : gmap Z CacheEntry;       (* key "ficha_encodings_{ficha.id}" *)
  w_tick : nat;
  w_trace : list Event;
}.

Definition emit (e : Event) (w : World) : World :=
  {| w_settings := w_settings w; w_users := w_users w; w_fichas := w_fichas w;
     w_sessions := w_sessions w; w_attendance := w_attendance w;
     w_cache := w_cache w; w_tick := w_tick w;
     w_trace := w_trace w ++ [e] |}.

Definition tick (w : World) : World :=
  {| w_settings := w_settings w; w_users := w_users w; w_fichas := w_fichas w;
     w_sessions := w_sessions w; w_attendance := w_attendance w;
     w_cache := w_cache w; w_tick := S (w_tick w);
     w_trace := w_trace w |}.

Definition with_cache (c : gmap Z CacheEntry) (w : World) : World :=
  {| w_settings := w_settings w; w_users := w_users w; w_fichas := w_fichas w;
     w_sessions := w_sessions w; w_attendance := w_attendance w;
     w_cache := c; w_tick := w_tick w;
     w_trace := w_trace w |}.

Definition with_attendance (a : gmap (Z * Z) Attendance) (w : World) : World :=
  {| w_settings := w_settings w; w_users := w_users w; w_fichas := w_fichas w;
     w_sessions := w_sessions w; w_attendance := a;
     w_cache := w_cache w; w_tick := w_tick w;
     w_trace := w_trace w |}.

(** ** The monad of the function body *)

Definition M (A : Type) : Type := World -> Res A * World.

#[global] Instance M_ret : MRet M := fun A a w => (Val a, w).

#[global] Instance M_bind : MBind M := fun A B k m w =>
  match m w with
  | (Val a, w') => k a w'
  | (Return r, w') => (Return r, w')
  | (Raise e, w') => (Raise e, w')
  end.

Definition return_ {A} (r : Response) : M A := fun w => (Return r, w).
Definition raise {A} (e : Exn) : M A := fun w => (Raise e, w).
Definition log (e : Event) : M unit := fun w => (Val tt, emit e w).
Definition get_world : M World := fun w => (Val w, w).
Definition modify (f : World -> World) : M unit := fun w => (Val tt, f w).

(** The wall clock: every reading consumes one instant of [clock]. *)
Definition read_clock : M Z :=
  fun w => (Val (clock (w_tick w)), tick w).

(** ** Primitives: clock, cache, ORM *)

Definition timezone_now : M Z := read_clock.

Definition microseconds_per_second : Z := 1000000.
Definition microseconds_per_day : Z := 86400 * microseconds_per_second.

(** [timezone.timedelta(minutes=m)] *)
Definition timedelta_minutes (m : Z) : Z := m * 60 * microseconds_per_second.

(** [datetime.combine(date, time)] *)
Definition datetime_combine (d t : Z) : Z := d * microseconds_per_day + t.

(** [make_aware(naive)]: the instant the naive local datetime denotes. *)
Definition make_aware (naive : Z) : Z := naive - utcoffset naive.

(** The range of [datetime], from 0001-01-01 00:00:00 to 9999-12-31
    23:59:59.999999, in microseconds from 1970-01-01 00:00:00 (day 0), and
    the largest number of days of a [timedelta]. *)
Definition datetime_min : Z := - 719162 * microseconds_per_day.
Definition datetime_max : Z := 2932897 * microseconds_per_day - 1.
Definition timedelta_max_days : Z := 999999999.

(** What the cache backend serves for [key] at instant [now]: the stored
    value while it has not expired. *)
Definition cache_lookup (c : gmap Z CacheEntry) (now : Z) (key : Z)
  : option (list encoding * list Z) :=
  match c !! key with
  | Some e =>
      if bool_decide (now < ce_expires e)
      then Some (ce_encodings e, ce_student_ids e)
      else None
  | None => None
  end.

(** [cache.get(key)] *)
Definition cache_get (key : Z) : M (option (list encoding * list Z)) :=
  now ← read_clock;
  w ← get_world;
  mret (cache_lookup (w_cache w) now key).

(** [cache.set(key, value, timeout)], [timeout] in seconds. *)
Definition cache_set (key : Z) (value : list encoding * list Z) (timeout : Z)
  : M unit :=
  now ← read_clock;
  modify (fun w =>
    with_cache
      (<[key := {| ce_encodings := value.1;
                   ce_student_ids := value.2;
                   ce_expires := now + timeout * microseconds_per_second |}]>
         (w_cache w)) w).

(** [Ficha.objects.get(sessions__id=session_id)] *)
Definition Ficha_objects_get (session_id : Z) : M (Z * Ficha) :=
  w ← get_world;
  match w_sessions w !! session_id ≫= ficha with
  | Some fid =>
      match w_fichas w !! fid with
      | Some f => mret (fid, f)
      | None => raise FichaDoesNotExist
      end
  | None => raise FichaDoesNotExist
  end.

(** [ficha.students.all()]: the rows of the users enrolled in the ficha. *)
Definition students_all (fid : Z) (f : Ficha) : M (list (Z * User)) :=
  log (CallStudentsQuery fid);;
  w ← get_world;
  mret (omap (fun id => (fun u => (id, u)) <$> w_users w !! id) (students f)).

(** [Attendance.objects.get(session_id=..., student_id=...)] *)
Definition Attendance_objects_get (session_id student_id : Z) : M Attendance :=
  w ← get_world;
  match w_attendance w !! (session_id, student_id) with
  | Some a => mret a
  | None => raise AttendanceDoesNotExist
  end.

(** [attendance_record.session] and [attendance_record.student]: the rows
    the two foreign keys of the record point to. *)
Definition attendance_session (session_id : Z) : M AttendanceSession :=
  w ← get_world;
  match w_sessions w !! session_id with
  | Some s => mret s
  | None => raise OtherException
  end.

Definition attendance_student (student_id : Z) : M User :=
  w ← get_world;
  match w_users w !! student_id with
  | Some u => mret u
  | None => raise OtherException
  end.

(** [attendance_record.save()] *)
Definition save (session_id student_id : Z) (a : Attendance) : M unit :=
  log (CallSave session_id student_id);;
  modify (fun w =>
    with_attendance (<[(session_id, student_id) := a]> (w_attendance w)) w).

(** [try: m except Attendance.DoesNotExist: handler] *)
Definition try_except_DoesNotExist {A} (m : M A) (handler : M A) : M A :=
  fun w =>
    match m w with
    | (Raise AttendanceDoesNotExist, w') => handler w'
    | r => r
    end.

(** ** [recognize_faces_in_stream] *)

(** Lines 56-65: the loop that collects the known encodings of a ficha. *)
Fixpoint collect_encodings (sts : list (Z * User))
    (known_encodings : list encoding) (known_student_ids : list Z)
  : M (list encoding * list Z) :=
  match sts with
  | [] => mret (known_encodings, known_student_ids)
  | (student_id, student) :: rest =>
      match face_encoding_data student with
      | Some fe =>
          if is_active fe then
            match encoding_array fe with
            | Some arr =>
                if bool_decide (length arr = 128%nat) then
                  collect_encodings rest (known_encodings ++ [arr])
                                         (known_student_ids ++ [student_id])
                else
                  log (LogWrongLength student_id (length arr));;
                  collect_encodings rest known_encodings known_student_ids
            | None => collect_encodings rest known_encodings known_student_ids
            end
          else collect_encodings rest known_encodings known_student_ids
      | None => collect_encodings rest known_encodings known_student_ids
      end
  end.

(** Lines 46-72: the known encodings of the ficha, from the cache or from
    the database. *)
Definition load_known_encodings (fid : Z) (f : Ficha)
  : M (list encoding * list Z) :=
  cached_data ← cache_get fid;
  match cached_data with
  | Some data =>                     (* a 2-tuple is truthy *)
      log (LogCacheHit fid);;
      mret data
  | None =>
      sts ← students_all fid f;
      log (LogLoadingFromDb fid (length sts));;
      known ← collect_encodings sts [] [];
      match known.1 with
      | [] =>
          log (LogNoActiveEncodings fid);;
          return_ (ErrorResponse NoActiveFaces)
      | _ :: _ =>
          cache_set fid known 3600;;
          log (LogCached fid (length known.1));;
          mret known
      end
  end.

(** Lines 75-78. *)
Definition detect_faces (image_file : image) (model : string)
  : M (list encoding) :=
  log CallDetect;;
  match detect image_file model with
  | Some stream_encodings =>
      log (LogDetected (length stream_encodings));;
      mret stream_encodings
  | None => raise OtherException
  end.

(** [face_recognition.compare_faces] *)
Definition compare_faces (known_encodings : list encoding)
    (stream_encoding : encoding) (tolerance : float) : list bool :=
  map (fun k => float_le (face_distance1 k stream_encoding) tolerance)
      known_encodings.

(** [[i for i, match in enumerate(matches) if match]] *)
Fixpoint matched_indices_from (i : nat) (matches : list bool) : list nat :=
  match matches with
  | [] => []
  | m :: ms =>
      if m then i :: matched_indices_from (S i) ms
      else matched_indices_from (S i) ms
  end.

Definition matched_indices (matches : list bool) : list nat :=
  matched_indices_from 0 matches.

(** Lines 88-105: [matched_student_id] for one detected face; [None] is
    Python's [None]. *)
Definition match_face (i : nat) (known_encodings : list encoding)
    (known_student_ids : list Z) (stream_encoding : encoding)
    (tolerance : float) : M (option Z) :=
  let matches := compare_faces known_encodings stream_encoding tolerance in
  match matched_indices matches with
  | [ix] =>
      match known_student_ids !! ix with
      | Some matched_student_id =>
          log (LogUnique matched_student_id);;
          mret (Some matched_student_id)
      | None => raise OtherException            (* IndexError *)
      end
  | ix1 :: ix2 :: ixs =>
      match mapM (fun ix => known_student_ids !! ix) (ix1 :: ix2 :: ixs) with
      | Some ambiguous_ids =>
          log (LogAmbiguous (S i) ambiguous_ids);;
          mret None
      | None => raise OtherException            (* IndexError *)
      end
  | [] =>
      match known_encodings with
      | [] => raise OtherException              (* np.min of an empty array *)
      | _ :: _ =>
          log (LogNoMatch (S i));;
          mret None
      end
  end.

(** Lines 113-120. *)
Definition session_start_datetime (session : AttendanceSession) : Z :=
  make_aware (datetime_combine (date session) (start_time session)).

Definition grace_period_end (session : AttendanceSession) : Z :=
  session_start_datetime session + timedelta_minutes (permisividad session).

(** Line 118 raises [OverflowError] unless the [timedelta] of the
    tolerance and the local date and time of the sum are within range. *)
Definition grace_period_representable (session : AttendanceSession) : bool :=
  bool_decide (- timedelta_max_days <= permisividad session / 1440
               <= timedelta_max_days) &&
  bool_decide (datetime_min <=
               datetime_combine (date session) (start_time session) +
               timedelta_minutes (permisividad session) <= datetime_max).

Definition new_status (session : AttendanceSession) (now : Z) : Status :=
  if bool_decide (now <= grace_period_end session) then present else late.

(** Lines 108-138: the attendance update for a matched student. *)
Definition apply_face_verification (session_id matched_student_id : Z)
    (recognized_students : list RecognizedStudent)
  : M (list RecognizedStudent) :=
  try_except_DoesNotExist
    (attendance_record ← Attendance_objects_get session_id matched_student_id;
     log (LogRecordFound matched_student_id (status attendance_record));;
     if decide (status attendance_record = absent) then
       session ← attendance_session session_id;
       now ← timezone_now;
       if grace_period_representable session then
         let st := new_status session now in
         save session_id matched_student_id
              {| status := st; check_in_time := Some now;
                 verified_by_face := true |};;
         log (LogUpdated matched_student_id st);;
         student ← attendance_student matched_student_id;
         mret (recognized_students ++
               [{| rs_id := matched_student_id;
                   rs_full_name := full_name student;
                   rs_status := st |}])
       else raise OtherException                  (* OverflowError *)
     else
       log (LogAlreadyRecorded matched_student_id (status attendance_record));;
       mret recognized_students)
    (log (LogRecordMissing matched_student_id);;
     mret recognized_students).                 (* continue *)

(** Lines 85-138: one iteration of the loop over the detected faces. *)
Definition process_face (session_id : Z) (known_encodings : list encoding)
    (known_student_ids : list Z) (tolerance : float) (n i : nat)
    (stream_encoding : encoding)
    (recognized_students : list RecognizedStudent)
  : M (list RecognizedStudent) :=
  log (LogProcessing (S i) n);;
  matched_student_id ←
    match_face i known_encodings known_student_ids stream_encoding tolerance;
  match matched_student_id with
  | Some sid =>
      if bool_decide (sid = 0) then mret recognized_students   (* 0 is falsy *)
      else apply_face_verification session_id sid recognized_students
  | None => mret recognized_students
  end.

(** Lines 84-138: [for i, stream_encoding in enumerate(stream_encodings)]. *)
Fixpoint process_faces (session_id : Z) (known_encodings : list encoding)
    (known_student_ids : list Z) (tolerance : float) (n i : nat)
    (stream_encodings : list encoding)
    (recognized_students : list RecognizedStudent)
  : M (list RecognizedStudent) :=
  match stream_encodings with
  | [] => mret recognized_students
  | stream_encoding :: rest =>
      recognized_students' ←
        process_face session_id known_encodings known_student_ids tolerance
                     n i stream_encoding recognized_students;
      process_faces session_id known_encodings known_student_ids tolerance
                    n (S i) rest recognized_students'
  end.

(** Lines 75-140: detection on the received image and the loop over the
    detected faces. *)
Definition process_stream (image_file : image) (session_id : Z)
    (settings : FaceRecognitionSettings) (known : list encoding * list Z)
  : M Response :=
  stream_encodings ← detect_faces image_file (face_detection_model settings);
  match stream_encodings with
  | [] => return_ (ErrorResponse NoFaceDetected)
  | _ :: _ =>
      recognized_students ←
        process_faces session_id known.1 known.2
                      (confidence_threshold settings)
                      (length stream_encodings) 0 stream_encodings [];
      return_ (RecognizedStudents recognized_students)
  end.

(** Lines 38-140: the body of the [try]. *)
Definition recognize_body (image_file : image) (session_id : Z) : M Response :=
  log (LogStart session_id);;
  w ← get_world;
  let settings := w_settings w in
  log LogThreshold;;
  '(fid, f) ← Ficha_objects_get session_id;
  known ← load_known_encodings fid f;
  process_stream image_file session_id settings known.

(** The function with its two [except] clauses (lines 142-147). *)
Definition recognize_faces_in_stream (image_file : image) (session_id : Z)
    (w : World) : Response * World :=
  match recognize_body image_file session_id w with
  | (Val r, w') => (r, w')
  | (Return r, w') => (r, w')
  | (Raise FichaDoesNotExist, w') =>
      (ErrorResponse SessionWithoutFicha, emit (LogNoFicha session_id) w')
  | (Raise _, w') =>
      (ErrorResponse UnexpectedError, emit (LogException session_id) w')
  end.

(** ** Notions used to state the properties *)

(** The row written by a check-in at instant [now]. *)
Definition checked_in (s : AttendanceSession) (now : Z) : Attendance :=
  {| status := new_status s now; check_in_time := Some now;
     verified_by_face := true |}.

(** The world after the update of an absent record (lines 113-126). *)
Definition world_after_check_in (session_id sid : Z) (s : AttendanceSession)
    (w : World) : World :=
  let now := clock (w_tick w) in
  emit (LogUpdated sid (new_status s now))
    (with_attendance
       (<[(session_id, sid) := checked_in s now]> (w_attendance w))
       (emit (CallSave session_id sid)
          (tick (emit (LogRecordFound sid absent) w)))).

(** Time passing between two requests: [d] further readings of the clock
    by other activity. *)
Definition advance (d : nat) (w : World) : World :=
  Nat.iter d tick w.

(** A sequence of applications of the update to one record, the [j]-th
    one made [delays !! j] clock readings after the previous one; the
    result and the world after each application. *)
Fixpoint apply_sequence (session_id sid : Z) (delays : list nat) (w : World)
  : list (Res (list RecognizedStudent) * World) :=
  match delays with
  | [] => []
  | d :: ds =>
      let r := apply_face_verification session_id sid [] (advance d w) in
      r :: apply_sequence session_id sid ds r.2
  end.

(** Requests made one after the other for one session, one per image;
    the response and the world after each. *)
Fixpoint request_sequence (session_id : Z) (imgs : list image) (w : World)
  : list (Response * World) :=
  match imgs with
  | [] => []
  | img :: rest =>
      let r := recognize_faces_in_stream img session_id w in
      r :: request_sequence session_id rest r.2
  end.

(** The number of [save()] calls on the record in a trace. *)
Definition count_saves (session_id sid : Z) (tr : list Event) : nat :=
  length (filter (fun e => e = CallSave session_id sid) tr).

(** What the caller reads in an entry of the response besides the name. *)
Definition entries_of (rec : list RecognizedStudent) : list (Z * Status) :=
  (fun r => (rs_id r, rs_status r)) <$> rec.

(** The number of reloads of a ficha from the enrollment store in a
    trace. *)
Definition count_queries (fid : Z) (tr : list Event) : nat :=
  length (filter (fun e => e = CallStudentsQuery fid) tr).

(** The updates announced in a trace (line 126), in order. *)
Definition updates_of (tr : list Event) : list (Z * Status) :=
  omap (fun e => match e with
                 | LogUpdated sid st => Some (sid, st)
                 | _ => None
                 end) tr.

(** The student a detected face is matched to: the one known encoding
    within the tolerance, when there is exactly one and the id read at
    its index is not 0 (lines 88-94 and 107). *)
Definition unique_match (known_encodings : list encoding)
    (known_student_ids : list Z) (tolerance : float)
    (stream_encoding : encoding) : option Z :=
  match matched_indices
          (compare_faces known_encodings stream_encoding tolerance) with
  | [ix] =>
      match known_student_ids !! ix with
      | Some sid => if bool_decide (sid = 0) then None else Some sid
      | None => None
      end
  | _ => None
  end.

(** The record of [sid] for the session is absent in [w]. *)
Definition absent_in (w : World) (session_id sid : Z) : Prop :=
  exists a, w_attendance w !! (session_id, sid) = Some a /\ status a = absent.

(** What an entry of the response says, checked against the tables: the
    name is the one of the user row, and the record of the student for
    the session holds the status of the entry, present or late, verified
    by face and with a check-in time. *)
Definition entry_recorded (w : World) (session_id : Z)
    (e : RecognizedStudent) : Prop :=
  exists u r,
    w_users w !! rs_id e = Some u /\ rs_full_name e = full_name u /\
    w_attendance w !! (session_id, rs_id e) = Some r /\
    status r = rs_status e /\ (status r = present \/ status r = late) /\
    verified_by_face r = true /\ is_Some (check_in_time r).

(** The encoding a student contributes to the known set: the array of an
    active [FaceEncoding] row when it has length 128. *)
Definition valid_encoding (u : User) : option encoding :=
  fe ← face_encoding_data u;
  if is_active fe then
    arr ← encoding_array fe;
    if bool_decide (length arr = 128%nat) then Some arr else None
  else None.

(** The students of a ficha with their rows, as [students_all] answers. *)
Definition student_rows (w : World) (f : Ficha) : list (Z * User) :=
  omap (fun id => (fun u => (id, u)) <$> w_users w !! id) (students f).

(** The (student id, encoding) pairs contributed by a list of rows, and
    those of a ficha in the enrollment store. *)
Definition known_pairs (sts : list (Z * User)) : list (Z * encoding) :=
  omap (fun p => (fun e => (p.1, e)) <$> valid_encoding p.2) sts.

Definition active_pairs (w : World) (f : Ficha) : list (Z * encoding) :=
  known_pairs (student_rows w f).

(** Student [sid] of the ficha has an active face-encoding row whose
    stored array is [e], of length 128. *)
Definition has_valid_active_encoding (w : World) (f : Ficha) (sid : Z)
    (e : encoding) : Prop :=
  sid ∈ students f /\
  exists u fe, w_users w !! sid = Some u /\ face_encoding_data u = Some fe /\
               is_active fe = true /\ encoding_array fe = Some e /\
               length e = 128%nat.

(** The entry [cache.set] stores at instant [now] for one hour. *)
Definition fresh_entry (known : list encoding * list Z) (now : Z)
  : CacheEntry :=
  {| ce_encodings := known.1; ce_student_ids := known.2;
     ce_expires := now + 3600 * microseconds_per_second |}.

(** Every cache entry is non-empty. *)
Definition cache_nonempty (w : World) : Prop :=
  forall fid e, w_cache w !! fid = Some e -> ce_encodings e <> [].

(** Every cache entry is what a reload from the enrollment store gives
    now.  Requests keep this while the enrollment store stays as it is;
    nothing removes or rewrites an entry when a face-encoding row or a
    roster changes, so that it is lost then until the entry expires. *)
Definition cache_coherent (w : World) : Prop :=
  forall fid e, w_cache w !! fid = Some e ->
    exists f, w_fichas w !! fid = Some f /\
              ce_encodings e = (active_pairs w f).*2 /\
              ce_student_ids e = (active_pairs w f).*1.

(** Every cache entry holds as many student ids as encodings, and only
    encodings of length 128.  This speaks of the cache alone: line 71 is
    the only writer of the cache, and changes of the enrollment store do
    not touch it. *)
Definition cache_parallel (w : World) : Prop :=
  forall fid e, w_cache w !! fid = Some e ->
    length (ce_encodings e) = length (ce_student_ids e) /\
    Forall (fun k : encoding => length k = 128%nat) (ce_encodings e).

(** The attendance table [a'] differs from [a] by check-ins only: no row
    is created or deleted, and a row that changed was absent and is now
    present or late, verified by face. *)
Definition check_ins_only (a a' : gmap (Z * Z) Attendance) : Prop :=
  forall key,
    match a !! key, a' !! key with
    | None, None => True
    | Some r, Some r' =>
        r' = r \/
        (status r = absent /\ (status r' = present \/ status r' = late) /\
         verified_by_face r' = true /\ is_Some (check_in_time r'))
    | _, _ => False
    end.

(** The ficha of a session, as [Ficha.objects.get(sessions__id=...)] finds
    it. *)
Definition ficha_of (w : World) (session_id : Z) : option (Z * Ficha) :=
  fid ← w_sessions w !! session_id ≫= ficha;
  f ← w_fichas w !! fid;
  Some (fid, f).

(** The warnings of the collecting loop (line 65), in order. *)
Definition wrong_length_warnings (sts : list (Z * User)) : list Event :=
  omap (fun p =>
          fe ← face_encoding_data p.2;
          if is_active fe then
            arr ← encoding_array fe;
            if bool_decide (length arr = 128%nat) then None
            else Some (LogWrongLength p.1 (length arr))
          else None) sts.

(** A computation that extends the list of recognized students by the
    updates it announces, [k] of them at most. *)
Definition announces (k : nat) (rec : list RecognizedStudent)
    (m : M (list RecognizedStudent)) : Prop :=
  forall w rec' w', m w = (Val rec', w') ->
    exists new, rec' = rec ++ new /\ (length new <= k)%nat /\
      updates_of (w_trace w') = updates_of (w_trace w) ++ entries_of new.

(** The events of lines 46-72. *)
Definition is_load_event (e : Event) : bool :=
  match e with
  | LogCacheHit _ | CallStudentsQuery _ | LogLoadingFromDb _ _
  | LogWrongLength _ _ | LogNoActiveEncodings _ | LogCached _ _ => true
  | _ => false
  end.

(** [w'] is [w] up to the trace. *)
Definition same_state (w w' : World) : Prop :=
  w_settings w' = w_settings w /\ w_users w' = w_users w /\
  w_fichas w' = w_fichas w /\ w_sessions w' = w_sessions w /\
  w_attendance w' = w_attendance w /\ w_cache w' = w_cache w /\
  w_tick w' = w_tick w.

(** How a request may change the world: the enrollment and scheduling
    tables are read only, the attendance table changes by check-ins only,
    the clock and the trace only grow, and a cache entry is either an old
    one or a non-empty reload from the enrollment store. *)
Record evolves (w w' : World) : Prop := {
  ev_settings : w_settings w' = w_settings w;
  ev_users : w_users w' = w_users w;
  ev_fichas : w_fichas w' = w_fichas w;
  ev_sessions : w_sessions w' = w_sessions w;
  ev_attendance : check_ins_only (w_attendance w) (w_attendance w');
  ev_tick : (w_tick w <= w_tick w')%nat;
  ev_trace : w_trace w `prefix_of` w_trace w';
  ev_cache : forall fid e, w_cache w' !! fid = Some e ->
      w_cache w !! fid = Some e \/
      exists f, w_fichas w !! fid = Some f /\ ce_encodings e <> [] /\
                ce_encodings e = (active_pairs w f).*2 /\
                ce_student_ids e = (active_pairs w f).*1;
}.

(** A computation all of whose runs are related by [R]. *)
Definition preserves {A} (R : World -> World -> Prop) (m : M A) : Prop :=
  forall w, R w (m w).2.

(** ** Requests running at the same time

    Lines 46-72 make three calls that leave the process, [cache.get], the
    query of the students and [cache.set], and hold no lock in between.
    Requests running at the same time are modelled as threads that each
    execute these three segments in order, any interleaving of the
    segments of different threads being possible. *)

(** Where a request stands within lines 46-72. *)
Inductive Stage :=
| AtCacheGet                                     (* before line 47 *)
| AtQuery                                        (* miss, before line 53 *)
| AtCacheSet (known : list encoding * list Z)    (* before line 71 *)
| Finished (r : Res (list encoding * list Z)).   (* past line 72 or 69 *)

(** The segment a request executes next. *)
Definition stage_code (fid : Z) (f : Ficha) (st : Stage) : M Stage :=
  match st with
  | AtCacheGet =>
      cached_data ← cache_get fid;
      match cached_data with
      | Some data =>
          log (LogCacheHit fid);;
          mret (Finished (Val data))
      | None => mret AtQuery
      end
  | AtQuery =>
      sts ← students_all fid f;
      log (LogLoadingFromDb fid (length sts));;
      known ← collect_encodings sts [] [];
      match known.1 with
      | [] =>
          log (LogNoActiveEncodings fid);;
          return_ (ErrorResponse NoActiveFaces)
      | _ :: _ => mret (AtCacheSet known)
      end
  | AtCacheSet known =>
      cache_set fid known 3600;;
      log (LogCached fid (length known.1));;
      mret (Finished (Val known))
  | Finished r => mret (Finished r)
  end.

Definition stage_step (fid : Z) (f : Ficha) (st : Stage) (w : World)
  : Stage * World :=
  match stage_code fid f st w with
  | (Val st', w') => (st', w')
  | (Return r, w') => (Finished (Return r), w')
  | (Raise e, w') => (Finished (Raise e), w')
  end.

Record Thread := {
  th_ficha_id : Z;
  th_ficha : Ficha;
  th_stage : Stage;
}.

(** The scheduler lets thread [t] execute its next segment. *)
Definition sys_step (t : nat) (sys : World * list Thread)
  : World * list Thread :=
  match sys.2 !! t with
  | Some th =>
      let r := stage_step (th_ficha_id th) (th_ficha th) (th_stage th) sys.1 in
      (r.2, <[t := {| th_ficha_id := th_ficha_id th;
                      th_ficha := th_ficha th;
                      th_stage := r.1 |}]> sys.2)
  | None => sys
  end.

Definition run_schedule (schedule : list nat) (sys : World * list Thread)
  : World * list Thread :=
  foldl (fun sys t => sys_step t sys) sys schedule.

(** A request that enters lines 46-72 for the ficha [fid]. *)
Definition caller (fid : Z) (f : Ficha) : Thread :=
  {| th_ficha_id := fid; th_ficha := f; th_stage := AtCacheGet |}.

(** What a reload of the ficha from the enrollment store answers. *)
Definition reload_outcome (w : World) (f : Ficha)
  : Res (list encoding * list Z) :=
  match (active_pairs w f).*2 with
  | [] => Return (ErrorResponse NoActiveFaces)
  | _ :: _ => Val ((active_pairs w f).*2, (active_pairs w f).*1)
  end.

(** The number of segments a request still has to execute, at most. *)
Definition segments_left (st : Stage) : nat :=
  match st with
  | AtCacheGet => 3
  | AtQuery => 2
  | AtCacheSet _ => 1
  | Finished _ => 0
  end.

(** The threads of the ficha [fid] that may still query its students. *)
Definition may_query (fid : Z) (th : Thread) : bool :=
  bool_decide (th_ficha_id th = fid) &&
  match th_stage th with
  | AtCacheGet | AtQuery => true
  | _ => false
  end.

Definition queriers (fid : Z) (ths : list Thread) : nat :=
  sum_list ((fun th => if may_query fid th then 1%nat else 0%nat) <$> ths).

(** The number of times the scheduler picks thread [t]. *)
Definition turns (t : nat) (schedule : list nat) : nat :=
  length (filter (fun x => x = t) schedule).

(** What holds of a caller of the ficha [fid] in a system started in the
    world [w0]: its roster is the one of [fid], what it is about to write
    is a non-empty reload, and what it was served is the outcome of a
    reload. *)
Definition caller_ok (w0 : World) (fid : Z) (th : Thread) : Prop :=
  th_ficha_id th = fid ->
  w_fichas w0 !! fid = Some (th_ficha th) /\
  match th_stage th with
  | AtCacheGet | AtQuery => True
  | AtCacheSet known =>
      known = ((active_pairs w0 (th_ficha th)).*2,
               (active_pairs w0 (th_ficha th)).*1) /\ known.1 <> []
  | Finished r => r = reload_outcome w0 (th_ficha th)
  end.

(** And of the world: the users are those of [w0], the clock has not gone
    back, and the cache entry of [fid] is the one of [w0] or a non-empty
    reload written since.  Nothing is asked of the entry of [w0] itself,
    nor of the entries of the other fichas. *)
Definition cohort_world (w0 : World) (fid : Z) (w : World) : Prop :=
  w_users w = w_users w0 /\ (w_tick w0 <= w_tick w)%nat /\
  (w_cache w !! fid = w_cache w0 !! fid \/
   exists e f, w_cache w !! fid = Some e /\ w_fichas w0 !! fid = Some f /\
               ce_encodings e = (active_pairs w0 f).*2 /\
               ce_student_ids e = (active_pairs w0 f).*1 /\
               ce_encodings e <> []).

(** The turns a caller has taken when it stands at a stage, as long as
    its read of the cache missed: none before the read, one before the
    query, two or more past the query. *)
Definition stage_after (st : Stage) (n : nat) : Prop :=
  match st with
  | AtCacheGet => n = 0%nat
  | AtQuery => n = 1%nat
  | AtCacheSet _ | Finished _ => (2 <= n)%nat
  end.

(** Since the system started in [w0], either the cache entry of [fid] has
    not been written or its students have been queried; and they have been
    queried once a thread of [fid] is past its query. *)
Definition reload_witnessed (w0 : World) (fid : Z)
    (sys : World * list Thread) : Prop :=
  (w_tick w0 <= w_tick sys.1)%nat /\
  (w_cache sys.1 !! fid = w_cache w0 !! fid \/
   (count_queries fid (w_trace w0) < count_queries fid (w_trace sys.1))%nat) /\
  (count_queries fid (w_trace w0) <= count_queries fid (w_trace sys.1))%nat /\
  Forall (fun th =>
            th_ficha_id th = fid ->
            (segments_left (th_stage th) <= 1)%nat ->
            (count_queries fid (w_trace w0)
               < count_queries fid (w_trace sys.1))%nat) sys.2.

Definition cohort_ok (w0 : World) (fid : Z) (sys : World * list Thread)
  : Prop :=
  cohort_world w0 fid sys.1 /\ Forall (caller_ok w0 fid) sys.2.

End Service.

(** Unfolding of the monad and of the primitives that neither loop nor
    branch on the cache. *)
Ltac mrun :=
  cbv [mbind M_bind mret M_ret get_world log modify raise return_ read_clock
       timezone_now attendance_session attendance_student save
       Attendance_objects_get try_except_DoesNotExist cache_get cache_set
       students_all].

(** * The code around the service

    The enrollment of a face ([get_face_encoding_from_image] and the
    registration serializer that calls it), the creation of a session with
    its attendance records, the guards of the excuse views, the permission
    classes and the querysets that decide who sees which record. *)

(** What the enrollment code asks of the libraries. *)
Class EnrollmentLib `{FaceRecognitionLib} := {
  (** [face_recognition.load_image_file(image_file)] followed by
      [face_recognition.face_encodings(image)]; [None] when either raises *)
  profile_encodings : image -> option (list encoding);
  (** numpy accepts the shapes of [face_distance(known, new)] *)
  shapes_ok : list encoding -> encoding -> bool;
  (** the literal [0.5] *)
  duplicate_distance : float;
}.

(** The file store under [settings.MEDIA_ROOT]. *)
Class MediaStore := {
  MEDIA_ROOT : string;            (* settings.MEDIA_ROOT *)
  path_exists : string -> bool;   (* os.path.exists *)
  can_open : string -> bool;      (* open(_, 'rb') does not raise *)
}.

(** What [get_face_encoding_from_image] writes to the log. *)
Inductive ImageLog :=
| NothingLogged
| WarnFaceCount (count : nat)                        (* 28, warning *)
| ErrorProcessingImage.                              (* 31, error *)

(** The [ValidationError]s of [RegisterStudentSerializer.validate], by the
    field they are attached to and their message. *)
Inductive RegisterError :=
| PasswordMismatch                                   (* 117 *)
| FichaNotFound                                      (* 122 *)
| FaceNotUsable                                      (* 129 *)
| FaceAlreadyRegistered.                             (* 140 *)

(** The outcome of a validation: the validated value, a [ValidationError],
    or an exception that [validate] does not catch. *)
Inductive Validation (A : Type) :=
| Validated (a : A)
| Rejected (e : RegisterError)
| Uncaught.
Arguments Validated {A} a.
Arguments Rejected {A} e.
Arguments Uncaught {A}.

Section Enrollment.
Context `{Lib : FaceRecognitionLib} `{Enr : !EnrollmentLib}.

(** services.py, lines 18-32. The pair is the returned value ([None] is
    Python's [None]) and the line logged. *)
Definition get_face_encoding_from_image (image_file : image)
  : option encoding * ImageLog :=
  match profile_encodings image_file with
  | Some encodings =>
      match encodings with
      | [e] => (Some e, NothingLogged)
      | _ => (None, WarnFaceCount (length encodings))
      end
  | None => (None, ErrorProcessingImage)
  end.

(** [attrs] of [RegisterStudentSerializer.validate], the fields it reads. *)
Record RegisterAttrs := {
  password : string;
  password2 : string;
  ficha_numero : string;
  face_image : image;
}.

(** The rows [Ficha.objects.get(numero_ficha=...)] chooses from. *)
Definition fichas_numbered (w : World) (numero : string) : list (Z * Ficha) :=
  filter (fun p => numero_ficha p.2 = numero) (map_to_list (w_fichas w)).

(** [FaceEncoding.objects.filter(is_active=True)] *)
Definition active_face_rows (w : World) : list FaceEncoding :=
  omap (fun p : Z * User =>
          fe ← face_encoding_data p.2;
          if is_active fe then Some fe else None)
       (map_to_list (w_users w)).

(** [[enc.get_encoding_array() for enc in existing_encodings
      if enc.get_encoding_array() is not None]] *)
Definition stored_arrays (rows : list FaceEncoding) : list encoding :=
  omap encoding_array rows.

(** [face_recognition.face_distance(known, new)]: one distance per known
    encoding; [None] when numpy raises on the shapes. *)
Definition face_distance (known : list encoding) (new : encoding)
  : option (list float) :=
  if shapes_ok known new
  then Some (map (fun k => face_distance1 k new) known)
  else None.

(** [np.any(distances <= t)] *)
Definition np_any_le (distances : list float) (t : float) : bool :=
  existsb (fun d => float_le d t) distances.

(** serializers.py, lines 115-146. A validated registration is represented
    by the value stored under [attrs['face_encoding']]. *)
Definition RegisterStudentSerializer_validate (attrs : RegisterAttrs)
    (w : World) : Validation encoding * ImageLog :=
  if bool_decide (password attrs <> password2 attrs)
  then (Rejected PasswordMismatch, NothingLogged)
  else
    match fichas_numbered w (ficha_numero attrs) with
    | [] => (Rejected FichaNotFound, NothingLogged)
    | _ :: _ :: _ => (Uncaught, NothingLogged)  (* MultipleObjectsReturned *)
    | [_] =>
        let '(new_encoding, logged) :=
          get_face_encoding_from_image (face_image attrs) in
        match new_encoding with
        | None => (Rejected FaceNotUsable, logged)
        | Some e =>
            let existing_encodings := active_face_rows w in
            match existing_encodings with
            | [] => (Validated e, logged)
            | _ :: _ =>
                let known_encodings := stored_arrays existing_encodings in
                match known_encodings with
                | [] => (Validated e, logged)
                | _ :: _ =>
                    match face_distance known_encodings e with
                    | None => (Uncaught, logged)
                    | Some distances =>
                        if np_any_le distances duplicate_distance
                        then (Rejected FaceAlreadyRegistered, logged)
                        else (Validated e, logged)
                    end
                end
            end
        end
    end.

Definition with_users (u : gmap Z User) (w : World) : World :=
  {| w_settings := w_settings w; w_users := u; w_fichas := w_fichas w;
     w_sessions := w_sessions w; w_attendance := w_attendance w;
     w_cache := w_cache w; w_tick := w_tick w;
     w_trace := w_trace w |}.

Definition set_is_active (b : bool) (u : User) : User :=
  {| full_name := full_name u;
     face_encoding_data :=
       (fun fe => {| is_active := b; encoding_array := encoding_array fe |})
         <$> face_encoding_data u |}.

(** The [is_active] column of the face-encoding row of user [uid] set to
    [b]: the field is editable in the admin form of [FaceEncoding]. *)
Definition set_face_active (uid : Z) (b : bool) (w : World) : World :=
  with_users (alter (set_is_active b) uid (w_users w)) w.

End Enrollment.

(** ** Sessions, excuses and who may see them *)

(** [request.user]: the primary key and the [role] column. *)
Record RequestUser := {
  ru_id : Z;
  ru_role : string;
}.

(** A row of [Excuse]: the columns the views read. *)
Record Excuse := {
  ex_student : Z;
  ex_session : Z;
  ex_status : string;
  ex_document : string;       (* the stored name of the uploaded file *)
}.

(** [validated_data] of [AttendanceSessionSerializer]: the columns an
    [AttendanceSession] of the service has. *)
Record SessionData := {
  sd_ficha : Z;
  sd_date : Z;
  sd_start_time : Z;
  sd_permisividad : Z;
}.

(** What a model instance handed to a permission class is. *)
Inductive Obj :=
| ObjFicha (ficha_id : Z)
| ObjSession (session_id : Z)
| ObjAttendance (session_id student_id : Z)
| ObjNone.                    (* [None], or an instance of another model *)

(** The exceptions of the two [perform_create].  Both views write
    [raise permissions.PermissionDenied(...)] where [permissions] is the
    module [rest_framework.permissions], which has no [PermissionDenied]
    (the class lives in [rest_framework.exceptions]): evaluating the
    operand of the [raise] raises [AttributeError], and no
    [PermissionDenied] is ever built.  The user is stopped all the same,
    by an exception the framework does not answer with 403. *)
Inductive CreateSessionError :=
| SessionAttributeError       (* AttributeError, views.py 286 *)
| SessionIntegrityError       (* a constraint of the database *)
| SessionUncaught.

Inductive CreateExcuseError :=
| ExcuseAttributeError        (* AttributeError, excuses/views.py 87 *)
| NotAbsent                   (* ValidationError, 93 *)
| NoAttendanceRecord          (* ValidationError, 95 *)
| ExcuseExists                (* ValidationError, 99 *)
| ExcuseUncaught.

(** [perform_create] of the excuses either raises or reaches
    [serializer.save(student=user)]. *)
Inductive CreateExcuseOutcome :=
| ExcuseRefused (e : CreateExcuseError)
| ExcuseSaved (student_id session_id : Z).

Inductive MediaResponse :=
| MediaNotFound               (* Http404 *)
| MediaServed (full_path : string)
| MediaUncaught.

(** [s.endswith('/')] *)
Fixpoint ends_with_sep (s : string) : bool :=
  match s with
  | EmptyString => false
  | String _ EmptyString => bool_decide (s = "/"%string)
  | String _ s' => ends_with_sep s'
  end.

(** [os.path.join(a, b)] of posixpath: a second component that starts
    with a slash replaces the first one. *)
Definition os_path_join (a b : string) : string :=
  if String.prefix "/" b then b
  else if bool_decide (a = EmptyString) || ends_with_sep a
  then (a ++ b)%string
  else (a ++ "/" ++ b)%string.

(** Python's [sub in s] on strings. *)
Fixpoint str_contains (sub s : string) : bool :=
  if String.prefix sub s then true
  else match s with
       | EmptyString => false
       | String _ s' => str_contains sub s'
       end.

Section Campus.
Context `{Lib : FaceRecognitionLib} `{Med : MediaStore}.

(** The tables: those of the service, [Ficha.instructors] (a many-to-many
    relation, by ficha id) and the excuses. *)
Record Campus := {
  c_world : World;
  c_instructors : gmap Z (gset Z);
  c_excuses : list Excuse;
}.

Definition with_world (w : World) (c : Campus) : Campus :=
  {| c_world := w; c_instructors := c_instructors c;
     c_excuses := c_excuses c |}.

Definition with_sessions (s : gmap Z AttendanceSession) (w : World) : World :=
  {| w_settings := w_settings w; w_users := w_users w; w_fichas := w_fichas w;
     w_sessions := s; w_attendance := w_attendance w;
     w_cache := w_cache w; w_tick := w_tick w;
     w_trace := w_trace w |}.

(** [ficha.instructors.filter(id=user.id).exists()] *)
Definition instructs (c : Campus) (user : RequestUser) (ficha_id : Z) : bool :=
  bool_decide (ru_id user ∈ default ∅ (c_instructors c !! ficha_id)).

(** [session.ficha], [None] for a session without ficha. *)
Definition session_ficha_id (w : World) (session_id : Z) : option Z :=
  w_sessions w !! session_id ≫= ficha.

(** permissions.py, lines 18-32. *)
Definition IsInstructorOfFicha_has_object_permission (c : Campus)
    (user : RequestUser) (obj : Obj) : bool :=
  let ficha :=
    match obj with
    | ObjFicha ficha_id => Some ficha_id
    | ObjSession session_id => session_ficha_id (c_world c) session_id
    | ObjAttendance session_id _ => session_ficha_id (c_world c) session_id
    | ObjNone => None
    end in
  match ficha with
  | Some ficha_id => instructs c user ficha_id
  | None => false
  end.

(** The lookup [ficha__instructors=user] of a queryset filter, from a
    session. *)
Definition session_instructed_by (c : Campus) (user : RequestUser)
    (session_id : Z) : bool :=
  match session_ficha_id (c_world c) session_id with
  | Some ficha_id => instructs c user ficha_id
  | None => false
  end.

(** attendance/views.py, lines 270-280. *)
Definition SessionViewSet_get_queryset (c : Campus) (user : RequestUser)
  : gmap Z AttendanceSession :=
  let queryset := w_sessions (c_world c) in
  if bool_decide (ru_role user = "instructor"%string)
  then filter (fun kv => session_instructed_by c user kv.1 = true) queryset
  else queryset.

(** attendance/views.py, lines 333-351. *)
Definition AttendanceLogViewSet_get_queryset (c : Campus) (user : RequestUser)
  : gmap (Z * Z) Attendance :=
  let queryset := w_attendance (c_world c) in
  if bool_decide (ru_role user = "student"%string)
  then filter (fun kv => kv.1.2 = ru_id user) queryset
  else if bool_decide (ru_role user = "instructor"%string)
  then filter (fun kv => session_instructed_by c user kv.1.1 = true) queryset
  else queryset.

(** attendance/views.py, lines 255-259. *)
Definition ListAbsencesView_get_queryset (w : World) (user : RequestUser)
  : gmap (Z * Z) Attendance :=
  if bool_decide (ru_role user <> "student"%string)
  then ∅
  else filter (fun kv => kv.1.2 = ru_id user /\ status kv.2 = absent)
              (w_attendance w).

(** excuses/views.py, lines 70-79. *)
Definition ExcuseViewSet_get_queryset (c : Campus) (user : RequestUser)
  : list Excuse :=
  let queryset := c_excuses c in
  let queryset :=
    if bool_decide (ru_role user = "student"%string)
    then filter (fun e => ex_student e = ru_id user) queryset
    else queryset in
  let queryset :=
    if bool_decide (ru_role user = "instructor"%string)
    then filter (fun e => session_instructed_by c user (ex_session e) = true)
                queryset
    else queryset in
  queryset.

(** The row [serializer.save()] creates from the validated data. *)
Definition new_session (data : SessionData) : AttendanceSession :=
  {| ficha := Some (sd_ficha data); date := sd_date data;
     start_time := sd_start_time data;
     permisividad := sd_permisividad data |}.

(** [unique_together = ['ficha', 'date', 'start_time']] would be broken
    by a row for [data]. *)
Definition slot_taken (data : SessionData)
    (sessions : gmap Z AttendanceSession) : bool :=
  bool_decide
    (map_Exists (fun _ s => ficha s = Some (sd_ficha data) /\
                            date s = sd_date data /\
                            start_time s = sd_start_time data) sessions).

(** [Attendance(session=session, student=student)]: the defaults of the
    model (models.py, lines 46-48). *)
Definition new_attendance : Attendance :=
  {| status := absent; check_in_time := None; verified_by_face := false |}.

(** [Attendance.objects.bulk_create(...)] of one record per student:
    one INSERT, refused as a whole ([None]) when it breaks
    [unique_together = ['session', 'student']]. *)
Definition bulk_create (session_id : Z) (student_ids : list Z)
    (a : gmap (Z * Z) Attendance) : option (gmap (Z * Z) Attendance) :=
  if bool_decide
       (NoDup student_ids /\
        Forall (fun s => a !! (session_id, s) = None) student_ids)
  then Some (foldr (fun s acc => <[(session_id, s) := new_attendance]> acc)
                   a student_ids)
  else None.

(** attendance/views.py, lines 282-292. [new_id] is the primary key the
    database gives the new session. The result is the exception raised,
    if any, and the tables as the call leaves them (every statement is
    committed on its own, Django's default). *)
Definition SessionViewSet_perform_create (user : RequestUser) (new_id : Z)
    (data : SessionData) (c : Campus)
  : option CreateSessionError * Campus :=
  let w := c_world c in
  match w_fichas w !! sd_ficha data with
  | None => (Some SessionUncaught, c)   (* not a validated ficha *)
  | Some f =>
      if negb (instructs c user (sd_ficha data))
      then (Some SessionAttributeError, c)   (* line 286 *)
      else if bool_decide (is_Some (w_sessions w !! new_id))
              || slot_taken data (w_sessions w)
      then (Some SessionIntegrityError, c)
      else
        let w1 :=
          with_sessions (<[new_id := new_session data]> (w_sessions w)) w in
        let students_in_ficha := student_rows w1 f in
        match bulk_create new_id students_in_ficha.*1 (w_attendance w1) with
        | Some a => (None, with_world (with_attendance a w1) c)
        | None => (Some SessionIntegrityError, with_world w1 c)
        end
  end.

(** [Excuse.objects.filter(student=user, session=session).exists()] *)
Definition excuse_exists (c : Campus) (student_id session_id : Z) : bool :=
  existsb (fun e => bool_decide (ex_student e = student_id /\
                                 ex_session e = session_id))
          (c_excuses c).

(** excuses/views.py, lines 81-101. [session_id] is the session of the
    validated data. *)
Definition ExcuseViewSet_perform_create (user : RequestUser)
    (session_id : Z) (c : Campus) : CreateExcuseOutcome :=
  let w := c_world c in
  match session_ficha_id w session_id ≫= (fun fid => w_fichas w !! fid) with
  | None => ExcuseRefused ExcuseUncaught     (* [session.ficha] is None *)
  | Some f =>
      if negb (bool_decide (ru_id user ∈ (student_rows w f).*1))
      then ExcuseRefused ExcuseAttributeError       (* line 87 *)
      else
        match w_attendance w !! (session_id, ru_id user) with
        | None => ExcuseRefused NoAttendanceRecord
        | Some attendance_record =>
            if bool_decide (status attendance_record <> absent)
            then ExcuseRefused NotAbsent
            else if excuse_exists c (ru_id user) session_id
            then ExcuseRefused ExcuseExists
            else ExcuseSaved (ru_id user) session_id
        end
  end.

(** excuses/views.py, lines 18-48. *)
Definition protected_media_view (user : RequestUser) (file_path : string)
    (c : Campus) : MediaResponse :=
  if str_contains ".." file_path then MediaNotFound
  else
    match filter (fun e => ex_document e = file_path) (c_excuses c) with
    | [] => MediaNotFound                     (* Excuse.DoesNotExist *)
    | _ :: _ :: _ => MediaUncaught            (* MultipleObjectsReturned *)
    | [excuse] =>
        if bool_decide (ru_role user = "student"%string)
           && bool_decide (ex_student excuse <> ru_id user)
        then MediaNotFound
        else
          let continue :=
            let full_path := os_path_join MEDIA_ROOT file_path in
            if negb (path_exists full_path) then MediaNotFound
            else if can_open full_path then MediaServed full_path
            else MediaUncaught in
          if bool_decide (ru_role user = "instructor"%string)
          then
            match session_ficha_id (c_world c) (ex_session excuse) with
            | None => MediaUncaught           (* [session.ficha] is None *)
            | Some ficha_id =>
                if negb (instructs c user ficha_id) then MediaNotFound
                else continue
            end
          else continue
    end.

End Campus.

Section Requests.
Context `{Lib : FaceRecognitionLib} `{Env : Environment}.

(** The world after requests made one after the other, each with its
    image and its session. *)
Definition after_requests (requests : list (image * Z)) (w : World) : World :=
  foldl (fun w r => (recognize_faces_in_stream r.1 r.2 w).2) w requests.

(** What the processing of the detected faces (lines 83-140) may do to
    the world: it changes records of the session of the request only,
    queries no roster and leaves the cache as it is. *)
Definition processing_frame (session_id : Z) (w w' : World) : Prop :=
  (forall key, key.1 <> session_id ->
     w_attendance w' !! key = w_attendance w !! key) /\
  (forall fid,
     count_queries fid (w_trace w') = count_queries fid (w_trace w)) /\
  w_cache w' = w_cache w.

(** [w2] is [w1] up to the enrollment store: the face-encoding rows of
    the users and the rosters of the fichas may differ; the names of the
    users, the fichas that exist and all the rest are the same. *)
Definition same_but_enrollment (w1 w2 : World) : Prop :=
  w_settings w2 = w_settings w1 /\ w_sessions w2 = w_sessions w1 /\
  w_attendance w2 = w_attendance w1 /\ w_cache w2 = w_cache w1 /\
  w_tick w2 = w_tick w1 /\ w_trace w2 = w_trace w1 /\
  (forall id,
     full_name <$> w_users w2 !! id = full_name <$> w_users w1 !! id) /\
  (forall fid, is_Some (w_fichas w2 !! fid) <-> is_Some (w_fichas w1 !! fid)).

(** A computation does the same in two worlds that differ in the
    enrollment store only. *)
Definition enrollment_blind {A} (m : M A) : Prop :=
  forall w1 w2, same_but_enrollment w1 w2 ->
    (m w2).1 = (m w1).1 /\ same_but_enrollment (m w1).2 (m w2).2.

End Requests.

(** ** A classroom used for the concrete checks

    Floats are played by integers (a threshold of 6 stands for 0.6), the
    distance of two encodings is the distance of their first components,
    an image is the list of the encodings detected in it. *)
Module Scenario.

Definition lib : FaceRecognitionLib :=
  {| float := Z;
     float_le := Z.leb;
     face_distance1 := fun a b => Z.abs (hd 0 a - hd 0 b);
     image := list (list Z);
     detect := fun img _ => Some img |}.

(** Day 20000 at 09:00:00 local time, five hours behind UTC. *)
Definition start_0900 : Z := (20000 * 86400 + 14 * 3600) * 1000000.

(** The clock reads 09:09:58, 09:09:59, 09:10:00, 09:10:01, ... *)
Definition env : Environment :=
  {| clock := fun n => start_0900 + 598 * 1000000 + Z.of_nat n * 1000000;
     utcoffset := fun _ => - (5 * 3600 * 1000000) |}.

#[local] Existing Instance lib.
#[local] Existing Instance env.

Definition face (x : Z) : encoding := replicate 128 x.

Definition enrolled (name : string) (active : bool) (arr : encoding) : User :=
  {| full_name := name;
     face_encoding_data :=
       Some {| is_active := active; encoding_array := Some arr |} |}.

(** An array of the wrong length. *)
Definition short_array : encoding := replicate 64 50.

Definition caro : User := enrolled "Caro Paz" true short_array.

Definition users : gmap Z User :=
  list_to_map
    [(7, enrolled "Ana Ruiz" true (face 10));
     (8, enrolled "Beto Gil" true (face 30));
     (9, caro);
     (10, enrolled "Dani Sol" false (face 90));
     (11, {| full_name := "Eli Mar"; face_encoding_data := None |});
     (12, enrolled "Eva Luz" true (face 16))].

Definition ficha_2557 : Ficha :=
  {| numero_ficha := "2557"; students := [7; 8; 9; 10; 11; 12] |}.

(** A ficha without any valid active encoding. *)
Definition ficha_2558 : Ficha :=
  {| numero_ficha := "2558"; students := [9; 10; 11] |}.

Definition fichas : gmap Z Ficha :=
  list_to_map [(1, ficha_2557); (2, ficha_2558)].

Definition morning (fid : Z) : AttendanceSession :=
  {| ficha := Some fid; date := 20000;
     start_time := 9 * 3600 * 1000000; permisividad := 10 |}.

Definition sessions : gmap Z AttendanceSession :=
  list_to_map [(100, morning 1); (200, morning 2)].

Definition not_yet : Attendance :=
  {| status := absent; check_in_time := None; verified_by_face := false |}.

(** Students 7 and 12 have their record for session 100, student 8 has
    none. *)
Definition attendance : gmap (Z * Z) Attendance :=
  list_to_map [((100, 7), not_yet); ((100, 12), not_yet)].

Definition classroom : World :=
  {| w_settings :=
       {| confidence_threshold := 6; face_detection_model := "hog" |};
     w_users := users; w_fichas := fichas; w_sessions := sessions;
     w_attendance := attendance; w_cache := ∅; w_tick := 0; w_trace := [] |}.

(** The image in which the given faces are detected. *)
Definition frame (faces : list encoding) : image := faces.

(** An image with five faces: Ana, a face between Ana and Eva, an unknown
    face, Beto and Eva. *)
Definition five_faces : image :=
  frame [face 8; face 13; face 60; face 31; face 17].

Definition ana_present : RecognizedStudent :=
  {| rs_id := 7; rs_full_name := "Ana Ruiz"; rs_status := present |}.

Definition eva_late : RecognizedStudent :=
  {| rs_id := 12; rs_full_name := "Eva Luz"; rs_status := late |}.

(** The known set of ficha 2557. *)
Definition known_encodings : list encoding := [face 10; face 30; face 16].
Definition known_student_ids : list Z := [7; 8; 12].

(** The enrollment libraries: an image file shows the faces listed in it,
    and cannot be read when one of them is empty; numpy accepts arrays of
    one length; 5 stands for 0.5. *)
Definition readable (img : list (list Z)) : option (list (list Z)) :=
  if bool_decide ([] ∈ img) then None else Some img.

Definition same_length (known : list (list Z)) (new : list Z) : bool :=
  forallb (fun k => (length k =? length new)%nat) known.

Definition enrollment : EnrollmentLib :=
  @Build_EnrollmentLib lib readable same_length 5.

Definition media : MediaStore :=
  {| MEDIA_ROOT := "/srv/media";
     path_exists := fun p =>
       bool_decide (p ∈ ["/srv/media/excuses/ana.pdf"%string;
                         "/etc/hostname"%string]);
     can_open := fun _ => true |}.

#[local] Existing Instance enrollment.
#[local] Existing Instance media.

(** The classroom without the row whose array has the wrong length. *)
Definition registry : World := with_users (delete 9 users) classroom.

(** A registration for ficha 2557 with a picture of one face. *)
Definition applicant (x : Z) : RegisterAttrs :=
  {| password := "s3creta"; password2 := "s3creta";
     ficha_numero := "2557"; face_image := frame [face x] |}.

Definition ana_excuse : Excuse :=
  {| ex_student := 7; ex_session := 100; ex_status := "pending";
     ex_document := "excuses/ana.pdf" |}.

(** An excuse of Eva whose document is named by an absolute path. *)
Definition eva_excuse : Excuse :=
  {| ex_student := 12; ex_session := 100; ex_status := "pending";
     ex_document := "/etc/hostname" |}.

(** User 50 instructs ficha 2557, user 51 ficha 2558. *)
Definition campus : Campus :=
  {| c_world := classroom;
     c_instructors := list_to_map [(1, {[50]}); (2, {[51]})];
     c_excuses := [ana_excuse] |}.

Definition campus_with_eva_excuse : Campus :=
  {| c_world := classroom;
     c_instructors := list_to_map [(1, {[50]}); (2, {[51]})];
     c_excuses := [ana_excuse; eva_excuse] |}.

Definition instructor_50 : RequestUser :=
  {| ru_id := 50; ru_role := "instructor" |}.
Definition instructor_51 : RequestUser :=
  {| ru_id := 51; ru_role := "instructor" |}.
Definition student_ana : RequestUser := {| ru_id := 7; ru_role := "student" |}.
Definition student_eva : RequestUser :=
  {| ru_id := 12; ru_role := "student" |}.

(** A session of ficha 2557 at 14:00 of the same day, five minutes of
    tolerance. *)
Definition afternoon : SessionData :=
  {| sd_ficha := 1; sd_date := 20000;
     sd_start_time := 14 * 3600 * 1000000; sd_permisividad := 5 |}.


(** A session of ficha 2558 at the same hour. *)
Definition afternoon_2558 : SessionData :=
  {| sd_ficha := 2; sd_date := 20000;
     sd_start_time := 14 * 3600 * 1000000; sd_permisividad := 5 |}.

(** Instructor 50 creates session 300 for ficha 2557, instructor 51
    session 400 for ficha 2558. *)
Definition campus_300 : Campus :=
  (SessionViewSet_perform_create instructor_50 300 afternoon campus).2.

Definition campus_400 : Campus :=
  (SessionViewSet_perform_create instructor_51 400 afternoon_2558 campus).2.

(** The classroom after a first request for session 100: the known set
    of ficha 2557 is cached. *)
Definition warm_classroom : World :=
  (recognize_faces_in_stream five_faces 100 classroom).2.

(** The classroom after a request in which only an unknown face was
    seen: the known set of ficha 2557 is cached and nobody is checked
    in. *)
Definition idle_classroom : World :=
  (recognize_faces_in_stream (frame [face 60]) 100 classroom).2.

(** The session of ficha 2557 moved to 9999-12-31 at 23:55, ten minutes
    of tolerance: the end of its grace period is past the last
    datetime. *)
Definition last_evening : AttendanceSession :=
  {| ficha := Some 1; date := 2932896;
     start_time := (23 * 3600 + 55 * 60) * 1000000; permisividad := 10 |}.

Definition last_day_classroom : World :=
  with_sessions (<[100 := last_evening]> sessions) classroom.

(** The classroom after the faces of ficha 2557 were deactivated (the
    [is_active] box of the admin site) while their known set is cached:
    the ficha has no valid active encoding left. *)
Definition deactivated_classroom : World :=
  set_face_active 7 false
    (set_face_active 8 false (set_face_active 12 false idle_classroom)).

(** More than an hour after Ana's face was deactivated in the idle
    classroom: the cached entry of ficha 2557 is expired, and it is not
    what a reload would give. *)
Definition stale_classroom : World :=
  advance 3600 (set_face_active 7 false idle_classroom).

End Scenario.

(** * Properties *)

Section Properties.
Context `{Lib : FaceRecognitionLib} `{Env : Environment}.

(** ** Framing *)

Lemma check_ins_only_refl a : check_ins_only a a.
Proof. intros key. destruct (a !! key); auto. Qed.

Lemma check_ins_only_trans a1 a2 a3 :
  check_ins_only a1 a2 -> check_ins_only a2 a3 -> check_ins_only a1 a3.
Proof.
  intros H12 H23 key. specialize (H12 key). specialize (H23 key).
  destruct (a1 !! key) as [r1|], (a2 !! key) as [r2|], (a3 !! key) as [r3|];
    try done.
  destruct H12 as [-> | (Hab & Hst & Hv & Hc)]; [done |].
  destruct H23 as [-> | (Hab' & _)]; [by right |].
  destruct Hst; congruence.
Qed.

Lemma active_pairs_users w w' f :
  w_users w' = w_users w -> active_pairs w' f = active_pairs w f.
Proof. intros H. unfold active_pairs, student_rows. by rewrite H. Qed.

#[global] Instance evolves_preorder : PreOrder evolves.
Proof.
  split.
  - intros w. split; auto using check_ins_only_refl.
  - intros w1 w2 w3 [] []. split; try congruence.
    + eauto using check_ins_only_trans.
    + lia.
    + by etrans.
    + intros fid e He.
      destruct (ev_cache1 _ _ He) as [Hold | (f & Hf & Hne & He1 & He2)].
      * auto.
      * right. exists f. rewrite ev_fichas0 in Hf.
        rewrite (active_pairs_users w1 w2) in He1, He2 by done. auto.
Qed.

Lemma preserves_bind {A B} (R : World -> World -> Prop) `{!PreOrder R}
    (m : M A) (k : A -> M B) :
  preserves R m -> (forall a, preserves R (k a)) -> preserves R (m ≫= k).
Proof.
  intros Hm Hk w. specialize (Hm w). unfold mbind, M_bind.
  destruct (m w) as [[a|r|e] w1]; simpl in *; [| done | done].
  etrans; [exact Hm | apply Hk].
Qed.

Lemma preserves_ret {A} (R : World -> World -> Prop) `{!PreOrder R} (a : A) :
  preserves R (mret a).
Proof. intros w. reflexivity. Qed.

Lemma evolves_emit e w : evolves w (emit e w).
Proof.
  split; simpl; auto using check_ins_only_refl.
  by apply prefix_app_r.
Qed.

Lemma evolves_tick w : evolves w (tick w).
Proof. split; simpl; auto using check_ins_only_refl. Qed.

(** ** The known encodings: collecting loop and cache *)

Lemma same_state_refl w : same_state w w.
Proof. by repeat split. Qed.

Lemma collect_encodings_spec sts encs ids w :
  exists w',
    collect_encodings sts encs ids w =
      (Val (encs ++ (known_pairs sts).*2, ids ++ (known_pairs sts).*1), w') /\
    same_state w w' /\
    w_trace w' = w_trace w ++ wrong_length_warnings sts.
Proof.
  revert encs ids w.
  induction sts as [|[sid u] sts IH]; intros encs ids w.
  - exists w. simpl. rewrite !app_nil_r. auto using same_state_refl.
  - simpl. unfold valid_encoding.
    destruct (face_encoding_data u) as [fe|]; simpl; [| apply IH].
    destruct (is_active fe); simpl; [| apply IH].
    destruct (encoding_array fe) as [arr|]; simpl; [| apply IH].
    case_bool_decide; simpl.
    + destruct (IH (encs ++ [arr]) (ids ++ [sid]) w) as (w' & -> & ? & ?).
      exists w'. by rewrite <- !app_assoc.
    + mrun. destruct (IH encs ids (emit (LogWrongLength sid (length arr)) w))
        as (w' & -> & Hs & Ht).
      exists w'. split; [done |]. split; [exact Hs |].
      rewrite Ht. simpl. by rewrite <- app_assoc.
Qed.

Lemma load_known_encodings_hit fid f w data :
  cache_lookup (w_cache w) (clock (w_tick w)) fid = Some data ->
  load_known_encodings fid f w = (Val data, emit (LogCacheHit fid) (tick w)).
Proof.
  intros Hhit. unfold load_known_encodings. mrun. simpl. by rewrite Hhit.
Qed.

Lemma load_known_encodings_miss fid f w :
  cache_lookup (w_cache w) (clock (w_tick w)) fid = None ->
  exists w1,
    same_state (tick w) w1 /\
    w_trace w1 = w_trace w ++
      [CallStudentsQuery fid; LogLoadingFromDb fid (length (student_rows w f))]
      ++ wrong_length_warnings (student_rows w f) /\
    load_known_encodings fid f w =
      match (active_pairs w f).*2 with
      | [] =>
          (Return (ErrorResponse NoActiveFaces),
           emit (LogNoActiveEncodings fid) w1)
      | _ :: _ =>
          let known := ((active_pairs w f).*2, (active_pairs w f).*1) in
          (Val known,
           emit (LogCached fid (length known.1))
             (with_cache
                (<[fid := fresh_entry known (clock (S (w_tick w)))]>
                   (w_cache w))
                (tick w1)))
      end.
Proof.
  intros Hmiss. unfold load_known_encodings. mrun. simpl. rewrite Hmiss.
  fold (student_rows w f).
  set (w0 := emit (LogLoadingFromDb fid (length (student_rows w f)))
               (emit (CallStudentsQuery fid) (tick w))).
  destruct (collect_encodings_spec (student_rows w f) [] [] w0)
    as (w1 & Hrun & Hs & Ht).
  exists w1. split; [exact Hs |]. split.
  { rewrite Ht. subst w0. simpl. by rewrite <- !app_assoc. }
  change (omap _ (students f)) with (student_rows w f). fold w0.
  rewrite Hrun. simpl. fold (active_pairs w f).
  destruct ((active_pairs w f).*2) as [|e es] eqn:He; [reflexivity |].
  destruct Hs as (_ & _ & _ & _ & _ & Hc & Htk). simpl in Htk.
  rewrite Hc, Htk. reflexivity.
Qed.

Lemma load_known_encodings_attendance fid f w :
  w_attendance (load_known_encodings fid f w).2 = w_attendance w /\
  w_settings (load_known_encodings fid f w).2 = w_settings w.
Proof.
  destruct (cache_lookup (w_cache w) (clock (w_tick w)) fid) as [data|]
    eqn:Hc.
  - by rewrite (load_known_encodings_hit _ _ _ _ Hc).
  - destruct (load_known_encodings_miss fid f w Hc)
      as (w1 & (Hset & _ & _ & _ & Hatt & _) & _ & ->).
    by destruct ((active_pairs w f).*2).
Qed.

Lemma evolves_same_state w w' :
  same_state w w' -> w_trace w `prefix_of` w_trace w' -> evolves w w'.
Proof.
  intros (? & ? & ? & ? & Ha & Hc & Ht) ?. split; try done.
  - rewrite Ha. apply check_ins_only_refl.
  - lia.
  - intros fid e. rewrite Hc. auto.
Qed.

Lemma evolves_load_known_encodings fid f w :
  w_fichas w !! fid = Some f ->
  evolves w (load_known_encodings fid f w).2.
Proof.
  intros Hf.
  destruct (cache_lookup (w_cache w) (clock (w_tick w)) fid) as [data|] eqn:Hc.
  - rewrite (load_known_encodings_hit _ _ _ _ Hc). simpl.
    etrans; [apply evolves_tick | apply evolves_emit].
  - destruct (load_known_encodings_miss _ f _ Hc) as (w1 & Hs & Ht & ->).
    assert (evolves w w1) as Hw1.
    { etrans; [apply evolves_tick |]. apply evolves_same_state; [done |].
      rewrite Ht. simpl. by apply prefix_app_r. }
    destruct ((active_pairs w f).*2) as [|e es] eqn:He; simpl.
    + etrans; [exact Hw1 | apply evolves_emit].
    + etrans; [exact Hw1 |]. etrans; [| apply evolves_emit].
      split; simpl; auto using check_ins_only_refl.
      intros fid' e'. destruct Hs as (_ & Hu & Hfi & _ & _ & Hca & _).
      simpl in *. destruct (decide (fid = fid')) as [<- | Hne].
      * rewrite lookup_insert_eq. intros [= <-]. right.
        exists f. rewrite Hfi. simpl.
        rewrite (active_pairs_users w w1) by done. rewrite He. done.
      * rewrite lookup_insert_ne by done. rewrite Hca. auto.
Qed.

(** ** The attendance update, branch by branch *)

Lemma apply_absent_cases session_id sid rec w s a :
  w_sessions w !! session_id = Some s ->
  w_attendance w !! (session_id, sid) = Some a ->
  status a = absent ->
  apply_face_verification session_id sid rec w =
    if grace_period_representable s then
      (match w_users w !! sid with
       | Some u =>
           Val (rec ++ [{| rs_id := sid; rs_full_name := full_name u;
                           rs_status := new_status s (clock (w_tick w)) |}])
       | None => Raise OtherException
       end,
       world_after_check_in session_id sid s w)
    else (Raise OtherException, tick (emit (LogRecordFound sid absent) w)).
Proof.
  intros Hs Ha Hst.
  unfold apply_face_verification. mrun. rewrite Ha, Hst.
  simpl. rewrite Hs. simpl.
  destruct (grace_period_representable s); simpl; [|reflexivity].
  unfold world_after_check_in, checked_in.
  destruct (w_users w !! sid); reflexivity.
Qed.

Lemma apply_absent session_id sid rec w s a :
  w_sessions w !! session_id = Some s ->
  w_attendance w !! (session_id, sid) = Some a ->
  status a = absent ->
  grace_period_representable s = true ->
  apply_face_verification session_id sid rec w =
    (match w_users w !! sid with
     | Some u =>
         Val (rec ++ [{| rs_id := sid; rs_full_name := full_name u;
                         rs_status := new_status s (clock (w_tick w)) |}])
     | None => Raise OtherException
     end,
     world_after_check_in session_id sid s w).
Proof.
  intros Hs Ha Hst Hrep.
  by rewrite (apply_absent_cases _ _ _ _ _ _ Hs Ha Hst), Hrep.
Qed.

Lemma apply_absent_overflow session_id sid rec w s a :
  w_sessions w !! session_id = Some s ->
  w_attendance w !! (session_id, sid) = Some a ->
  status a = absent ->
  grace_period_representable s = false ->
  apply_face_verification session_id sid rec w =
    (Raise OtherException, tick (emit (LogRecordFound sid absent) w)).
Proof.
  intros Hs Ha Hst Hrep.
  by rewrite (apply_absent_cases _ _ _ _ _ _ Hs Ha Hst), Hrep.
Qed.

Lemma apply_absent_no_session session_id sid rec w a :
  w_sessions w !! session_id = None ->
  w_attendance w !! (session_id, sid) = Some a ->
  status a = absent ->
  apply_face_verification session_id sid rec w =
    (Raise OtherException, emit (LogRecordFound sid absent) w).
Proof.
  intros Hs Ha Hst.
  unfold apply_face_verification. mrun. rewrite Ha, Hst.
  simpl. rewrite Hs. reflexivity.
Qed.

Lemma apply_recorded session_id sid rec w a :
  w_attendance w !! (session_id, sid) = Some a ->
  status a <> absent ->
  apply_face_verification session_id sid rec w =
    (Val rec,
     emit (LogAlreadyRecorded sid (status a))
       (emit (LogRecordFound sid (status a)) w)).
Proof.
  intros Ha Hst.
  unfold apply_face_verification. mrun. rewrite Ha.
  destruct (decide (status a = absent)); [contradiction | reflexivity].
Qed.

Lemma apply_missing session_id sid rec w :
  w_attendance w !! (session_id, sid) = None ->
  apply_face_verification session_id sid rec w =
    (Val rec, emit (LogRecordMissing sid) w).
Proof.
  intros Ha. unfold apply_face_verification. mrun. rewrite Ha. reflexivity.
Qed.

Lemma new_status_cases s now :
  new_status s now = present \/ new_status s now = late.
Proof. unfold new_status. case_bool_decide; auto. Qed.

Lemma check_ins_only_insert a key r s now :
  a !! key = Some r -> status r = absent ->
  check_ins_only a (<[key := checked_in s now]> a).
Proof.
  intros Hr Hst key'. destruct (decide (key = key')) as [<- | Hne].
  - rewrite lookup_insert_eq, Hr. right. simpl.
    auto using new_status_cases.
  - rewrite lookup_insert_ne by done. destruct (a !! key'); auto.
Qed.

Lemma evolves_check_in session_id sid s w a :
  w_attendance w !! (session_id, sid) = Some a ->
  status a = absent ->
  evolves w (world_after_check_in session_id sid s w).
Proof.
  intros Ha Hst. split; simpl; auto.
  - eauto using check_ins_only_insert.
  - rewrite <- !app_assoc. by apply prefix_app_r.
Qed.

Lemma evolves_apply session_id sid rec :
  preserves evolves (apply_face_verification session_id sid rec).
Proof.
  intros w.
  destruct (w_attendance w !! (session_id, sid)) as [a|] eqn:Ha.
  - destruct (decide (status a = absent)) as [Hst | Hst].
    + destruct (w_sessions w !! session_id) as [s|] eqn:Hs.
      * rewrite (apply_absent_cases _ _ _ _ _ _ Hs Ha Hst).
        destruct (grace_period_representable s); simpl.
        -- eauto using evolves_check_in.
        -- etrans; [apply evolves_emit | apply evolves_tick].
      * rewrite (apply_absent_no_session _ _ _ _ _ Hs Ha Hst). simpl.
        apply evolves_emit.
    + rewrite (apply_recorded _ _ _ _ _ Ha Hst). simpl.
      etrans; apply evolves_emit.
  - rewrite (apply_missing _ _ _ _ Ha). apply evolves_emit.
Qed.

(** ** Matching one detected face *)

Lemma matched_indices_from_bound i ms :
  Forall (fun ix => (i <= ix < i + length ms)%nat) (matched_indices_from i ms).
Proof.
  revert i. induction ms as [|m ms IH]; intros i; simpl; [constructor |].
  assert (Forall (fun ix => (i <= ix < i + S (length ms))%nat)
                 (matched_indices_from (S i) ms)) as Htl.
  { eapply Forall_impl; [apply IH |]. simpl. lia. }
  destruct m; [constructor; [lia | done] | done].
Qed.

Lemma matched_ids_defined (known : list encoding) (ids : list Z) enc tol :
  length ids = length known ->
  is_Some (mapM (fun ix => ids !! ix)
                (matched_indices (compare_faces known enc tol))).
Proof.
  intros Hlen. apply mapM_is_Some.
  eapply Forall_impl; [apply matched_indices_from_bound |].
  intros ix [_ Hix]. simpl in *. apply lookup_lt_is_Some.
  unfold compare_faces in Hix. rewrite length_map in Hix. lia.
Qed.

(** The outcomes of lines 88-105. *)
Lemma match_face_cases i known ids enc tol w :
  let matched := matched_indices (compare_faces known enc tol) in
  match matched with
  | [] =>
      match known with
      | [] => match_face i known ids enc tol w = (Raise OtherException, w)
      | _ :: _ =>
          match_face i known ids enc tol w =
            (Val None, emit (LogNoMatch (S i)) w)
      end
  | [ix] =>
      match ids !! ix with
      | Some sid =>
          match_face i known ids enc tol w =
            (Val (Some sid), emit (LogUnique sid) w)
      | None => match_face i known ids enc tol w = (Raise OtherException, w)
      end
  | _ :: _ :: _ =>
      match mapM (fun ix => ids !! ix) matched with
      | Some amb =>
          match_face i known ids enc tol w =
            (Val None, emit (LogAmbiguous (S i) amb) w)
      | None => match_face i known ids enc tol w = (Raise OtherException, w)
      end
  end.
Proof.
  intros matched. unfold match_face. fold matched.
  destruct matched as [|ix [|ix2 ixs]].
  - by destruct known.
  - by destruct (ids !! ix).
  - by destruct (mapM _ _).
Qed.

(** The outcomes of one iteration of the loop (lines 85-138). *)
Lemma process_face_cases session_id known ids tol n i enc rec w :
  let matched := matched_indices (compare_faces known enc tol) in
  let w0 := emit (LogProcessing (S i) n) w in
  let run := process_face session_id known ids tol n i enc rec w in
  match matched with
  | [] =>
      match known with
      | [] => run = (Raise OtherException, w0)
      | _ :: _ => run = (Val rec, emit (LogNoMatch (S i)) w0)
      end
  | [ix] =>
      match ids !! ix with
      | Some sid =>
          if bool_decide (sid = 0) then run = (Val rec, emit (LogUnique sid) w0)
          else run = apply_face_verification session_id sid rec
                       (emit (LogUnique sid) w0)
      | None => run = (Raise OtherException, w0)
      end
  | _ :: _ :: _ =>
      match mapM (fun ix => ids !! ix) matched with
      | Some amb => run = (Val rec, emit (LogAmbiguous (S i) amb) w0)
      | None => run = (Raise OtherException, w0)
      end
  end.
Proof.
  intros matched w0 run. subst run. unfold process_face.
  pose proof (match_face_cases i known ids enc tol w0) as Hm.
  cbv zeta in Hm. fold matched in Hm.
  cbv [mbind M_bind log]. fold w0.
  destruct matched as [|ix [|ix2 ixs]].
  - destruct known; by rewrite Hm.
  - destruct (ids !! ix) as [sid|]; rewrite Hm; [| done].
    by case_bool_decide.
  - destruct (mapM _ _); by rewrite Hm.
Qed.

Lemma evolves_process_face session_id known ids tol n i enc rec :
  preserves evolves (process_face session_id known ids tol n i enc rec).
Proof.
  intros w.
  pose proof (process_face_cases session_id known ids tol n i enc rec w) as H.
  simpl in H.
  assert (evolves w (emit (LogProcessing (S i) n) w)) as H0
    by apply evolves_emit.
  destruct (matched_indices _) as [|ix [|ix2 ixs]].
  - destruct known; rewrite H; simpl; [done |].
    etrans; [exact H0 | apply evolves_emit].
  - destruct (ids !! ix) as [sid|]; [| by rewrite H].
    case_bool_decide; rewrite H.
    + etrans; [exact H0 | apply evolves_emit].
    + etrans; [exact H0 |]. etrans; [apply evolves_emit | apply evolves_apply].
  - destruct (mapM _ _); rewrite H; simpl; [| done].
    etrans; [exact H0 | apply evolves_emit].
Qed.

Lemma evolves_process_faces session_id known ids tol n encs : forall i rec,
  preserves evolves (process_faces session_id known ids tol n i encs rec).
Proof.
  induction encs as [|enc encs IH]; intros i rec; simpl.
  - by apply preserves_ret, _.
  - apply preserves_bind; [apply _ | apply evolves_process_face |].
    intros rec'. apply IH.
Qed.

(** ** The whole request *)

Lemma process_stream_cases img session_id settings known w :
  let w0 := emit CallDetect w in
  let run := process_stream img session_id settings known w in
  match detect img (face_detection_model settings) with
  | None => run = (Raise OtherException, w0)
  | Some [] =>
      run = (Return (ErrorResponse NoFaceDetected), emit (LogDetected 0) w0)
  | Some (enc :: encs) =>
      let n := length (enc :: encs) in
      run =
        match process_faces session_id known.1 known.2
                (confidence_threshold settings) n 0 (enc :: encs) []
                (emit (LogDetected n) w0) with
        | (Val rec, w') => (Return (RecognizedStudents rec), w')
        | (Return r, w') => (Return r, w')
        | (Raise e, w') => (Raise e, w')
        end
  end.
Proof.
  intros w0 run. subst run w0. unfold process_stream, detect_faces.
  cbv [mbind M_bind log raise return_ mret M_ret].
  destruct (detect img _) as [[|enc encs]|]; reflexivity.
Qed.

Lemma evolves_process_stream img session_id settings known :
  preserves evolves (process_stream img session_id settings known).
Proof.
  intros w.
  pose proof (process_stream_cases img session_id settings known w) as H.
  cbv zeta in H.
  assert (evolves w (emit CallDetect w)) as H0 by apply evolves_emit.
  destruct (detect img _) as [[|enc encs]|]; rewrite H; [| | done].
  - etrans; [exact H0 | apply evolves_emit].
  - change (length (enc :: encs)) with (S (length encs)).
    pose proof (evolves_process_faces session_id known.1 known.2
                  (confidence_threshold settings) (S (length encs))
                  (enc :: encs) 0 []
                  (emit (LogDetected (S (length encs))) (emit CallDetect w)))
      as Hp.
    destruct (process_faces _ _ _ _ _ _ _ _ _) as [[rec|r|e] w'];
      simpl in *; (etrans; [exact H0 |]); (etrans; [apply evolves_emit |]);
      exact Hp.
Qed.

Lemma recognize_body_cases img session_id w :
  let w0 := emit LogThreshold (emit (LogStart session_id) w) in
  recognize_body img session_id w =
    match ficha_of w session_id with
    | Some (fid, f) =>
        (known ← load_known_encodings fid f;
         process_stream img session_id (w_settings w) known) w0
    | None => (Raise FichaDoesNotExist, w0)
    end.
Proof.
  unfold recognize_body, Ficha_objects_get, ficha_of.
  cbv [mbind M_bind log raise return_ mret M_ret get_world option_bind].
  simpl.
  destruct (w_sessions w !! session_id) as [s|]; simpl; [| done].
  destruct (ficha s) as [fid|]; simpl; [| done].
  destruct (w_fichas w !! fid); reflexivity.
Qed.

Lemma ficha_of_Some w session_id fid f :
  ficha_of w session_id = Some (fid, f) -> w_fichas w !! fid = Some f.
Proof.
  unfold ficha_of. intros H.
  destruct (w_sessions w !! session_id ≫= ficha) as [fid'|]; simpl in H;
    [| done].
  destruct (w_fichas w !! fid') as [f'|] eqn:Hf; simpl in H; [| done].
  by simplify_eq.
Qed.

Lemma evolves_recognize_body img session_id :
  preserves evolves (recognize_body img session_id).
Proof.
  intros w. rewrite recognize_body_cases.
  assert (evolves w (emit LogThreshold (emit (LogStart session_id) w))) as H0.
  { etrans; apply evolves_emit. }
  destruct (ficha_of w session_id) as [[fid f]|] eqn:Hf; [| exact H0].
  apply ficha_of_Some in Hf.
  set (w0 := emit LogThreshold (emit (LogStart session_id) w)) in *.
  pose proof (evolves_load_known_encodings fid f w0 Hf) as Hl.
  unfold mbind, M_bind.
  destruct (load_known_encodings fid f w0) as [[known|r|e] w1]; simpl in *;
    try (etrans; [exact H0 | exact Hl]).
  etrans; [exact H0 |]. etrans; [exact Hl |]. apply evolves_process_stream.
Qed.

Lemma evolves_recognize img session_id w :
  evolves w (recognize_faces_in_stream img session_id w).2.
Proof.
  unfold recognize_faces_in_stream.
  pose proof (evolves_recognize_body img session_id w) as H.
  destruct (recognize_body img session_id w) as [[r|r|[]] w']; simpl in *;
    try exact H; (etrans; [exact H | apply evolves_emit]).
Qed.

(** ** Idempotency of the attendance update *)

Lemma advance_spec d w :
  w_settings (advance d w) = w_settings w /\
  w_users (advance d w) = w_users w /\
  w_sessions (advance d w) = w_sessions w /\
  w_attendance (advance d w) = w_attendance w /\
  w_cache (advance d w) = w_cache w /\
  w_tick (advance d w) = (w_tick w + d)%nat /\
  w_trace (advance d w) = w_trace w.
Proof.
  unfold advance. induction d as [|d IH]; simpl.
  - repeat split; lia.
  - destruct IH as (? & ? & ? & ? & ? & ? & ?). repeat split; try done. lia.
Qed.

Lemma count_saves_emit session_id sid e tr :
  count_saves session_id sid (tr ++ [e]) =
    (count_saves session_id sid tr +
     if bool_decide (e = CallSave session_id sid) then 1 else 0)%nat.
Proof.
  unfold count_saves. rewrite filter_app, length_app. f_equal.
  rewrite filter_cons, filter_nil. case_decide; case_bool_decide; done.
Qed.

Lemma apply_sequence_recorded session_id sid ds : forall w r,
  w_attendance w !! (session_id, sid) = Some r ->
  status r <> absent ->
  length (apply_sequence session_id sid ds w) = length ds /\
  Forall (fun rw =>
            rw.1 = Val [] /\
            w_attendance rw.2 = w_attendance w /\
            count_saves session_id sid (w_trace rw.2) =
              count_saves session_id sid (w_trace w) /\
            last (w_trace rw.2) = Some (LogAlreadyRecorded sid (status r)))
         (apply_sequence session_id sid ds w).
Proof.
  induction ds as [|d ds IH]; intros w r Hr Hst; simpl; [by split |].
  destruct (advance_spec d w) as (_ & _ & _ & Ha & _ & _ & Ht).
  assert (w_attendance (advance d w) !! (session_id, sid) = Some r) as Hr'
    by by rewrite Ha.
  rewrite (apply_recorded _ _ _ _ _ Hr' Hst). simpl.
  set (w' := emit _ (emit _ (advance d w))).
  assert (w_attendance w' = w_attendance w) as Ha' by done.
  assert (count_saves session_id sid (w_trace w') =
          count_saves session_id sid (w_trace w)) as Hc.
  { subst w'. simpl. rewrite !count_saves_emit, Ht.
    rewrite !bool_decide_eq_false_2 by done. lia. }
  destruct (IH w' r) as [Hlen Hall]; [by rewrite Ha' | done |].
  split; [by rewrite Hlen |]. constructor.
  - simpl. split; [done |]. split; [done |]. split; [done |].
    subst w'. simpl. by rewrite last_snoc.
  - eapply Forall_impl; [exact Hall |].
    intros [res w2] (? & Hx & Hy & ?). cbn [fst snd] in *.
    rewrite <- Ha', <- Hc. done.
Qed.

(** C1.  A sequence of applications of the face verification to one
    attendance record that is absent at the start, in a session whose
    start plus tolerance is a representable datetime (any time may pass
    between two applications, so in particular the timestamps may be
    non-decreasing): the first application writes the record, and it is
    the only one that does; every later application finds the status it
    wrote, returns without mutation, and the record at the end is the one
    the first application wrote (status, check_in_time and
    verified_by_face). *)
Theorem face_verification_idempotent session_id sid s a w d ds :
  w_sessions w !! session_id = Some s ->
  w_attendance w !! (session_id, sid) = Some a ->
  status a = absent ->
  grace_period_representable s = true ->
  let now := clock (w_tick w + d) in
  exists r1 w1 rest,
    apply_sequence session_id sid (d :: ds) w = (r1, w1) :: rest /\
    w_attendance w1 =
      <[(session_id, sid) := checked_in s now]> (w_attendance w) /\
    status (checked_in s now) <> absent /\
    count_saves session_id sid (w_trace w1) =
      S (count_saves session_id sid (w_trace w)) /\
    length rest = length ds /\
    Forall (fun rw =>
              rw.1 = Val [] /\
              w_attendance rw.2 = w_attendance w1 /\
              count_saves session_id sid (w_trace rw.2) =
                count_saves session_id sid (w_trace w1) /\
              last (w_trace rw.2) =
                Some (LogAlreadyRecorded sid (new_status s now))) rest /\
    w_attendance (default w1 (last rest.*2)) !! (session_id, sid) =
      Some (checked_in s now).
Proof.
  intros Hs Ha Hst Hrep now.
  destruct (advance_spec d w) as (_ & Hu & Hse & Hat & _ & Htk & Htr).
  assert (w_sessions (advance d w) !! session_id = Some s) as Hs'
    by by rewrite Hse.
  assert (w_attendance (advance d w) !! (session_id, sid) = Some a) as Ha'
    by by rewrite Hat.
  pose proof (apply_absent session_id sid [] _ _ _ Hs' Ha' Hst Hrep) as Hrun.
  set (w1 := world_after_check_in session_id sid s (advance d w)) in *.
  assert (w_attendance w1 =
          <[(session_id, sid) := checked_in s now]> (w_attendance w)) as Hw1.
  { subst w1 now. unfold world_after_check_in. simpl. by rewrite Htk, Hat. }
  assert (status (checked_in s now) <> absent) as Hne.
  { simpl. destruct (new_status_cases s now) as [-> | ->]; done. }
  destruct (apply_sequence_recorded session_id sid ds w1 (checked_in s now))
    as [Hlen Hall]; [by rewrite Hw1, lookup_insert_eq | exact Hne |].
  eexists _, w1, (apply_sequence session_id sid ds w1).
  split; [simpl; by rewrite Hrun |].
  split; [exact Hw1 |]. split; [exact Hne |]. split.
  { subst w1. unfold world_after_check_in. simpl.
    rewrite !count_saves_emit, Htr.
    repeat case_bool_decide; try done; lia. }
  split; [exact Hlen |]. split; [exact Hall |]. clearbody w1.
  destruct (last (apply_sequence session_id sid ds w1).*2) as [wl|] eqn:Hl;
    simpl.
  - apply last_Some_elem_of, list_elem_of_fmap in Hl as ([res w'] & -> & Hin).
    rewrite Forall_forall in Hall. destruct (Hall _ Hin) as (_ & Heq & _).
    cbn [fst snd] in *. by rewrite Heq, Hw1, lookup_insert_eq.
  - by rewrite Hw1, lookup_insert_eq.
Qed.

(** ** The grace period *)





(** ** Ambiguous matches *)

(** C3.  A detection within the threshold of two or more known encodings
    is only logged: no attendance record is looked up or saved for any
    candidate and the attendance table is unchanged.  The iteration adds
    the log line 85 and, the ids of the candidates read from the list
    parallel to the encodings, the warning of line 101, and yields the
    list of recognized students it was given. *)
Theorem ambiguous_match_mutates_nothing
    session_id known ids tol n i enc rec w :
  (2 <= length (matched_indices (compare_faces known enc tol)))%nat ->
  let matched := matched_indices (compare_faces known enc tol) in
  let w0 := emit (LogProcessing (S i) n) w in
  let run := process_face session_id known ids tol n i enc rec w in
  w_attendance run.2 = w_attendance w /\
  (forall sid,
     count_saves session_id sid (w_trace run.2) =
     count_saves session_id sid (w_trace w)) /\
  match mapM (fun ix => ids !! ix) matched with
  | Some ambiguous_ids =>
      run = (Val rec, emit (LogAmbiguous (S i) ambiguous_ids) w0)
  | None => run = (Raise OtherException, w0)        (* IndexError *)
  end /\
  (length ids = length known ->
   exists ambiguous_ids,
     mapM (fun ix => ids !! ix) matched = Some ambiguous_ids /\
     length ambiguous_ids = length matched).
Proof.
  intros Hamb matched w0 run.
  pose proof (process_face_cases session_id known ids tol n i enc rec w) as H.
  cbv zeta in H. fold matched w0 run in H. fold matched in Hamb.
  assert (match mapM (fun ix => ids !! ix) matched with
          | Some ambiguous_ids =>
              run = (Val rec, emit (LogAmbiguous (S i) ambiguous_ids) w0)
          | None => run = (Raise OtherException, w0)
          end) as Hrun.
  { destruct matched as [|ix [|ix2 ixs]]; simpl in Hamb; try lia. exact H. }
  clear H. split; [| split; [| split; [exact Hrun |]]].
  - destruct (mapM _ matched); by rewrite Hrun.
  - intros sid.
    destruct (mapM _ matched); rewrite Hrun; simpl;
      rewrite !count_saves_emit; rewrite !bool_decide_eq_false_2 by done; lia.
  - intros Hlen.
    destruct (matched_ids_defined known ids enc tol Hlen) as [amb Hids].
    exists amb. split; [exact Hids |]. symmetry. by eapply length_mapM.
Qed.

(** ** The transition *)


(** ** What the response lists *)

Lemma updates_of_snoc tr e :
  updates_of (tr ++ [e]) =
    updates_of tr ++ match e with
                     | LogUpdated sid st => [(sid, st)]
                     | _ => []
                     end.
Proof.
  unfold updates_of. rewrite omap_app. f_equal. by destruct e.
Qed.

Lemma wrong_length_warnings_load sts :
  Forall (fun e => is_load_event e = true) (wrong_length_warnings sts).
Proof.
  unfold wrong_length_warnings. apply Forall_forall. intros e He.
  apply list_elem_of_omap in He as ([sid u] & _ & He). simpl in He.
  destruct (face_encoding_data u) as [fe|]; simpl in He; [| done].
  destruct (is_active fe); [| done].
  destruct (encoding_array fe) as [arr|]; simpl in He; [| done].
  case_bool_decide; [done |]. by simplify_eq.
Qed.

(** The trace of lines 46-72 consists of the events of these lines. *)
Lemma load_known_encodings_trace fid f w :
  exists evs,
    w_trace (load_known_encodings fid f w).2 = w_trace w ++ evs /\
    Forall (fun e => is_load_event e = true) evs.
Proof.
  destruct (cache_lookup (w_cache w) (clock (w_tick w)) fid) as [data|] eqn:Hc.
  - rewrite (load_known_encodings_hit _ _ _ _ Hc). simpl.
    exists [LogCacheHit fid]. split; [done |]. by repeat constructor.
  - destruct (load_known_encodings_miss _ f _ Hc) as (w1 & Hs & Ht & ->).
    pose proof (wrong_length_warnings_load (student_rows w f)) as Hw.
    destruct ((active_pairs w f).*2) as [|e es]; simpl; rewrite Ht;
      rewrite <- !app_assoc; eexists; (split; [reflexivity |]);
      apply Forall_app; (split; [by repeat constructor |]);
      apply Forall_app; (split; [exact Hw | by repeat constructor]).
Qed.

Lemma updates_of_load_events evs :
  Forall (fun e => is_load_event e = true) evs -> updates_of evs = [].
Proof.
  induction 1 as [|e evs He _ IH]; [done |].
  destruct e; try done; exact IH.
Qed.

Lemma announces_apply session_id sid rec :
  announces 1 rec (apply_face_verification session_id sid rec).
Proof.
  intros w rec' w'.
  destruct (w_attendance w !! (session_id, sid)) as [a|] eqn:Ha.
  - destruct (decide (status a = absent)) as [Hst | Hst].
    + destruct (w_sessions w !! session_id) as [s|] eqn:Hs.
      * rewrite (apply_absent_cases _ _ _ _ _ _ Hs Ha Hst).
        destruct (grace_period_representable s); [| done].
        destruct (w_users w !! sid) as [u|]; [| done]. intros [= <- <-].
        eexists [_]. split; [done |]. split; [simpl; lia |].
        unfold world_after_check_in. simpl.
        rewrite !updates_of_snoc, !app_nil_r. done.
      * by rewrite (apply_absent_no_session _ _ _ _ _ Hs Ha Hst).
    + rewrite (apply_recorded _ _ _ _ _ Ha Hst). intros [= <- <-].
      exists []. rewrite !app_nil_r. split; [done |]. split; [simpl; lia |].
      simpl. by rewrite !updates_of_snoc, !app_nil_r.
  - rewrite (apply_missing _ _ _ _ Ha). intros [= <- <-].
    exists []. rewrite !app_nil_r. split; [done |]. split; [simpl; lia |].
    simpl. by rewrite !updates_of_snoc, !app_nil_r.
Qed.

Lemma announces_process_face session_id known ids tol n i enc rec :
  announces 1 rec (process_face session_id known ids tol n i enc rec).
Proof.
  intros w rec' w'.
  pose proof (process_face_cases session_id known ids tol n i enc rec w) as H.
  cbv zeta in H.
  assert (forall e, (forall sid st, e <> LogUpdated sid st) ->
            (Val rec, emit e (emit (LogProcessing (S i) n) w)) =
              (Val rec', w') ->
            exists new, rec' = rec ++ new /\ (length new <= 1)%nat /\
              updates_of (w_trace w') =
                updates_of (w_trace w) ++ entries_of new)
    as Hquiet.
  { intros e He [= <- <-]. exists []. rewrite !app_nil_r.
    split; [done |]. split; [simpl; lia |]. simpl.
    rewrite !updates_of_snoc, !app_nil_r.
    destruct e as [| | | | | | | | | | | | | | | |sid0 st0| | | |];
      try by rewrite app_nil_r.
    by destruct (He sid0 st0). }
  destruct (matched_indices _) as [|ix [|ix2 ixs]].
  - destruct known; rewrite H; [done |]. by apply Hquiet.
  - destruct (ids !! ix) as [sid|]; [| by rewrite H].
    case_bool_decide; rewrite H; [by apply Hquiet |].
    intros Hrun. apply announces_apply in Hrun as (new & -> & Hlen & Hup).
    exists new. split; [done |]. split; [done |].
    rewrite Hup. simpl. by rewrite !updates_of_snoc, !app_nil_r.
  - destruct (mapM _ _); rewrite H; [| done]. by apply Hquiet.
Qed.

Lemma announces_process_faces session_id known ids tol n encs : forall i rec,
  announces (length encs) rec
    (process_faces session_id known ids tol n i encs rec).
Proof.
  induction encs as [|enc encs IH]; intros i rec w rec' w'; simpl.
  - intros [= <- <-]. exists []. by rewrite !app_nil_r.
  - unfold mbind, M_bind.
    destruct (process_face _ _ _ _ _ _ _ _ _) as [[rec1|r|e] w1] eqn:H1;
      [| done | done].
    apply announces_process_face in H1 as (new1 & -> & Hl1 & Hu1).
    intros H2. apply IH in H2 as (new2 & -> & Hl2 & Hu2).
    exists (new1 ++ new2). rewrite <- app_assoc. split; [done |].
    split; [rewrite length_app; lia |].
    rewrite Hu2, Hu1. unfold entries_of. by rewrite fmap_app, <- app_assoc.
Qed.

(** The loop over the faces has no [return]. *)
Lemma apply_no_return session_id sid rec w r :
  (apply_face_verification session_id sid rec w).1 <> Return r.
Proof.
  destruct (w_attendance w !! (session_id, sid)) as [a|] eqn:Ha.
  - destruct (decide (status a = absent)) as [Hst | Hst].
    + destruct (w_sessions w !! session_id) as [s|] eqn:Hs.
      * rewrite (apply_absent_cases _ _ _ _ _ _ Hs Ha Hst).
        destruct (grace_period_representable s); [| done].
        by destruct (w_users w !! sid).
      * by rewrite (apply_absent_no_session _ _ _ _ _ Hs Ha Hst).
    + by rewrite (apply_recorded _ _ _ _ _ Ha Hst).
  - by rewrite (apply_missing _ _ _ _ Ha).
Qed.

Lemma process_face_no_return session_id known ids tol n i enc rec w r :
  (process_face session_id known ids tol n i enc rec w).1 <> Return r.
Proof.
  pose proof (process_face_cases session_id known ids tol n i enc rec w) as H.
  cbv zeta in H.
  destruct (matched_indices _) as [|ix [|ix2 ixs]].
  - destruct known; by rewrite H.
  - destruct (ids !! ix) as [sid|]; [| by rewrite H].
    case_bool_decide; rewrite H; [done | apply apply_no_return].
  - destruct (mapM _ _); by rewrite H.
Qed.

Lemma process_faces_no_return session_id known ids tol n encs :
  forall i rec w r,
  (process_faces session_id known ids tol n i encs rec w).1 <> Return r.
Proof.
  induction encs as [|enc encs IH]; intros i rec w r; simpl; [done |].
  unfold mbind, M_bind.
  pose proof (process_face_no_return session_id known ids tol n i enc rec w)
    as Hpf.
  destruct (process_face _ _ _ _ _ _ _ _ _) as [[rec1|r1|e] w1];
    [apply IH | by destruct (Hpf r1) | done].
Qed.

Lemma load_known_encodings_result fid f w :
  match (load_known_encodings fid f w).1 with
  | Val known => True
  | Return r => r = ErrorResponse NoActiveFaces
  | Raise _ => False
  end.
Proof.
  destruct (cache_lookup (w_cache w) (clock (w_tick w)) fid) as [data|] eqn:Hc.
  - by rewrite (load_known_encodings_hit _ _ _ _ Hc).
  - destruct (load_known_encodings_miss _ f _ Hc) as (w1 & _ & _ & ->).
    by destruct ((active_pairs w f).*2).
Qed.

Lemma recognize_response img session_id w r w' :
  recognize_faces_in_stream img session_id w = (RecognizedStudents r, w') ->
  recognize_body img session_id w = (Val (RecognizedStudents r), w') \/
  recognize_body img session_id w = (Return (RecognizedStudents r), w').
Proof.
  unfold recognize_faces_in_stream.
  destruct (recognize_body img session_id w) as [[r0|r0|[]] w0];
    intros [= -> ->]; auto.
Qed.

(** The entries of the response are, in order, the updates the request
    announced in the log (line 126), at most one per detected face. *)
Lemma response_updates_logged img session_id w l w' :
  recognize_faces_in_stream img session_id w = (RecognizedStudents l, w') ->
  updates_of (w_trace w') = updates_of (w_trace w) ++ entries_of l /\
  exists stream_encodings,
    detect img (face_detection_model (w_settings w)) = Some stream_encodings /\
    stream_encodings <> [] /\
    (length l <= length stream_encodings)%nat.
Proof.
  intros Hrun. apply recognize_response in Hrun.
  rewrite recognize_body_cases in Hrun.
  destruct (ficha_of w session_id) as [[fid f]|]; [| by destruct Hrun].
  set (w0 := emit LogThreshold (emit (LogStart session_id) w)) in *.
  assert (updates_of (w_trace w0) = updates_of (w_trace w)) as Hu0.
  { subst w0. simpl. by rewrite !updates_of_snoc, !app_nil_r. }
  unfold mbind, M_bind in Hrun.
  destruct (load_known_encodings_trace fid f w0) as (evs & Ht1 & Hevs).
  pose proof (load_known_encodings_result fid f w0) as Hres.
  destruct (load_known_encodings fid f w0) as [[known|r|e] w1];
    cbn [fst snd] in *; [| by destruct Hrun as [[=]|[=]]; subst | done].
  assert (updates_of (w_trace w1) = updates_of (w_trace w)) as Hu1.
  { rewrite Ht1. unfold updates_of at 1. rewrite omap_app.
    fold (updates_of (w_trace w0)). fold (updates_of evs).
    by rewrite (updates_of_load_events _ Hevs), app_nil_r. }
  pose proof (process_stream_cases img session_id (w_settings w) known w1)
    as Hps. cbv zeta in Hps.
  destruct (detect img _) as [[|enc encs]|]; rewrite Hps in Hrun;
    [by destruct Hrun | | by destruct Hrun].
  set (w2 := emit (LogDetected _) (emit CallDetect w1)) in *.
  assert (updates_of (w_trace w2) = updates_of (w_trace w)) as Hu2.
  { subst w2. simpl. by rewrite !updates_of_snoc, !app_nil_r. }
  pose proof (process_faces_no_return session_id known.1 known.2
                (confidence_threshold (w_settings w)) (length (enc :: encs))
                (enc :: encs) 0 [] w2) as Hnr.
  destruct (process_faces _ _ _ _ _ _ _ _ _) as [[rec|r|e] w3] eqn:Hpf;
    [| by destruct (Hnr r) | by destruct Hrun].
  assert (rec = l /\ w3 = w') as [-> ->]
    by (destruct Hrun as [[=]|[= -> ->]]; done).
  apply announces_process_faces in Hpf as (new & Hnew & Hlen & Hup).
  simpl in Hnew. subst new. split; [by rewrite Hup, Hu2 |].
  eexists. split; [reflexivity |]. split; [done | exact Hlen].
Qed.


Lemma unique_match_cases known ids tol enc :
  match matched_indices (compare_faces known enc tol) with
  | [ix] =>
      match ids !! ix with
      | Some sid =>
          unique_match known ids tol enc =
            if bool_decide (sid = 0) then None else Some sid
      | None => unique_match known ids tol enc = None
      end
  | _ => unique_match known ids tol enc = None
  end.
Proof.
  unfold unique_match.
  destruct (matched_indices _) as [|ix [|ix2 ixs]]; [done| |done].
  by destruct (ids !! ix).
Qed.

(** One iteration of the loop that does not raise. *)
Lemma process_face_step session_id known ids tol n i enc rec w rec' w1 :
  process_face session_id known ids tol n i enc rec w = (Val rec', w1) ->
  match unique_match known ids tol enc with
  | Some sid =>
      match w_attendance w !! (session_id, sid) with
      | Some a =>
          if decide (status a = absent) then
            exists s u,
              w_sessions w !! session_id = Some s /\
              w_users w !! sid = Some u /\
              rec' = rec ++
                [{| rs_id := sid; rs_full_name := full_name u;
                    rs_status := new_status s (clock (w_tick w)) |}] /\
              w_attendance w1 =
                <[(session_id, sid) := checked_in s (clock (w_tick w))]>
                  (w_attendance w)
          else rec' = rec /\ w_attendance w1 = w_attendance w
      | None => rec' = rec /\ w_attendance w1 = w_attendance w
      end
  | None => rec' = rec /\ w_attendance w1 = w_attendance w
  end.
Proof.
  pose proof (process_face_cases session_id known ids tol n i enc rec w) as H.
  pose proof (unique_match_cases known ids tol enc) as Hu.
  cbv zeta in H.
  destruct (matched_indices _) as [|ix [|ix2 ixs]].
  - rewrite Hu. destruct known; rewrite H; [done|]. by intros [= <- <-].
  - destruct (ids !! ix) as [sid|]; [|by rewrite H]. rewrite Hu.
    case_bool_decide as H0; rewrite H; [by intros [= <- <-]|].
    set (w0 := emit (LogUnique sid) (emit (LogProcessing (S i) n) w)).
    change (w_attendance w) with (w_attendance w0).
    change (w_sessions w) with (w_sessions w0).
    change (w_users w) with (w_users w0).
    change (w_tick w) with (w_tick w0).
    destruct (w_attendance w0 !! (session_id, sid)) as [a|] eqn:Ha.
    + destruct (decide (status a = absent)) as [Hst|Hst].
      * destruct (w_sessions w0 !! session_id) as [s|] eqn:Hs.
        -- rewrite (apply_absent_cases _ _ _ _ _ _ Hs Ha Hst).
           destruct (grace_period_representable s); [|done].
           destruct (w_users w0 !! sid) as [u|] eqn:Hus; [|done].
           intros [= <- <-]. by exists s, u.
        -- by rewrite (apply_absent_no_session _ _ _ _ _ Hs Ha Hst).
      * rewrite (apply_recorded _ _ _ _ _ Ha Hst). by intros [= <- <-].
    + rewrite (apply_missing _ _ _ _ Ha). by intros [= <- <-].
  - rewrite Hu. destruct (mapM _ _); rewrite H; [|done].
    by intros [= <- <-].
Qed.

Lemma process_face_outcome session_id known ids tol n i enc rec w rec' w1 :
  process_face session_id known ids tol n i enc rec w = (Val rec', w1) ->
  (exists sid s u,
     unique_match known ids tol enc = Some sid /\
     absent_in w session_id sid /\
     w_users w !! sid = Some u /\
     rec' = rec ++ [{| rs_id := sid; rs_full_name := full_name u;
                       rs_status := new_status s (clock (w_tick w)) |}] /\
     w_attendance w1 =
       <[(session_id, sid) := checked_in s (clock (w_tick w))]>
         (w_attendance w)) \/
  (rec' = rec /\ w_attendance w1 = w_attendance w /\
   forall sid, unique_match known ids tol enc = Some sid ->
               ~ absent_in w session_id sid).
Proof.
  intros H. apply process_face_step in H.
  destruct (unique_match known ids tol enc) as [sid|];
    [|right; destruct H; by repeat split].
  destruct (w_attendance w !! (session_id, sid)) as [a|] eqn:Ha.
  - destruct (decide (status a = absent)) as [Hst|Hst].
    + destruct H as (s & u & Hs & Hu & -> & Hw). left.
      exists sid, s, u. repeat split; try done. by exists a.
    + right. destruct H as [-> ->]. repeat split.
      intros sid' [= <-] (a' & Ha' & Hst'). congruence.
  - right. destruct H as [-> ->]. repeat split.
    intros sid' [= <-] (a' & Ha' & _). congruence.
Qed.

Lemma check_ins_only_settled a a' key r :
  check_ins_only a a' -> a !! key = Some r -> status r <> absent ->
  a' !! key = Some r.
Proof.
  intros H Hr Hst. specialize (H key). rewrite Hr in H.
  destruct (a' !! key) as [r'|]; [|done].
  destruct H as [->|[? _]]; done.
Qed.

Lemma process_faces_transitions session_id known ids tol n faces :
  forall i rec w rec' w',
  process_faces session_id known ids tol n i faces rec w = (Val rec', w') ->
  exists new,
    rec' = rec ++ new /\
    rs_id <$> new `sublist_of` omap (unique_match known ids tol) faces /\
    NoDup (rs_id <$> new) /\
    (forall sid,
       sid ∈ rs_id <$> new <->
       sid ∈ omap (unique_match known ids tol) faces /\
       absent_in w session_id sid) /\
    Forall (entry_recorded w' session_id) new /\
    (forall key,
       w_attendance w' !! key <> w_attendance w !! key ->
       exists sid, key = (session_id, sid) /\ sid ∈ rs_id <$> new).
Proof.
  induction faces as [|enc encs IH]; intros i rec w rec' w'; simpl.
  - intros [= <- <-]. exists []. rewrite app_nil_r.
    split; [done|]. split; [constructor|]. split; [constructor|].
    split; [|split; [constructor|by intros key Hk]].
    intros sid. split; [intros Hx|intros [Hx _]]; inversion Hx.
  - unfold mbind, M_bind.
    pose proof (evolves_process_face session_id known ids tol n i enc rec w)
      as Hev1.
    destruct (process_face _ _ _ _ _ _ _ _ _) as [[rec1|r|e] w1] eqn:H1;
      [| done | done].
    simpl in Hev1. intros H2.
    pose proof (evolves_process_faces session_id known ids tol n encs
                  (S i) rec1 w1) as Hev2.
    rewrite H2 in Hev2. simpl in Hev2.
    apply IH in H2 as (new2 & -> & Hsub & Hnd & Hin & Hent & Hch).
    apply process_face_outcome in H1
      as [(sid & s & u & Hum & Habs & Hu & -> & Hw1)|(-> & Hw1 & Hno)].
    + set (e1 := {| rs_id := sid; rs_full_name := full_name u;
                    rs_status := new_status s (clock (w_tick w)) |}).
      assert (forall sid', absent_in w1 session_id sid' <->
                absent_in w session_id sid' /\ sid' <> sid) as Hab1.
      { intros sid'. unfold absent_in. rewrite Hw1.
        destruct (decide (sid' = sid)) as [->|Hne].
        - rewrite lookup_insert_eq. split; [|by intros [_ ?]].
          intros (a & [= <-] & Hst). simpl in Hst.
          by destruct (new_status_cases s (clock (w_tick w))) as [Hn|Hn];
            rewrite Hn in Hst.
        - rewrite lookup_insert_ne by congruence.
          split; [by intros ?|by intros [? _]]. }
      assert (sid ∉ rs_id <$> new2) as Hfresh.
      { intros Hx. apply Hin in Hx as [_ Hx]. apply Hab1 in Hx as [_ Hx].
        done. }
      exists (e1 :: new2). cbn [omap]. rewrite Hum. cbn [fmap list_fmap].
      split; [by rewrite <- app_assoc|].
      split; [by apply sublist_skip|].
      split; [by constructor|].
      split; [|split].
      * intros sid'. rewrite elem_of_cons, Hin, Hab1, elem_of_cons.
        split.
        -- intros [->|(? & ? & ?)]; auto.
        -- intros [[->|?] ?]; [by left|].
           destruct (decide (sid' = sid)) as [->|?]; [by left|right; auto].
      * constructor; [|done].
        exists u, (checked_in s (clock (w_tick w))). simpl.
        split; [by rewrite (ev_users _ _ Hev2), (ev_users _ _ Hev1)|].
        split; [done|]. split.
        { apply (check_ins_only_settled (w_attendance w1));
            [apply Hev2 | by rewrite Hw1, lookup_insert_eq |].
          simpl.
          by destruct (new_status_cases s (clock (w_tick w))) as [-> | ->]. }
        split; [done|]. split; [apply new_status_cases|]. split; eauto.
      * intros key Hk.
        destruct (decide (w_attendance w' !! key = w_attendance w1 !! key))
          as [Heq|Hne].
        -- exists sid. split; [|left].
           destruct (decide (key = (session_id, sid))) as [->|Hkey]; [done|].
           rewrite Heq, Hw1, lookup_insert_ne in Hk by done. done.
        -- destruct (Hch key Hne) as (sid' & -> & Hs'). exists sid'.
           split; [done|by right].
    + assert (forall sid', absent_in w1 session_id sid' <->
                absent_in w session_id sid') as Hab1.
      { intros sid'. unfold absent_in. by rewrite Hw1. }
      exists new2. split; [done|]. split.
      { cbn [omap]. destruct (unique_match known ids tol enc);
          [by apply sublist_cons|done]. }
      split; [done|]. split; [|split; [done|]].
      * intros sid'. rewrite Hin, Hab1. cbn [omap].
        destruct (unique_match known ids tol enc) as [sid0|] eqn:Hum;
          [|done].
        rewrite elem_of_cons. split; [intros [? ?]; auto|].
        intros [[->|?] Ha]; [|done]. by destruct (Hno sid0 eq_refl).
      * intros key Hk. rewrite <- Hw1 in Hk. auto.
Qed.

(** When no iteration raises. *)
Lemma process_faces_completes session_id known ids tol n faces :
  known <> [] -> length ids = length known ->
  forall i rec w,
  is_Some (w_sessions w !! session_id) ->
  (forall s, w_sessions w !! session_id = Some s ->
             grace_period_representable s = true) ->
  (forall sid, sid ∈ ids -> is_Some (w_users w !! sid)) ->
  exists rec' w',
    process_faces session_id known ids tol n i faces rec w = (Val rec', w').
Proof.
  intros Hne Hlen.
  induction faces as [|enc encs IH]; intros i rec w Hsome Hrep Hus; simpl.
  - by eexists _, _.
  - unfold mbind, M_bind.
    pose proof (evolves_process_face session_id known ids tol n i enc rec w)
      as Hev.
    assert (exists rec1 w1,
              process_face session_id known ids tol n i enc rec w =
                (Val rec1, w1)) as (rec1 & w1 & H1).
    { pose proof (process_face_cases session_id known ids tol n i enc rec w)
        as H.
      pose proof (matched_ids_defined known ids enc tol Hlen) as [amb Hamb].
      cbv zeta in H.
      destruct (matched_indices _) as [|ix [|ix2 ixs]].
      - destruct known; [done|]. rewrite H. by eexists _, _.
      - simpl in Hamb. destruct (ids !! ix) as [sid|] eqn:Hix; [|done].
        case_bool_decide; rewrite H; [by eexists _, _|].
        set (w0 := emit (LogUnique sid) (emit (LogProcessing (S i) n) w)).
        destruct (w_attendance w0 !! (session_id, sid)) as [a|] eqn:Ha.
        + destruct (decide (status a = absent)) as [Hst|Hst].
          * destruct Hsome as [s Hs].
            rewrite (apply_absent session_id sid rec w0 s a); try done.
            -- destruct (Hus sid) as [u Hu];
                 [by eapply list_elem_of_lookup_2|].
               change (w_users w0) with (w_users w). rewrite Hu.
               by eexists _, _.
            -- by apply Hrep.
          * rewrite (apply_recorded _ _ _ _ _ Ha Hst). by eexists _, _.
        + rewrite (apply_missing _ _ _ _ Ha). by eexists _, _.
      - rewrite Hamb in H. rewrite H. by eexists _, _. }
    rewrite H1 in Hev |- *. simpl in Hev.
    apply IH.
    + by rewrite (ev_sessions _ _ Hev).
    + intros s. rewrite (ev_sessions _ _ Hev). apply Hrep.
    + intros sid. rewrite (ev_users _ _ Hev). apply Hus.
Qed.

(** The request up to the loop over the detected faces. *)
Lemma recognize_loop img session_id w fid f known enc encs :
  ficha_of w session_id = Some (fid, f) ->
  let w0 := emit LogThreshold (emit (LogStart session_id) w) in
  (load_known_encodings fid f w0).1 = Val known ->
  detect img (face_detection_model (w_settings w)) = Some (enc :: encs) ->
  let w2 :=
    emit (LogDetected (length (enc :: encs)))
      (emit CallDetect (load_known_encodings fid f w0).2) in
  let loop :=
    process_faces session_id known.1 known.2
      (confidence_threshold (w_settings w)) (length (enc :: encs)) 0
      (enc :: encs) [] w2 in
  w_attendance w2 = w_attendance w /\ w_users w2 = w_users w /\
  w_sessions w2 = w_sessions w /\
  recognize_faces_in_stream img session_id w =
    match loop with
    | (Val rec, w') => (RecognizedStudents rec, w')
    | (Return r, w') => (r, w')
    | (Raise FichaDoesNotExist, w') =>
        (ErrorResponse SessionWithoutFicha, emit (LogNoFicha session_id) w')
    | (Raise _, w') =>
        (ErrorResponse UnexpectedError, emit (LogException session_id) w')
    end.
Proof.
  intros Hf w0 Hload Hdet w2 loop.
  pose proof (evolves_load_known_encodings fid f w0 (ficha_of_Some _ _ _ _ Hf))
    as Hev.
  destruct (load_known_encodings_attendance fid f w0) as [Hatt _].
  split; [exact Hatt|].
  split; [exact (ev_users _ _ Hev)|]. split; [exact (ev_sessions _ _ Hev)|].
  unfold recognize_faces_in_stream.
  rewrite recognize_body_cases, Hf. fold w0. unfold mbind, M_bind.
  subst loop w2.
  destruct (load_known_encodings fid f w0) as [[known'|r|e] w1];
    simpl in Hload; simplify_eq.
  pose proof (process_stream_cases img session_id (w_settings w) known w1)
    as Hps. cbv zeta in Hps. rewrite Hdet in Hps. rewrite Hps.
  by destruct (process_faces _ _ _ _ _ _ _ _ _) as [[rec|r|[]] w'].
Qed.

(** C5 (as the code has it).  For a frame with at least one detected
    face, every list of students the request returns holds exactly one
    entry for each student that a detected face matched uniquely and
    whose record was absent, in the order of the detections and at most
    one per detection: the entry gives the id, the full name of the
    user row and the status that the record now holds, present or late,
    verified by face; the attendance table changed at the records of the
    listed students only, and the entries are the updates announced in
    the log.  A face that is ambiguous, unmatched, already recorded or
    without a record adds no entry.  A list is returned whenever the
    known set is not empty with as many ids as encodings, the grace
    boundary of the session is a representable datetime and the known
    students have a user row. *)
Theorem response_lists_the_transitions
    img session_id w fid f known faces :
  ficha_of w session_id = Some (fid, f) ->
  (load_known_encodings fid f
     (emit LogThreshold (emit (LogStart session_id) w))).1 = Val known ->
  detect img (face_detection_model (w_settings w)) = Some faces ->
  faces <> [] ->
  let r := recognize_faces_in_stream img session_id w in
  let matched :=
    omap (unique_match known.1 known.2
            (confidence_threshold (w_settings w))) faces in
  (forall l,
     r.1 = RecognizedStudents l ->
     rs_id <$> l `sublist_of` matched /\
     NoDup (rs_id <$> l) /\
     (forall sid,
        sid ∈ rs_id <$> l <-> sid ∈ matched /\ absent_in w session_id sid) /\
     Forall (entry_recorded r.2 session_id) l /\
     (forall key,
        w_attendance r.2 !! key <> w_attendance w !! key ->
        exists sid, key = (session_id, sid) /\ sid ∈ rs_id <$> l) /\
     updates_of (w_trace r.2) = updates_of (w_trace w) ++ entries_of l) /\
  (known.1 <> [] ->
   length known.2 = length known.1 ->
   (forall s, w_sessions w !! session_id = Some s ->
              grace_period_representable s = true) ->
   (forall sid, sid ∈ known.2 -> is_Some (w_users w !! sid)) ->
   exists l, r.1 = RecognizedStudents l).
Proof.
  intros Hf Hload Hdet Hne r matched.
  destruct faces as [|enc encs]; [done|].
  destruct (recognize_loop img session_id w fid f known enc encs Hf Hload Hdet)
    as (Hatt & Hus & Hss & Hrun).
  cbv zeta in Hatt, Hus, Hss, Hrun.
  set (w2 := emit (LogDetected _) (emit CallDetect _)) in *.
  split.
  - intros l Hl.
    assert (updates_of (w_trace r.2) = updates_of (w_trace w) ++ entries_of l)
      as Hup.
    { apply (response_updates_logged img session_id w l r.2).
      subst r. destruct (recognize_faces_in_stream img session_id w).
      simpl in *. by subst. }
    subst r. rewrite Hrun in Hl |- *.
    pose proof (process_faces_no_return session_id known.1 known.2
                  (confidence_threshold (w_settings w))
                  (length (enc :: encs)) (enc :: encs) 0 [] w2) as Hnr.
    destruct (process_faces _ _ _ _ _ _ _ _ _) as [[rec|r0|e] w'] eqn:Hloop;
      [|by destruct (Hnr r0)|by destruct e].
    simpl in Hl. injection Hl as ->. simpl.
    apply process_faces_transitions in Hloop
      as (new & Hnew & Hsub & Hnd & Hin & Hent & Hch).
    simpl in Hnew. subst new. rewrite Hrun in Hup. simpl in Hup.
    split; [done|]. split; [done|]. split.
    { intros sid. rewrite Hin. unfold absent_in. by rewrite Hatt. }
    split; [done|]. split; [|done].
    intros key Hk. apply Hch. by rewrite Hatt.
  - intros Hk Hlen Hrep Husers. subst r. rewrite Hrun.
    destruct (process_faces_completes session_id known.1 known.2
                (confidence_threshold (w_settings w))
                (length (enc :: encs)) (enc :: encs) Hk Hlen 0 [] w2)
      as (rec' & w' & ->).
    + rewrite Hss. unfold ficha_of in Hf.
      destruct (w_sessions w !! session_id); [eauto|done].
    + intros s. rewrite Hss. apply Hrep.
    + intros sid. rewrite Hus. apply Husers.
    + by exists rec'.
Qed.

(** ** The empty roster *)

Lemma cache_lookup_Some_nonempty w now fid data :
  cache_nonempty w -> cache_lookup (w_cache w) now fid = Some data ->
  data.1 <> [].
Proof.
  intros Hne. unfold cache_lookup.
  destruct (w_cache w !! fid) as [e|] eqn:He; [| done].
  case_bool_decide; [| done]. intros [= <-]. simpl. eauto.
Qed.

(** The request of a session whose ficha, on a cache miss, has no valid
    active encoding. *)
Lemma recognize_empty_roster img session_id fid f w :
  ficha_of w session_id = Some (fid, f) ->
  cache_lookup (w_cache w) (clock (w_tick w)) fid = None ->
  active_pairs w f = [] ->
  exists w',
    recognize_faces_in_stream img session_id w =
      (ErrorResponse NoActiveFaces, w') /\
    same_state (tick w) w' /\
    w_trace w' = w_trace w ++
      [LogStart session_id; LogThreshold; CallStudentsQuery fid;
       LogLoadingFromDb fid (length (student_rows w f))]
      ++ wrong_length_warnings (student_rows w f)
      ++ [LogNoActiveEncodings fid].
Proof.
  intros Hf Hmiss Hempty. unfold recognize_faces_in_stream.
  rewrite recognize_body_cases, Hf.
  set (w0 := emit LogThreshold (emit (LogStart session_id) w)).
  destruct (load_known_encodings_miss fid f w0 Hmiss) as (w1 & Hs & Ht & Hl).
  change (active_pairs w0 f) with (active_pairs w f) in Hl.
  rewrite Hempty in Hl. simpl in Hl.
  unfold mbind, M_bind. rewrite Hl.
  exists (emit (LogNoActiveEncodings fid) w1). split; [done |]. split.
  - destruct Hs as (? & ? & ? & ? & ? & ? & ?). by repeat split.
  - simpl. rewrite Ht. simpl. by rewrite <- !app_assoc.
Qed.

(** A request served from the cache runs the detection and never answers
    that the ficha has no registered faces. *)
Lemma recognize_cache_hit img session_id fid f w data :
  ficha_of w session_id = Some (fid, f) ->
  cache_lookup (w_cache w) (clock (w_tick w)) fid = Some data ->
  let r := recognize_faces_in_stream img session_id w in
  r.1 <> ErrorResponse NoActiveFaces /\
  exists evs,
    w_trace r.2 = w_trace w ++
      [LogStart session_id; LogThreshold; LogCacheHit fid; CallDetect] ++ evs.
Proof.
  intros Hf Hc r. subst r. unfold recognize_faces_in_stream.
  rewrite recognize_body_cases, Hf. unfold mbind, M_bind.
  set (w0 := emit LogThreshold (emit (LogStart session_id) w)).
  rewrite (load_known_encodings_hit fid f w0 data) by done.
  set (w1 := emit (LogCacheHit fid) (tick w0)).
  assert (w_trace (emit CallDetect w1) = w_trace w ++
            [LogStart session_id; LogThreshold; LogCacheHit fid; CallDetect])
    as Ht by (simpl; by rewrite <- !app_assoc).
  pose proof (process_stream_cases img session_id (w_settings w) data w1)
    as Hp.
  cbv zeta in Hp.
  destruct (detect img (face_detection_model (w_settings w)))
    as [[|enc encs]|]; rewrite Hp.
  - split; [done|]. exists [LogDetected 0]. simpl in *.
    rewrite Ht. by rewrite <- !app_assoc.
  - pose proof (evolves_process_faces session_id data.1 data.2
                  (confidence_threshold (w_settings w))
                  (length (enc :: encs)) (enc :: encs) 0 []
                  (emit (LogDetected (length (enc :: encs)))
                     (emit CallDetect w1))) as [_ _ _ _ _ _ [k Hk] _].
    pose proof (process_faces_no_return session_id data.1 data.2
                  (confidence_threshold (w_settings w))
                  (length (enc :: encs)) (enc :: encs) 0 []
                  (emit (LogDetected (length (enc :: encs)))
                     (emit CallDetect w1))) as Hnr.
    destruct (process_faces _ _ _ _ _ _ _ _ _) as [[rec|r0|e] w'];
      [|by destruct (Hnr r0)|].
    + split; [done|]. exists (LogDetected (length (enc :: encs)) :: k).
      simpl in Hk |- *. rewrite Hk. simpl in Ht. rewrite Ht.
      by rewrite <- !app_assoc.
    + split; [by destruct e|].
      exists (LogDetected (length (enc :: encs)) :: k ++
              [match e with
               | FichaDoesNotExist => LogNoFicha session_id
               | _ => LogException session_id
               end]).
      destruct e; simpl in Hk |- *; rewrite Hk; simpl in Ht; rewrite Ht;
        by rewrite <- !app_assoc.
  - split; [done|]. exists [LogException session_id]. simpl in *.
    rewrite Ht. by rewrite <- !app_assoc.
Qed.

(** C6.  The request of a session whose ficha has no valid active
    encoding, when the cache does not serve the ficha (no entry, or an
    expired one), answers "no faces registered" and stops before the
    image is looked at: the trace of the request contains no call of the
    detection, and the attendance table and the cache are untouched.
    When the cache still serves an entry of the ficha, written before the
    encodings were deactivated, the request does not reach that answer:
    it runs the detection against the cached set. *)
Theorem empty_roster_short_circuits img session_id fid f w :
  ficha_of w session_id = Some (fid, f) ->
  active_pairs w f = [] ->
  let r := recognize_faces_in_stream img session_id w in
  exists evs,
    w_trace r.2 = w_trace w ++ evs /\
    match cache_lookup (w_cache w) (clock (w_tick w)) fid with
    | None =>
        r.1 = ErrorResponse NoActiveFaces /\ (CallDetect ∉ evs) /\
        w_attendance r.2 = w_attendance w /\ w_cache r.2 = w_cache w
    | Some data =>
        r.1 <> ErrorResponse NoActiveFaces /\ CallDetect ∈ evs
    end.
Proof.
  intros Hf Hempty r.
  destruct (cache_lookup (w_cache w) (clock (w_tick w)) fid) as [data|]
    eqn:Hc.
  - destruct (recognize_cache_hit img _ _ _ _ _ Hf Hc) as (Hr & evs & Ht).
    eexists. split; [exact Ht|]. split; [exact Hr|].
    simpl. rewrite !elem_of_cons. by do 3 right; left.
  - destruct (recognize_empty_roster img _ _ _ _ Hf Hc Hempty)
      as (w' & Hrun & Hs & Ht).
    subst r. rewrite Hrun. simpl.
    eexists. split; [exact Ht |]. split; [done|].
    destruct Hs as (_ & _ & _ & _ & Ha & Hca & _). split; [| by split].
    pose proof (wrong_length_warnings_load (student_rows w f)) as Hw.
    rewrite Forall_forall in Hw.
    rewrite !elem_of_app, !elem_of_cons, elem_of_nil.
    intros [H | [H | H]];
      [by repeat destruct H as [H | H] | by apply Hw in H
       | by repeat destruct H as [H | H]].
Qed.

(** ** What the cache holds *)

Lemma clock_monotone n m :
  (forall k, clock k <= clock (S k)) -> (n <= m)%nat -> clock n <= clock m.
Proof.
  intros Hstep. induction 1 as [|m _ IH]; [lia |].
  specialize (Hstep m). lia.
Qed.

Lemma cache_lookup_None_later c now now' fid :
  cache_lookup c now fid = None -> now <= now' ->
  cache_lookup c now' fid = None.
Proof.
  unfold cache_lookup. destruct (c !! fid) as [e|]; [| done].
  repeat case_bool_decide; try done; lia.
Qed.

Lemma cache_nonempty_evolves w w' :
  evolves w w' -> cache_nonempty w -> cache_nonempty w'.
Proof.
  intros Hev Hne fid e He.
  destruct (ev_cache _ _ Hev _ _ He) as [Hold | (f & _ & Hnew & _)]; eauto.
Qed.

(** Requests keep a cache that agrees with the enrollment store so, as
    they do not change the store. *)
Lemma cache_coherent_evolves w w' :
  evolves w w' -> cache_coherent w -> cache_coherent w'.
Proof.
  intros Hev Hco fid e He.
  rewrite (ev_fichas _ _ Hev).
  setoid_rewrite (active_pairs_users w w' _ (ev_users _ _ Hev)).
  destruct (ev_cache _ _ Hev _ _ He) as [Hold | (f & Hf & _ & H1 & H2)];
    eauto.
Qed.

Lemma count_queries_app fid tr1 tr2 :
  count_queries fid (tr1 ++ tr2) =
    (count_queries fid tr1 + count_queries fid tr2)%nat.
Proof. unfold count_queries. by rewrite filter_app, length_app. Qed.

Lemma wrong_length_warnings_elem e sts :
  e ∈ wrong_length_warnings sts -> exists sid len, e = LogWrongLength sid len.
Proof.
  unfold wrong_length_warnings. intros He.
  apply list_elem_of_omap in He as ([sid u] & _ & He). simpl in He.
  destruct (face_encoding_data u) as [fe|]; simpl in He; [| done].
  destruct (is_active fe); [| done].
  destruct (encoding_array fe) as [arr|]; simpl in He; [| done].
  case_bool_decide; [done |]. simplify_eq. eauto.
Qed.

Lemma count_queries_warnings fid sts :
  count_queries fid (wrong_length_warnings sts) = 0%nat.
Proof.
  unfold count_queries. apply length_zero_iff_nil, elem_of_nil_inv.
  intros e He. apply list_elem_of_filter in He as [-> He].
  by apply wrong_length_warnings_elem in He as (? & ? & ?).
Qed.

Lemma count_queries_empty_roster fid session_id sts tr :
  count_queries fid
    (tr ++ [LogStart session_id; LogThreshold; CallStudentsQuery fid;
            LogLoadingFromDb fid (length sts)]
        ++ wrong_length_warnings sts ++ [LogNoActiveEncodings fid]) =
    S (count_queries fid tr).
Proof.
  rewrite !count_queries_app, count_queries_warnings.
  unfold count_queries at 2 3. rewrite !filter_cons, !filter_nil.
  repeat case_decide; try done. simpl. lia.
Qed.

(** Requests of a session whose ficha has no valid active encoding, made
    one after the other on a cache miss: each one answers "no faces
    registered", leaves the cache as it was and queries the students of the
    ficha once. *)
Lemma request_sequence_empty_roster session_id fid f imgs : forall w,
  (forall k, clock k <= clock (S k)) ->
  ficha_of w session_id = Some (fid, f) ->
  cache_lookup (w_cache w) (clock (w_tick w)) fid = None ->
  active_pairs w f = [] ->
  length (request_sequence session_id imgs w) = length imgs /\
  Forall (fun rw => rw.1 = ErrorResponse NoActiveFaces /\
                    w_cache rw.2 = w_cache w)
         (request_sequence session_id imgs w) /\
  count_queries fid
    (w_trace (default w (last (request_sequence session_id imgs w).*2))) =
    (count_queries fid (w_trace w) + length imgs)%nat.
Proof.
  induction imgs as [|img imgs IH]; intros w Hclock Hf Hmiss Hempty.
  - simpl. split; [done |]. split; [constructor | lia].
  - cbn [request_sequence].
    destruct (recognize_empty_roster img _ _ _ _ Hf Hmiss Hempty)
      as (w' & Hrun & Hs & Ht).
    rewrite Hrun. cbn [snd].
    destruct Hs as (_ & Hu & Hfi & Hse & _ & Hc & Htk).
    simpl in Hu, Hfi, Hse, Hc, Htk.
    destruct (IH w') as (Hlen & Hall & Hcount); [done | | | |].
    + unfold ficha_of in *. by rewrite Hse, Hfi.
    + rewrite Hc, Htk.
      eapply cache_lookup_None_later; [exact Hmiss | apply Hclock].
    + by rewrite (active_pairs_users w w').
    + split; [simpl; by rewrite Hlen |]. split.
      * constructor; [done |]. eapply Forall_impl; [exact Hall |].
        intros [r w2]. simpl. rewrite Hc. done.
      * rewrite fmap_cons, last_cons. cbn [snd].
        destruct (last (request_sequence session_id imgs w').*2) as [wl|];
          simpl in Hcount |- *;
          rewrite Hcount, Ht, count_queries_empty_roster; lia.
Qed.

(** C9.  The cache only ever holds non-empty lists of encodings: a
    request keeps this invariant, so a cache hit yields a non-empty known
    set; and when the reload of a ficha finds no valid active encoding the
    request answers with the error before the cache is written, so that
    the cache is left as it was and each of the following requests queries
    the students of the ficha again. *)
Theorem cache_holds_nonempty_rosters_only w :
  cache_nonempty w ->
  (forall k, clock k <= clock (S k)) ->
  (forall img session_id,
     cache_nonempty (recognize_faces_in_stream img session_id w).2) /\
  (forall now fid data,
     cache_lookup (w_cache w) now fid = Some data -> data.1 <> []) /\
  (forall session_id fid f imgs,
     ficha_of w session_id = Some (fid, f) ->
     cache_lookup (w_cache w) (clock (w_tick w)) fid = None ->
     active_pairs w f = [] ->
     let runs := request_sequence session_id imgs w in
     length runs = length imgs /\
     Forall (fun rw => rw.1 = ErrorResponse NoActiveFaces /\
                       w_cache rw.2 = w_cache w) runs /\
     count_queries fid (w_trace (default w (last runs.*2))) =
       (count_queries fid (w_trace w) + length imgs)%nat).
Proof.
  intros Hne Hclock. split; [| split].
  - intros img session_id.
    eapply cache_nonempty_evolves; [apply evolves_recognize | exact Hne].
  - intros now fid data. by apply cache_lookup_Some_nonempty.
  - intros session_id fid f imgs Hf Hmiss Hempty.
    by apply (request_sequence_empty_roster session_id fid f).
Qed.

(** ** The known set *)

Lemma elem_of_student_rows w f sid u :
  (sid, u) ∈ student_rows w f <->
  sid ∈ students f /\ w_users w !! sid = Some u.
Proof.
  unfold student_rows. rewrite list_elem_of_omap. split.
  - intros (id & Hin & Hid). cbv beta in Hid.
    destruct (w_users w !! id) eqn:Hu; simpl in Hid; [| done].
    simplify_eq. split; [exact Hin | exact Hu].
  - intros [Hin Hu]. exists sid. split; [done |]. by rewrite Hu.
Qed.

Lemma valid_encoding_Some u e :
  valid_encoding u = Some e <->
  exists fe, face_encoding_data u = Some fe /\ is_active fe = true /\
             encoding_array fe = Some e /\ length e = 128%nat.
Proof.
  unfold valid_encoding. split.
  - destruct (face_encoding_data u) as [fe|]; simpl; [| done].
    destruct (is_active fe) eqn:Hact; [| done].
    destruct (encoding_array fe) as [arr|] eqn:Harr; simpl; [| done].
    case_bool_decide; [| done]. intros [= <-]. exists fe. by repeat split.
  - intros (fe & Hfe & Hact & Harr & Hlen). rewrite Hfe. simpl.
    rewrite Hact, Harr. simpl. by rewrite bool_decide_eq_true_2.
Qed.

Lemma elem_of_active_pairs w f sid e :
  (sid, e) ∈ active_pairs w f <-> has_valid_active_encoding w f sid e.
Proof.
  unfold active_pairs, known_pairs, has_valid_active_encoding.
  rewrite list_elem_of_omap. split.
  - intros ([sid' u] & Hin & Hv). simpl in Hv.
    destruct (valid_encoding u) as [e'|] eqn:He; [| done].
    simpl in Hv. simplify_eq.
    apply elem_of_student_rows in Hin as [? ?].
    apply valid_encoding_Some in He as (fe & ? & ? & ? & ?).
    split; [done |]. by exists u, fe.
  - intros (Hin & u & fe & Hu & Hfe & Hact & Harr & Hlen).
    exists (sid, u). split; [by apply elem_of_student_rows |]. simpl.
    assert (valid_encoding u = Some e) as ->; [| done].
    apply valid_encoding_Some. by exists fe.
Qed.

Lemma load_known_encodings_reload fid f w known w' :
  cache_lookup (w_cache w) (clock (w_tick w)) fid = None ->
  load_known_encodings fid f w = (Val known, w') ->
  known = ((active_pairs w f).*2, (active_pairs w f).*1) /\
  forall e, e ∈ wrong_length_warnings (student_rows w f) -> e ∈ w_trace w'.
Proof.
  intros Hc Hrun.
  destruct (load_known_encodings_miss _ f _ Hc) as (w1 & _ & Ht & Hl).
  rewrite Hl in Hrun.
  destruct ((active_pairs w f).*2) as [|e es] eqn:He; [done |].
  simpl in Hrun. injection Hrun as <- <-. split; [done|].
  intros ev Hev. simpl. rewrite Ht, !elem_of_app. auto.
Qed.

(** With a cache that agrees with the enrollment store, a hit gives what
    a reload would give. *)
Lemma load_known_encodings_coherent fid f w known w' :
  cache_coherent w -> w_fichas w !! fid = Some f ->
  load_known_encodings fid f w = (Val known, w') ->
  known = ((active_pairs w f).*2, (active_pairs w f).*1).
Proof.
  intros Hco Hf.
  destruct (cache_lookup (w_cache w) (clock (w_tick w)) fid) as [data|] eqn:Hc.
  - rewrite (load_known_encodings_hit _ _ _ _ Hc). intros [= <- <-].
    unfold cache_lookup in Hc.
    destruct (w_cache w !! fid) as [e|] eqn:He; [| done].
    case_bool_decide; [| done]. simplify_eq.
    destruct (Hco _ _ He) as (f' & Hf' & -> & ->). congruence.
  - intros Hrun. by apply (load_known_encodings_reload fid f w known w').
Qed.

Lemma wrong_length_logged w f sid u fe arr :
  sid ∈ students f -> w_users w !! sid = Some u ->
  face_encoding_data u = Some fe -> is_active fe = true ->
  encoding_array fe = Some arr -> length arr <> 128%nat ->
  LogWrongLength sid (length arr) ∈ wrong_length_warnings (student_rows w f).
Proof.
  intros Hin Hu Hfe Hact Harr Hlen. unfold wrong_length_warnings.
  apply list_elem_of_omap. exists (sid, u).
  split; [by apply elem_of_student_rows |]. simpl.
  rewrite Hfe. simpl. rewrite Hact, Harr. simpl.
  by rewrite bool_decide_eq_false_2.
Qed.

(** The encodings of a reload have length 128. *)
Lemma active_pairs_lengths w f :
  Forall (fun k : encoding => length k = 128%nat) (active_pairs w f).*2.
Proof.
  apply Forall_forall. intros k Hk.
  apply list_elem_of_fmap in Hk as ([sid e] & -> & H).
  by apply elem_of_active_pairs in H as (_ & u & fe & _ & _ & _ & _ & ?).
Qed.

Lemma load_known_encodings_cache fid f w :
  w_cache (load_known_encodings fid f w).2 =
    match cache_lookup (w_cache w) (clock (w_tick w)) fid,
          (active_pairs w f).*2 with
    | None, _ :: _ =>
        <[fid := fresh_entry ((active_pairs w f).*2, (active_pairs w f).*1)
                   (clock (S (w_tick w)))]> (w_cache w)
    | _, _ => w_cache w
    end.
Proof.
  destruct (cache_lookup (w_cache w) (clock (w_tick w)) fid) as [data|]
    eqn:Hc.
  - by rewrite (load_known_encodings_hit _ _ _ _ Hc).
  - destruct (load_known_encodings_miss fid f w Hc)
      as (w1 & (_ & _ & _ & _ & _ & Hcache & _) & _ & ->).
    by destruct ((active_pairs w f).*2).
Qed.

(** Loading the known set keeps the lists of every cache entry parallel,
    and so does a whole request: the rest of it leaves the cache alone. *)
Lemma cache_parallel_load fid f w :
  cache_parallel w -> cache_parallel (load_known_encodings fid f w).2.
Proof.
  intros Hp fid' e. rewrite load_known_encodings_cache.
  destruct (cache_lookup (w_cache w) (clock (w_tick w)) fid);
    [apply Hp|].
  destruct ((active_pairs w f).*2) as [|k ks] eqn:Hk; [apply Hp|].
  destruct (decide (fid' = fid)) as [->|Hne].
  - rewrite lookup_insert_eq. intros [= <-]. rewrite <- Hk.
    cbn [fresh_entry ce_encodings ce_student_ids fst snd].
    split; [by rewrite !length_fmap | apply active_pairs_lengths].
  - rewrite lookup_insert_ne by done. apply Hp.
Qed.

Lemma cache_parallel_evolves w w' :
  evolves w w' -> cache_parallel w -> cache_parallel w'.
Proof.
  intros Hev Hp fid e He.
  destruct (ev_cache _ _ Hev _ _ He) as [Hold | (f & _ & _ & -> & ->)];
    [by apply (Hp fid)|].
  split; [by rewrite !length_fmap | apply active_pairs_lengths].
Qed.

Lemma cache_parallel_recognize img session_id w :
  cache_parallel w ->
  cache_parallel (recognize_faces_in_stream img session_id w).2.
Proof. apply cache_parallel_evolves, evolves_recognize. Qed.

(** C10.  The known set handed to the matching.  When it is reloaded (the
    cache does not serve the ficha) it is made, index by index, of the
    student ids and the encodings of the students of the ficha that have
    an active face-encoding row whose array has length 128, all of them
    and nothing else; a student whose active row has an array of another
    length is not in it, and the reload logs the warning of line 65 for
    that student.  When the cache serves the ficha, the known set is the
    cached one, as the reload that wrote the entry left it; the
    face-encoding rows are not read.  In both cases the two lists have
    the same length and every encoding has length 128, given that the
    entries of the cache are so, which loading keeps. *)
Theorem known_set_is_active_valid_encodings fid f w known w' :
  load_known_encodings fid f w = (Val known, w') ->
  match cache_lookup (w_cache w) (clock (w_tick w)) fid with
  | None =>
      (forall i sid e,
         known.2 !! i = Some sid -> known.1 !! i = Some e ->
         has_valid_active_encoding w f sid e) /\
      (forall sid e,
         has_valid_active_encoding w f sid e ->
         exists i, known.2 !! i = Some sid /\ known.1 !! i = Some e) /\
      (forall sid u fe arr,
         sid ∈ students f -> w_users w !! sid = Some u ->
         face_encoding_data u = Some fe -> is_active fe = true ->
         encoding_array fe = Some arr -> length arr <> 128%nat ->
         (sid ∉ known.2) /\ LogWrongLength sid (length arr) ∈ w_trace w')
  | Some data =>
      known = data /\ w_cache w' = w_cache w /\
      forall e, e ∈ w_trace w' -> e ∈ w_trace w \/ e = LogCacheHit fid
  end /\
  (cache_parallel w ->
   length known.1 = length known.2 /\
   Forall (fun k : encoding => length k = 128%nat) known.1 /\
   cache_parallel w').
Proof.
  intros Hrun.
  assert (cache_parallel w -> cache_parallel w') as Hkeep.
  { intros Hp. pose proof (cache_parallel_load fid f w Hp) as H.
    by rewrite Hrun in H. }
  destruct (cache_lookup (w_cache w) (clock (w_tick w)) fid) as [data|]
    eqn:Hc.
  - rewrite (load_known_encodings_hit _ _ _ _ Hc) in Hrun.
    injection Hrun as <- <-. split.
    + split; [done|]. split; [done|]. intros e. simpl.
      rewrite elem_of_app, list_elem_of_singleton. tauto.
    + intros Hp. unfold cache_lookup in Hc.
      destruct (w_cache w !! fid) as [e|] eqn:He; [| done].
      case_bool_decide; [| done]. simplify_eq. simpl.
      destruct (Hp _ _ He) as [Hlen Hall]. auto.
  - destruct (load_known_encodings_reload _ _ _ _ _ Hc Hrun) as [-> Hlog].
    cbn [fst snd]. split; [split; [| split] |].
    + intros i sid e H1 H2. apply elem_of_active_pairs.
      rewrite list_lookup_fmap in H1. rewrite list_lookup_fmap in H2.
      destruct (active_pairs w f !! i) as [[sid' e']|] eqn:Hi; [| done].
      simpl in *. simplify_eq. by eapply list_elem_of_lookup_2.
    + intros sid e H. apply elem_of_active_pairs in H.
      apply list_elem_of_lookup_1 in H as [i Hi]. exists i.
      by rewrite !list_lookup_fmap, Hi.
    + intros sid u fe arr Hin Hu Hfe Hact Harr Hlen. split.
      * intros H. apply list_elem_of_fmap in H as ([sid' e] & -> & H).
        apply elem_of_active_pairs in H
          as (_ & u' & fe' & ? & ? & _ & ? & ?).
        simpl in *. congruence.
      * apply Hlog. eauto using wrong_length_logged.
    + intros Hp. split; [by rewrite !length_fmap|].
      split; [apply active_pairs_lengths | by apply Hkeep].
Qed.

(** ** A matched student without attendance record *)

(** C7 (as the code has it).  A face that matches exactly one student (of
    non-zero id, as database keys are) who has no attendance record for
    the session makes the iteration log the error of line 137 and
    [continue]: the list of recognized students and the attendance table
    are as before, no record is created (by this iteration or by any
    request), and the loop goes on with the next face.  The response does
    not mention the missing record. *)
Theorem record_missing_is_logged_and_skipped
    session_id known ids tol n i enc encs rec w ix sid :
  matched_indices (compare_faces known enc tol) = [ix] ->
  ids !! ix = Some sid ->
  sid <> 0 ->
  w_attendance w !! (session_id, sid) = None ->
  let w' := emit (LogRecordMissing sid)
              (emit (LogUnique sid) (emit (LogProcessing (S i) n) w)) in
  process_face session_id known ids tol n i enc rec w = (Val rec, w') /\
  w_attendance w' = w_attendance w /\
  process_faces session_id known ids tol n i (enc :: encs) rec w =
    process_faces session_id known ids tol n (S i) encs rec w' /\
  (forall img session_id0 w0 key,
     w_attendance w0 !! key = None ->
     w_attendance (recognize_faces_in_stream img session_id0 w0).2 !! key
       = None).
Proof.
  intros Hm Hid Hsid Hnone w'.
  pose proof (process_face_cases session_id known ids tol n i enc rec w) as H.
  cbv zeta in H. rewrite Hm, Hid in H.
  rewrite bool_decide_eq_false_2 in H by done.
  rewrite apply_missing in H by done.
  split; [exact H |]. split; [done |]. split.
  - cbn [process_faces]. unfold mbind, M_bind. by rewrite H.
  - intros img session_id0 w0 key Hk.
    pose proof (ev_attendance _ _ (evolves_recognize img session_id0 w0) key)
      as Hev.
    rewrite Hk in Hev.
    by destruct
      (w_attendance (recognize_faces_in_stream img session_id0 w0).2 !! key).
Qed.

(** ** Requests running at the same time *)

Lemma stage_step_cache_get fid f w :
  stage_step fid f AtCacheGet w =
    match cache_lookup (w_cache w) (clock (w_tick w)) fid with
    | Some data => (Finished (Val data), emit (LogCacheHit fid) (tick w))
    | None => (AtQuery, tick w)
    end.
Proof.
  unfold stage_step, stage_code. mrun. simpl.
  by destruct (cache_lookup _ _ _).
Qed.

Lemma stage_step_query fid f w :
  exists w1,
    same_state w w1 /\
    w_trace w1 = w_trace w ++
      [CallStudentsQuery fid; LogLoadingFromDb fid (length (student_rows w f))]
      ++ wrong_length_warnings (student_rows w f) /\
    stage_step fid f AtQuery w =
      match (active_pairs w f).*2 with
      | [] => (Finished (Return (ErrorResponse NoActiveFaces)),
               emit (LogNoActiveEncodings fid) w1)
      | _ :: _ =>
          (AtCacheSet ((active_pairs w f).*2, (active_pairs w f).*1), w1)
      end.
Proof.
  unfold stage_step, stage_code. mrun. simpl.
  change (omap _ (students f)) with (student_rows w f).
  set (w0 := emit (LogLoadingFromDb fid (length (student_rows w f)))
               (emit (CallStudentsQuery fid) w)).
  destruct (collect_encodings_spec (student_rows w f) [] [] w0)
    as (w1 & Hrun & Hs & Ht).
  exists w1. split; [exact Hs |]. split.
  { rewrite Ht. subst w0. simpl. by rewrite <- !app_assoc. }
  rewrite Hrun. simpl. fold (active_pairs w f).
  by destruct ((active_pairs w f).*2).
Qed.

Lemma stage_step_cache_set fid f known w :
  stage_step fid f (AtCacheSet known) w =
    (Finished (Val known),
     emit (LogCached fid (length known.1))
       (with_cache (<[fid := fresh_entry known (clock (w_tick w))]> (w_cache w))
          (tick w))).
Proof. reflexivity. Qed.

Lemma stage_step_finished fid f r w :
  stage_step fid f (Finished r) w = (Finished r, w).
Proof. reflexivity. Qed.

(** A request that runs its three segments without interruption does what
    [load_known_encodings] does. *)
Lemma uninterrupted_run fid f w :
  run_schedule [0; 0; 0]%nat (w, [caller fid f]) =
    ((load_known_encodings fid f w).2,
     [{| th_ficha_id := fid; th_ficha := f;
         th_stage := Finished (load_known_encodings fid f w).1 |}]).
Proof.
  unfold run_schedule, caller, sys_step, stage_step, stage_code,
    load_known_encodings.
  cbn [foldl fst snd lookup list_lookup th_ficha_id th_ficha th_stage].
  mrun. simpl.
  destruct (cache_lookup (w_cache w) (clock (w_tick w)) fid) as [data|];
    [reflexivity |].
  simpl.
  destruct (collect_encodings _ _ _ _) as [[[encs ids]|r|e] w1]; simpl;
    [| reflexivity | reflexivity].
  destruct encs; reflexivity.
Qed.


(** *** Every caller is served by its own three segments *)

Lemma stage_step_progress fid f st w :
  (segments_left (stage_step fid f st w).1 <= pred (segments_left st))%nat.
Proof.
  destruct st as [| |known|r].
  - rewrite stage_step_cache_get. destruct (cache_lookup _ _ _); simpl; lia.
  - destruct (stage_step_query fid f w) as (w1 & _ & _ & ->).
    destruct ((active_pairs w f).*2); simpl; lia.
  - rewrite stage_step_cache_set. simpl. lia.
  - rewrite stage_step_finished. simpl. lia.
Qed.

Lemma sys_step_thread t t' sys th :
  sys.2 !! t' = Some th ->
  exists th',
    (sys_step t sys).2 !! t' = Some th' /\
    th_ficha_id th' = th_ficha_id th /\ th_ficha th' = th_ficha th /\
    (segments_left (th_stage th') <=
     segments_left (th_stage th) - (if decide (t' = t) then 1 else 0))%nat.
Proof.
  intros Ht'. unfold sys_step.
  destruct (sys.2 !! t) as [th0|] eqn:Ht.
  - cbn [snd]. destruct (decide (t' = t)) as [-> | Hne].
    + assert (th0 = th) as -> by congruence.
      eexists. split.
      { apply list_lookup_insert_eq. by eapply lookup_lt_Some. }
      split; [done |]. split; [done |]. simpl.
      pose proof (stage_step_progress (th_ficha_id th) (th_ficha th)
                    (th_stage th) sys.1). lia.
    + exists th. rewrite list_lookup_insert_ne by done.
      split; [done |]. split; [done |]. split; [done | lia].
  - exists th. split; [done |]. split; [done |]. split; [done |].
    destruct (decide (t' = t)) as [-> | Hne]; [congruence | lia].
Qed.

Lemma run_schedule_progress t' schedule : forall sys th,
  sys.2 !! t' = Some th ->
  exists th',
    (run_schedule schedule sys).2 !! t' = Some th' /\
    th_ficha_id th' = th_ficha_id th /\ th_ficha th' = th_ficha th /\
    (segments_left (th_stage th') <=
     segments_left (th_stage th) - turns t' schedule)%nat.
Proof.
  unfold run_schedule, turns.
  induction schedule as [|t schedule IH]; intros sys th Ht'; simpl.
  - exists th. split; [done |]. split; [done |]. split; [done | lia].
  - destruct (sys_step_thread t t' sys th Ht') as (th1 & H1 & Hid & Hf & Hs).
    destruct (IH _ _ H1) as (th2 & H2 & Hid2 & Hf2 & Hs2).
    exists th2. split; [done |]. split; [congruence |]. split; [congruence |].
    rewrite filter_cons. destruct (decide (t = t')) as [-> | Hne].
    + rewrite decide_True in Hs by done. simpl. lia.
    + rewrite decide_False in Hs by done. lia.
Qed.

(** *** At most one reload per caller *)

Lemma count_queries_snoc fid tr e :
  count_queries fid (tr ++ [e]) =
    (count_queries fid tr +
     if bool_decide (e = CallStudentsQuery fid) then 1 else 0)%nat.
Proof.
  rewrite count_queries_app. f_equal. unfold count_queries.
  rewrite filter_cons, filter_nil. by case_decide; case_bool_decide.
Qed.

Lemma sum_list_insert (g : Thread -> nat) l t x y :
  l !! t = Some x ->
  (sum_list (g <$> <[t := y]> l) + g x = sum_list (g <$> l) + g y)%nat.
Proof.
  revert t. induction l as [|z l IH]; intros [|t] Ht; simpl in *; try done.
  - simplify_eq. lia.
  - specialize (IH t Ht). revert IH.
    change (list_fmap Thread nat g) with (fmap (M := list) g). lia.
Qed.

Lemma stage_step_queries fid' fid f st w :
  let th st := {| th_ficha_id := fid; th_ficha := f; th_stage := st |} in
  let weight th := if may_query fid' th then 1%nat else 0%nat in
  (count_queries fid' (w_trace (stage_step fid f st w).2)
     + weight (th (stage_step fid f st w).1) <=
   count_queries fid' (w_trace w) + weight (th st))%nat.
Proof.
  cbv zeta. unfold may_query. simpl.
  destruct st as [| |known|r].
  - rewrite stage_step_cache_get.
    destruct (cache_lookup _ _ _); simpl; rewrite ?count_queries_snoc;
      simpl; case_bool_decide; simpl; lia.
  - destruct (stage_step_query fid f w) as (w1 & _ & Ht & ->).
    assert (count_queries fid' (w_trace w1) =
            (count_queries fid' (w_trace w) +
             if bool_decide (fid = fid') then 1 else 0)%nat) as Hc.
    { rewrite Ht, !count_queries_app, count_queries_warnings.
      unfold count_queries at 2. rewrite !filter_cons, filter_nil.
      repeat case_decide; case_bool_decide; simplify_eq; simpl; lia. }
    destruct ((active_pairs w f).*2); simpl; rewrite ?count_queries_snoc, Hc;
      simpl; destruct (bool_decide (fid = fid')); simpl; lia.
  - rewrite stage_step_cache_set. simpl. rewrite count_queries_snoc. simpl.
    destruct (bool_decide (fid = fid')); simpl; lia.
  - rewrite stage_step_finished. simpl. lia.
Qed.

Lemma sys_step_queries fid t sys :
  (count_queries fid (w_trace (sys_step t sys).1)
     + queriers fid (sys_step t sys).2 <=
   count_queries fid (w_trace sys.1) + queriers fid sys.2)%nat.
Proof.
  unfold sys_step. destruct (sys.2 !! t) as [[fid0 f st]|] eqn:Ht; [| lia].
  cbn [fst snd th_ficha_id th_ficha th_stage]. unfold queriers.
  pose proof (stage_step_queries fid fid0 f st sys.1) as Hq. cbv zeta in Hq.
  pose proof (sum_list_insert
                (fun th => if may_query fid th then 1%nat else 0%nat)
                sys.2 t _
                {| th_ficha_id := fid0; th_ficha := f;
                   th_stage := (stage_step fid0 f st sys.1).1 |} Ht) as Hs.
  cbv beta in Hs. lia.
Qed.

Lemma run_schedule_queries fid schedule : forall sys,
  (count_queries fid (w_trace (run_schedule schedule sys).1)
     + queriers fid (run_schedule schedule sys).2 <=
   count_queries fid (w_trace sys.1) + queriers fid sys.2)%nat.
Proof.
  unfold run_schedule.
  induction schedule as [|t schedule IH]; intros sys; simpl; [lia |].
  specialize (IH (sys_step t sys)).
  pose proof (sys_step_queries fid t sys). lia.
Qed.

Lemma queriers_bound fid ths :
  (queriers fid ths <=
   length (filter (fun th => th_ficha_id th = fid) ths))%nat.
Proof.
  unfold queriers. induction ths as [|th ths IH]; [simpl; lia |].
  rewrite fmap_cons, filter_cons. cbn [sum_list]. unfold may_query at 1.
  case_decide; case_bool_decide; try done;
    destruct (th_stage th); cbn [length andb];
    change (id ?x) with x; lia.
Qed.

(** *** At least one reload when the entry is missing or expired *)

Lemma stage_step_count fid' fid f st w :
  count_queries fid' (w_trace (stage_step fid f st w).2) =
    (count_queries fid' (w_trace w) +
     match st with
     | AtQuery => if bool_decide (fid = fid') then 1 else 0
     | _ => 0
     end)%nat.
Proof.
  destruct st as [| |known|r].
  - rewrite stage_step_cache_get.
    destruct (cache_lookup _ _ _); simpl; rewrite ?count_queries_snoc;
      simpl; lia.
  - destruct (stage_step_query fid f w) as (w1 & _ & Ht & ->).
    assert (count_queries fid' (w_trace w1) =
            (count_queries fid' (w_trace w) +
             if bool_decide (fid = fid') then 1 else 0)%nat) as Hc.
    { rewrite Ht, !count_queries_app, count_queries_warnings.
      unfold count_queries at 2. rewrite !filter_cons, filter_nil.
      repeat case_decide; case_bool_decide; simplify_eq; simpl; lia. }
    destruct ((active_pairs w f).*2); simpl; rewrite ?count_queries_snoc, Hc;
      simpl; lia.
  - rewrite stage_step_cache_set. simpl. rewrite count_queries_snoc. simpl.
    lia.
  - rewrite stage_step_finished. simpl. lia.
Qed.

Lemma stage_step_tick_cache fid' fid f st w :
  (w_tick w <= w_tick (stage_step fid f st w).2)%nat /\
  (w_cache (stage_step fid f st w).2 !! fid' = w_cache w !! fid' \/
   fid = fid' /\ exists known, st = AtCacheSet known).
Proof.
  destruct st as [| |known|r].
  - rewrite stage_step_cache_get.
    destruct (cache_lookup _ _ _); simpl; split; auto; lia.
  - destruct (stage_step_query fid f w) as (w1 & Hs & _ & ->).
    destruct Hs as (_ & _ & _ & _ & _ & Hc & Htk).
    destruct ((active_pairs w f).*2); simpl; rewrite Hc, Htk; split; auto.
  - rewrite stage_step_cache_set. simpl. split; [lia |].
    destruct (decide (fid = fid')) as [<- | Hne]; [right; eauto |].
    left. by rewrite lookup_insert_ne.
  - rewrite stage_step_finished. simpl. split; auto.
Qed.

Lemma sys_step_reload_witnessed w0 fid t sys :
  (forall k, clock k <= clock (S k)) ->
  cache_lookup (w_cache w0) (clock (w_tick w0)) fid = None ->
  reload_witnessed w0 fid sys -> reload_witnessed w0 fid (sys_step t sys).
Proof.
  intros Hclock Hmiss (Htk & Hca & Hle & Hall). unfold sys_step.
  destruct (sys.2 !! t) as [[fid0 f st]|] eqn:Ht; [| done].
  cbn [fst snd th_ficha_id th_ficha th_stage].
  pose proof (stage_step_count fid fid0 f st sys.1) as Hcount.
  destruct (stage_step_tick_cache fid fid0 f st sys.1) as [Htk' Hca'].
  pose proof (Forall_lookup_1 _ _ _ _ Hall Ht) as Hth. simpl in Hth.
  set (r := stage_step fid0 f st sys.1) in *.
  unfold reload_witnessed. cbn [fst snd].
  assert (count_queries fid (w_trace sys.1)
            <= count_queries fid (w_trace r.2))%nat as Hmono by lia.
  split; [lia |]. split; [| split; [lia |]].
  - destruct Hca' as [Hsame | (-> & known & ->)].
    + rewrite Hsame. destruct Hca; [by left | right; lia].
    + right. simpl in Hth. specialize (Hth eq_refl). lia.
  - apply Forall_insert.
    + eapply Forall_impl; [exact Hall |]. intros th Hp Hid Hseg.
      specialize (Hp Hid Hseg). lia.
    + simpl. intros -> Hseg.
      destruct st as [| |known|r0].
      * (* a hit needs an entry written since the start *)
        subst r. rewrite stage_step_cache_get in *.
        destruct (cache_lookup (w_cache sys.1) (clock (w_tick sys.1)) fid)
          as [data|] eqn:Hc; [| simpl in Hseg; lia].
        destruct Hca as [Hsame | Hlt]; [| simpl in *; lia].
        exfalso. unfold cache_lookup in Hc, Hmiss. rewrite Hsame in Hc.
        pose proof (clock_monotone _ _ Hclock Htk).
        destruct (w_cache w0 !! fid) as [e|]; [| done].
        repeat case_bool_decide; try done; lia.
      * rewrite bool_decide_eq_true_2 in Hcount by done. lia.
      * simpl in Hth. specialize (Hth eq_refl). lia.
      * simpl in Hth. specialize (Hth eq_refl). lia.
Qed.

Lemma run_schedule_reload_witnessed w0 fid schedule : forall sys,
  (forall k, clock k <= clock (S k)) ->
  cache_lookup (w_cache w0) (clock (w_tick w0)) fid = None ->
  reload_witnessed w0 fid sys ->
  reload_witnessed w0 fid (run_schedule schedule sys).
Proof.
  unfold run_schedule.
  induction schedule as [|t schedule IH]; intros sys Hc Hm Hw; simpl;
    [done |].
  apply IH; [done | done |]. by apply sys_step_reload_witnessed.
Qed.

Lemma stage_step_users fid f st w :
  w_users (stage_step fid f st w).2 = w_users w.
Proof.
  destruct st as [| |known|r].
  - rewrite stage_step_cache_get. by destruct (cache_lookup _ _ _).
  - destruct (stage_step_query fid f w) as (w1 & Hs & _ & ->).
    destruct Hs as (_ & Hu & _). by destruct ((active_pairs w f).*2).
  - by rewrite stage_step_cache_set.
  - by rewrite stage_step_finished.
Qed.

(** An entry that is missing or expired stays so as long as it is not
    written. *)
Lemma cache_lookup_still_None w0 w fid :
  (forall k, clock k <= clock (S k)) ->
  cache_lookup (w_cache w0) (clock (w_tick w0)) fid = None ->
  (w_tick w0 <= w_tick w)%nat ->
  w_cache w !! fid = w_cache w0 !! fid ->
  cache_lookup (w_cache w) (clock (w_tick w)) fid = None.
Proof.
  intros Hclock Hmiss Htk Hsame.
  pose proof (clock_monotone _ _ Hclock Htk) as Hle.
  unfold cache_lookup in *. rewrite Hsame.
  destruct (w_cache w0 !! fid) as [e|]; [| done].
  repeat case_bool_decide; try done; lia.
Qed.

(** One segment keeps what holds of the callers of a ficha whose entry
    was missing or expired at the start. *)
Lemma stage_step_cohort w0 fid w fid0 f st :
  (forall k, clock k <= clock (S k)) ->
  cache_lookup (w_cache w0) (clock (w_tick w0)) fid = None ->
  cohort_world w0 fid w ->
  caller_ok w0 fid {| th_ficha_id := fid0; th_ficha := f; th_stage := st |} ->
  let r := stage_step fid0 f st w in
  cohort_world w0 fid r.2 /\
  caller_ok w0 fid {| th_ficha_id := fid0; th_ficha := f; th_stage := r.1 |}.
Proof.
  intros Hclock Hmiss (Hu & Htk & Hca) Hth r. subst r.
  pose proof (stage_step_users fid0 f st w) as Hu'.
  destruct (stage_step_tick_cache fid fid0 f st w) as [Htk' Hca'].
  destruct (decide (fid0 = fid)) as [-> | Hne].
  - destruct (Hth eq_refl) as [Hf Hst]. simpl in Hf, Hst.
    assert (active_pairs w f = active_pairs w0 f) as Hap
      by (by apply active_pairs_users).
    destruct st as [| |known|r0].
    + rewrite stage_step_cache_get in *.
      destruct (cache_lookup (w_cache w) (clock (w_tick w)) fid)
        as [data|] eqn:Hc; cbn [fst snd] in *.
      * split; [split; [done | split; [lia |]] |].
        { simpl. exact Hca. }
        intros _. split; [done |]. simpl.
        destruct Hca as [Hsame | (e & f' & He & Hf' & He1 & He2 & Hne)].
        { by rewrite (cache_lookup_still_None w0 w fid) in Hc. }
        assert (f' = f) as -> by congruence.
        unfold cache_lookup in Hc. rewrite He in Hc.
        case_bool_decide; [| done]. simplify_eq.
        unfold reload_outcome. rewrite <- He1, <- He2.
        by destruct (ce_encodings e).
      * split; [split; [done | split; [lia |]] |]; [exact Hca |].
        intros _. by split.
    + destruct (stage_step_query fid f w) as (w1 & Hs & _ & Hrun).
      rewrite Hrun in *. rewrite Hap in *.
      split.
      { split; [congruence | split; [lia |]].
        destruct Hca' as [-> | (_ & known & ?)]; [exact Hca | done]. }
      intros _. split; [done |]. cbn [th_stage th_ficha].
      unfold reload_outcome.
      by destruct ((active_pairs w0 f).*2) as [|k ks] eqn:Hk.
    + rewrite stage_step_cache_set in *. cbn [fst snd] in *.
      destruct Hst as [-> Hk]. cbn [fst] in Hk.
      split.
      { split; [done | split; [lia |]]. right.
        exists (fresh_entry ((active_pairs w0 f).*2, (active_pairs w0 f).*1)
                  (clock (w_tick w))), f.
        simpl. rewrite lookup_insert_eq. by repeat split. }
      intros _. split; [done |]. simpl. unfold reload_outcome.
      by destruct ((active_pairs w0 f).*2).
    + rewrite stage_step_finished in *. cbn [fst snd] in *.
      split; [by repeat split |]. intros _. by split.
  - split.
    + split; [congruence | split; [lia |]].
      destruct Hca' as [-> | (? & _)]; [exact Hca | done].
    + intros Heq. simpl in Heq. done.
Qed.

Lemma sys_step_cohort w0 fid t sys :
  (forall k, clock k <= clock (S k)) ->
  cache_lookup (w_cache w0) (clock (w_tick w0)) fid = None ->
  cohort_ok w0 fid sys -> cohort_ok w0 fid (sys_step t sys).
Proof.
  intros Hclock Hmiss [Hw Hall]. unfold sys_step.
  destruct (sys.2 !! t) as [[fid0 f st]|] eqn:Ht; [| by split].
  cbn [th_ficha_id th_ficha th_stage fst snd].
  pose proof (Forall_lookup_1 _ _ _ _ Hall Ht) as Hth.
  destruct (stage_step_cohort w0 fid sys.1 fid0 f st Hclock Hmiss Hw Hth)
    as [? ?].
  split; [done |]. by apply Forall_insert.
Qed.

Lemma run_schedule_cohort w0 fid schedule : forall sys,
  (forall k, clock k <= clock (S k)) ->
  cache_lookup (w_cache w0) (clock (w_tick w0)) fid = None ->
  cohort_ok w0 fid sys -> cohort_ok w0 fid (run_schedule schedule sys).
Proof.
  unfold run_schedule.
  induction schedule as [|t schedule IH]; intros sys Hc Hm Hok; simpl;
    [done |].
  apply IH; [done | done |]. by apply sys_step_cohort.
Qed.

(** *** A caller that missed reloads on its own *)

Lemma run_schedule_app s1 s2 sys :
  run_schedule (s1 ++ s2) sys = run_schedule s2 (run_schedule s1 sys).
Proof. unfold run_schedule. apply foldl_app. Qed.

Lemma run_schedule_snoc s t sys :
  run_schedule (s ++ [t]) sys = sys_step t (run_schedule s sys).
Proof. by rewrite run_schedule_app. Qed.

Lemma turns_snoc t s x :
  turns t (s ++ [x]) =
    (turns t s + if decide (x = t) then 1 else 0)%nat.
Proof.
  unfold turns. rewrite filter_app, length_app, filter_cons, filter_nil.
  by case_decide.
Qed.

Lemma turns_not_elem t s : t ∉ s -> turns t s = 0%nat.
Proof.
  intros Ht. unfold turns. apply length_zero_iff_nil, elem_of_nil_inv.
  intros x Hx. apply list_elem_of_filter in Hx as [-> Hx]. done.
Qed.

(** The scheduler changes the stage of the thread it picks only. *)
Lemma sys_step_lookup t t' sys th' :
  (sys_step t sys).2 !! t' = Some th' ->
  exists th,
    sys.2 !! t' = Some th /\
    th_ficha_id th' = th_ficha_id th /\ th_ficha th' = th_ficha th /\
    (t' <> t -> th' = th).
Proof.
  unfold sys_step. destruct (sys.2 !! t) as [th0|] eqn:Ht; [| by eauto].
  cbn [snd]. intros H.
  apply list_lookup_insert_Some in H as [(<- & <- & _) | [Hne H]].
  - exists th0. by repeat split.
  - exists th'. by repeat split.
Qed.

Lemma run_schedule_lookup s : forall sys t' th',
  (run_schedule s sys).2 !! t' = Some th' ->
  exists th,
    sys.2 !! t' = Some th /\
    th_ficha_id th' = th_ficha_id th /\ th_ficha th' = th_ficha th /\
    (t' ∉ s -> th' = th).
Proof.
  unfold run_schedule.
  induction s as [|t s IH]; intros sys t' th' H; simpl in H.
  - exists th'. by repeat split.
  - destruct (IH _ _ _ H) as (th1 & H1 & Hid1 & Hf1 & Hs1).
    destruct (sys_step_lookup _ _ _ _ H1) as (th & H0 & Hid & Hf & Hs).
    exists th. split; [done |]. split; [congruence |].
    split; [congruence |]. intros Hnot.
    apply not_elem_of_cons in Hnot as [Hne Hnot].
    rewrite Hs1 by done. by apply Hs.
Qed.

Lemma queriers_insert fid l t th th' :
  l !! t = Some th ->
  (queriers fid (<[t := th']> l) + (if may_query fid th then 1 else 0) =
   queriers fid l + (if may_query fid th' then 1 else 0))%nat.
Proof.
  intros Ht. unfold queriers.
  apply (sum_list_insert
           (fun th => if may_query fid th then 1%nat else 0%nat) l t th th' Ht).
Qed.

Lemma queriers_callers fid ths :
  Forall (fun th => th_stage th = AtCacheGet) ths ->
  queriers fid ths = length (filter (fun th => th_ficha_id th = fid) ths).
Proof.
  unfold queriers. induction 1 as [|th ths Hth _ IH]; [done |].
  rewrite fmap_cons, filter_cons. cbn [sum_list]. rewrite IH.
  unfold may_query. rewrite Hth.
  case_decide; case_bool_decide; try done; simpl; lia.
Qed.

Lemma queriers_none fid ths :
  (forall t th, ths !! t = Some th -> may_query fid th = false) ->
  queriers fid ths = 0%nat.
Proof.
  unfold queriers. induction ths as [|th ths IH]; intros H; [done |].
  rewrite fmap_cons. cbn [sum_list].
  rewrite (H 0%nat th eq_refl), IH; [done |].
  intros t th' Ht. by apply (H (S t)).
Qed.

(** As long as no caller of the ficha has taken a third turn, the entry
    of the ficha is not written and every read of it misses: a caller of
    the ficha that has taken one turn is about to query, one that has
    taken two has queried, and each query is one more reload. *)
Lemma run_schedule_before_writes w fid threads s :
  (forall k, clock k <= clock (S k)) ->
  cache_lookup (w_cache w) (clock (w_tick w)) fid = None ->
  Forall (fun th => th_stage th = AtCacheGet) threads ->
  (forall t th, threads !! t = Some th -> th_ficha_id th = fid ->
                (turns t s <= 2)%nat) ->
  let sys := run_schedule s (w, threads) in
  w_cache sys.1 !! fid = w_cache w !! fid /\
  (w_tick w <= w_tick sys.1)%nat /\
  (count_queries fid (w_trace sys.1) + queriers fid sys.2 =
   count_queries fid (w_trace w) + queriers fid threads)%nat /\
  (forall t th, sys.2 !! t = Some th -> th_ficha_id th = fid ->
                stage_after (th_stage th) (turns t s)).
Proof.
  intros Hclock Hmiss Hcallers.
  induction s as [|x s IH] using rev_ind; intros Hwin; cbv zeta.
  - cbn [run_schedule foldl fst snd]. split; [done |]. split; [done |].
    split; [done |]. intros t th Ht _.
    pose proof (Forall_lookup_1 _ _ _ _ Hcallers Ht) as Hst. cbv beta in Hst.
    by rewrite Hst.
  - assert (forall t th, threads !! t = Some th -> th_ficha_id th = fid ->
                         (turns t s <= 2)%nat) as Hwin'.
    { intros t th Ht Hid. specialize (Hwin t th Ht Hid).
      rewrite turns_snoc in Hwin. lia. }
    destruct (IH Hwin') as (Hca & Htk & Hcount & Hstages). clear IH.
    rewrite run_schedule_snoc.
    set (sys := run_schedule s (w, threads)) in *.
    unfold sys_step.
    destruct (sys.2 !! x) as [[fid0 f st]|] eqn:Hx.
    2:{ split; [done |]. split; [done |]. split; [done |].
        intros t th Ht Hid. rewrite turns_snoc.
        destruct (decide (x = t)) as [-> | Hne]; [congruence |].
        rewrite Nat.add_0_r. by apply Hstages. }
    cbn [th_ficha_id th_ficha th_stage fst snd].
    pose proof (stage_step_count fid fid0 f st sys.1) as Hc.
    destruct (stage_step_tick_cache fid fid0 f st sys.1) as [Htk' Hca'].
    pose proof (queriers_insert fid sys.2 x _
                  {| th_ficha_id := fid0; th_ficha := f;
                     th_stage := (stage_step fid0 f st sys.1).1 |} Hx) as Hq.
    unfold may_query in Hq. cbn [th_ficha_id th_stage] in Hq.
    assert (forall t th,
              <[x := {| th_ficha_id := fid0; th_ficha := f;
                        th_stage := (stage_step fid0 f st sys.1).1 |}]> sys.2
                !! t = Some th -> t <> x ->
              th_ficha_id th = fid ->
              stage_after (th_stage th) (turns t (s ++ [x]))) as Hothers.
    { intros t th Ht Hne Hid. rewrite list_lookup_insert_ne in Ht by done.
      rewrite turns_snoc, decide_False, Nat.add_0_r by done.
      by apply Hstages. }
    destruct (decide (fid0 = fid)) as [-> | Hne].
    + pose proof (Hstages x _ Hx eq_refl) as Hst. cbn [th_stage] in Hst.
      destruct (run_schedule_lookup s (w, threads) x _ Hx)
        as (th0 & Hth0 & Hid0 & _).
      pose proof (Hwin x th0 Hth0 (eq_sym Hid0)) as Hturns.
      rewrite turns_snoc, decide_True in Hturns by done.
      rewrite bool_decide_eq_true_2 in Hq by done.
      destruct st as [| |known|r0]; simpl in Hst; [| | lia | lia].
      * rewrite stage_step_cache_get in *.
        rewrite (cache_lookup_still_None w sys.1 fid) in * by done.
        cbn [fst snd] in *.
        split; [done |]. split; [lia |]. split; [simpl in *; lia |].
        intros t th Ht Hid. destruct (decide (t = x)) as [-> | Hn].
        -- rewrite list_lookup_insert_eq in Ht
             by (by eapply lookup_lt_Some).
           injection Ht as <-. simpl.
           rewrite turns_snoc, decide_True by done. lia.
        -- by apply Hothers.
      * rewrite bool_decide_eq_true_2 in Hc by done.
        pose proof (stage_step_progress fid f AtQuery sys.1) as Hp.
        cbn [segments_left] in Hp.
        split.
        { destruct Hca' as [-> | (_ & known & ?)]; [exact Hca | done]. }
        split; [lia |].
        destruct (stage_step fid f AtQuery sys.1).1 as [| |known|r0] eqn:Hr;
          cbn [segments_left] in Hp; try lia.
        -- split; [simpl in *; lia |].
           intros t th Ht Hid. destruct (decide (t = x)) as [-> | Hn].
           ++ rewrite list_lookup_insert_eq in Ht
                by (by eapply lookup_lt_Some).
              injection Ht as <-. simpl.
              rewrite turns_snoc, decide_True by done. lia.
           ++ by apply Hothers.
        -- split; [simpl in *; lia |].
           intros t th Ht Hid. destruct (decide (t = x)) as [-> | Hn].
           ++ rewrite list_lookup_insert_eq in Ht
                by (by eapply lookup_lt_Some).
              injection Ht as <-. simpl.
              rewrite turns_snoc, decide_True by done. lia.
           ++ by apply Hothers.
    + rewrite bool_decide_eq_false_2 in Hq by done. simpl in Hq.
      assert (count_queries fid (w_trace (stage_step fid0 f st sys.1).2) =
              count_queries fid (w_trace sys.1)) as Hc'.
      { rewrite Hc. destruct st; try lia.
        rewrite bool_decide_eq_false_2 by done. lia. }
      split.
      { destruct Hca' as [-> | (? & _)]; [exact Hca | done]. }
      split; [lia |]. split; [lia |].
      intros t th Ht Hid. destruct (decide (t = x)) as [-> | Hn].
      * rewrite list_lookup_insert_eq in Ht by (by eapply lookup_lt_Some).
        injection Ht as <-. simpl in Hid. done.
      * by apply Hothers.
Qed.

(** C8 (as the code has it).  Callers that enter the cache section at the
    same time for a cohort whose entry is missing or expired, whatever
    the cache holds otherwise, do not share a reload.  N callers of the
    cohort trigger at most N reloads, and at least one once one of them
    is served; with the enrollment store unchanged every caller of the
    cohort obtains the outcome a reload gives; no caller waits for
    another one, of the same cohort or not: it is served by its own three
    segments however the others are scheduled.  A caller that reads the
    cache before any caller of the cohort has written it queries the
    enrollment store at its next turn, whatever the others have done in
    between, a write included; and when every caller of the cohort has
    read and queried and none has written yet, there have been exactly N
    reloads. *)
Theorem concurrent_callers_reload_independently w fid threads schedule :
  (forall k, clock k <= clock (S k)) ->
  cache_lookup (w_cache w) (clock (w_tick w)) fid = None ->
  Forall (fun th => w_fichas w !! th_ficha_id th = Some (th_ficha th) /\
                    th_stage th = AtCacheGet) threads ->
  let reloads s :=
    count_queries fid (w_trace (run_schedule s (w, threads)).1) in
  let sys' := run_schedule schedule (w, threads) in
  let callers := length (filter (fun th => th_ficha_id th = fid) threads) in
  let of_cohort t :=
    exists th, threads !! t = Some th /\ th_ficha_id th = fid in
  (reloads schedule <= count_queries fid (w_trace w) + callers)%nat /\
  (forall t th r,
     sys'.2 !! t = Some th -> th_ficha_id th = fid ->
     th_stage th = Finished r ->
     (count_queries fid (w_trace w) + 1 <= reloads schedule)%nat /\
     r = reload_outcome w (th_ficha th)) /\
  (forall t,
     (t < length threads)%nat -> (3 <= turns t schedule)%nat ->
     exists th r, sys'.2 !! t = Some th /\ th_stage th = Finished r) /\
  (forall s1 s2 t,
     of_cohort t -> t ∉ s1 -> t ∉ s2 ->
     (forall t', of_cohort t' -> (turns t' s1 <= 2)%nat) ->
     reloads ((s1 ++ t :: s2) ++ [t]) = S (reloads (s1 ++ t :: s2))) /\
  ((forall t, of_cohort t -> turns t schedule = 2%nat) ->
   reloads schedule = (count_queries fid (w_trace w) + callers)%nat).
Proof.
  intros Hclock Hmiss Hcallers reloads sys' callers of_cohort.
  assert (Forall (fun th => th_stage th = AtCacheGet) threads) as Hstart.
  { eapply Forall_impl; [exact Hcallers |]. by intros th [_ ?]. }
  split; [| split; [| split; [| split]]].
  - pose proof (run_schedule_queries fid schedule (w, threads)) as Hq.
    pose proof (queriers_bound fid threads) as Hb.
    fold sys' in Hq. cbn [fst snd] in Hq. subst callers reloads.
    cbv beta. fold sys'. lia.
  - intros t th r Ht Hid Hst. split.
    + assert (reload_witnessed w fid (w, threads)) as Hw0.
      { split; [done |]. split; [by left |]. split; [done |].
        eapply Forall_impl; [exact Hstart |].
        intros th0 Hs0 _. rewrite Hs0. simpl. lia. }
      pose proof (run_schedule_reload_witnessed w fid schedule _
                    Hclock Hmiss Hw0) as (_ & _ & _ & Hall).
      fold sys' in Hall.
      pose proof (Forall_lookup_1 _ _ _ _ Hall Ht) as Hth.
      cbv beta in Hth. rewrite Hst in Hth. simpl in Hth.
      specialize (Hth Hid). subst reloads. cbv beta. fold sys'. lia.
    + assert (cohort_ok w fid (w, threads)) as Hok0.
      { split; [split; [done | split; [done | by left]] |].
        eapply Forall_impl; [exact Hcallers |].
        intros th0 [Hf0 Hs0] Hid0. rewrite <- Hid0. split; [done |].
        by rewrite Hs0. }
      pose proof (run_schedule_cohort w fid schedule _ Hclock Hmiss Hok0)
        as [_ Hall].
      fold sys' in Hall.
      pose proof (Forall_lookup_1 _ _ _ _ Hall Ht) as Hth.
      destruct (Hth Hid) as [_ Hr]. by rewrite Hst in Hr.
  - intros t Hlt Hturns.
    destruct (lookup_lt_is_Some_2 threads t Hlt) as [th0 Ht0].
    destruct (run_schedule_progress t schedule (w, threads) th0 Ht0)
      as (th & Ht & _ & _ & Hseg).
    pose proof (Forall_lookup_1 _ _ _ _ Hstart Ht0) as Hs0.
    cbv beta in Hs0. rewrite Hs0 in Hseg. simpl in Hseg. exists th.
    destruct (th_stage th) as [| |known|r]; simpl in Hseg; try lia.
    by exists r.
  - intros s1 s2 t (th0 & Ht0 & Hid0) Hs1 Hs2 Hwin. subst reloads.
    cbv beta. rewrite run_schedule_snoc.
    set (sys2 := run_schedule (s1 ++ t :: s2) (w, threads)).
    destruct (run_schedule_progress t (s1 ++ t :: s2) (w, threads) th0 Ht0)
      as (th & Ht & Hid & Hf & _).
    fold sys2 in Ht.
    assert (th_stage th = AtQuery) as Hst.
    { subst sys2. change (s1 ++ t :: s2) with (s1 ++ [t] ++ s2) in Ht.
      rewrite app_assoc, run_schedule_app in Ht.
      destruct (run_schedule_lookup s2 _ t th Ht) as (th1 & Ht1 & _ & _ & Heq).
      rewrite (Heq Hs2).
      destruct (run_schedule_before_writes w fid threads (s1 ++ [t])
                  Hclock Hmiss Hstart) as (_ & _ & _ & Hstages).
      { intros t' th' Ht' Hid'. rewrite turns_snoc.
        destruct (decide (t = t')) as [<- | Hne].
        - rewrite (turns_not_elem t s1) by done. lia.
        - pose proof (Hwin t' (ex_intro _ th' (conj Ht' Hid'))). lia. }
      assert (th_ficha_id th1 = fid) as Hid1.
      { destruct (run_schedule_lookup (s1 ++ [t]) _ t th1 Ht1)
          as (th2 & Ht2 & Hid2 & _).
        cbn [snd] in Ht2. congruence. }
      specialize (Hstages t th1 Ht1 Hid1).
      rewrite turns_snoc, decide_True, (turns_not_elem t s1) in Hstages
        by done.
      destruct (th_stage th1); simpl in Hstages; (done || lia). }
    unfold sys_step. rewrite Ht. cbn [fst snd].
    rewrite stage_step_count, Hst, Hid, Hid0.
    rewrite bool_decide_eq_true_2 by done. lia.
  - intros Hall.
    destruct (run_schedule_before_writes w fid threads schedule
                Hclock Hmiss Hstart) as (_ & _ & Hcount & Hstages).
    { intros t th Ht Hid.
      rewrite (Hall t (ex_intro _ th (conj Ht Hid))). lia. }
    fold sys' in Hcount, Hstages.
    rewrite (queriers_callers fid threads Hstart) in Hcount.
    rewrite (queriers_none fid sys'.2) in Hcount.
    { subst reloads callers. cbv beta. fold sys'. lia. }
    intros t th Ht. unfold may_query.
    case_bool_decide as Hid; [| done]. simpl.
    specialize (Hstages t th Ht Hid).
    destruct (run_schedule_lookup schedule (w, threads) t th Ht)
      as (th0 & Ht0 & Hid0 & _).
    cbn [snd] in Ht0.
    rewrite (Hall t) in Hstages by (exists th0; split; congruence).
    destruct (th_stage th); simpl in Hstages; (done || lia).
Qed.

End Properties.


(** * The enrollment of a face *)

Section EnrollmentProperties.
Context `{Lib : FaceRecognitionLib} `{Enr : !EnrollmentLib}.

Lemma elem_of_stored_active_arrays w k :
  k ∈ stored_arrays (active_face_rows w) <->
  exists uid u fe,
    w_users w !! uid = Some u /\ face_encoding_data u = Some fe /\
    is_active fe = true /\ encoding_array fe = Some k.
Proof.
  unfold stored_arrays, active_face_rows.
  rewrite list_elem_of_omap. split.
  - intros (fe & Hfe & Hk).
    apply list_elem_of_omap in Hfe as ([uid u] & Hin & Hrow).
    apply elem_of_map_to_list in Hin. simpl in Hrow.
    destruct (face_encoding_data u) as [fe'|] eqn:Hfd; simpl in Hrow;
      [|done].
    destruct (is_active fe') eqn:Hact; simplify_eq. eauto 10.
  - intros (uid & u & fe & Hu & Hfd & Hact & Hk). exists fe.
    split; [|done]. apply list_elem_of_omap. exists (uid, u).
    split; [by apply elem_of_map_to_list|].
    simpl. rewrite Hfd. simpl. by rewrite Hact.
Qed.

Lemma np_any_le_distances known e t :
  np_any_le (map (fun k => face_distance1 k e) known) t = false <->
  forall k, k ∈ known -> float_le (face_distance1 k e) t = false.
Proof.
  unfold np_any_le. induction known as [|a known IH]; simpl.
  - split; [intros _ k Hk; inversion Hk | done].
  - rewrite orb_false_iff, IH. split.
    + intros [H1 H2] k Hk. apply elem_of_cons in Hk as [->|Hk]; auto.
    + intros H. split; [apply H; left | intros k Hk; apply H; by right].
Qed.

Lemma NoDup_all_equal {A} (l : list A) x :
  NoDup l -> x ∈ l -> (forall y, y ∈ l -> y = x) -> l = [x].
Proof.
  intros Hnd Hin Hall. destruct l as [|a l]; [inversion Hin|].
  assert (a = x) as -> by (apply Hall; left).
  destruct l as [|b l]; [done|].
  assert (b = x) as -> by (apply Hall; right; left).
  apply NoDup_cons in Hnd as [Hnotin _]. destruct Hnotin. left.
Qed.

Lemma fichas_numbered_one w numero :
  (exists row, fichas_numbered w numero = [row]) <->
  exists fid f,
    w_fichas w !! fid = Some f /\ numero_ficha f = numero /\
    forall fid' f', w_fichas w !! fid' = Some f' ->
                    numero_ficha f' = numero -> fid' = fid.
Proof.
  unfold fichas_numbered. split.
  - intros ([fid f] & Hrow).
    assert (forall p,
              p ∈ filter (fun p : Z * Ficha => numero_ficha p.2 = numero)
                    (map_to_list (w_fichas w)) <-> p = (fid, f)) as Hin.
    { intros p. rewrite Hrow. apply list_elem_of_singleton. }
    exists fid, f.
    pose proof (proj2 (Hin (fid, f)) eq_refl) as Hrow'.
    apply list_elem_of_filter in Hrow' as [Hn Hl].
    apply elem_of_map_to_list in Hl. repeat split; [done..|].
    intros fid' f' Hl' Hn'.
    assert ((fid', f') = (fid, f)) as [= -> _]; [|done].
    apply Hin, list_elem_of_filter. split; [done|].
    by apply elem_of_map_to_list.
  - intros (fid & f & Hl & Hn & Huniq). exists (fid, f).
    apply NoDup_all_equal.
    + apply NoDup_filter, NoDup_map_to_list.
    + apply list_elem_of_filter. split; [done|].
      by apply elem_of_map_to_list.
    + intros [fid' f'] [Hn' Hl']%list_elem_of_filter.
      apply elem_of_map_to_list in Hl'. simpl in Hn'.
      assert (fid' = fid) as -> by eauto. congruence.
Qed.

Lemma validate_accepted attrs w e l :
  RegisterStudentSerializer_validate attrs w = (Validated e, l) <->
  password attrs = password2 attrs /\
  (exists row, fichas_numbered w (ficha_numero attrs) = [row]) /\
  profile_encodings (face_image attrs) = Some [e] /\ l = NothingLogged /\
  (stored_arrays (active_face_rows w) = [] \/
   shapes_ok (stored_arrays (active_face_rows w)) e = true /\
   forall k, k ∈ stored_arrays (active_face_rows w) ->
             float_le (face_distance1 k e) duplicate_distance = false).
Proof.
  unfold RegisterStudentSerializer_validate, get_face_encoding_from_image,
    face_distance.
  split.
  - intros H. case_bool_decide as Hpw; [done|].
    destruct (fichas_numbered w (ficha_numero attrs)) as [|row [|]];
      [done| |done].
    destruct (profile_encodings (face_image attrs)) as [[|e' [|]]|];
      simpl in H; try done.
    destruct (active_face_rows w) as [|r rs] eqn:Hrows.
    { simplify_eq. eauto 10. }
    destruct (stored_arrays (r :: rs)) as [|k ks] eqn:Hknown.
    { simplify_eq. eauto 10. }
    destruct (shapes_ok (k :: ks) e') eqn:Hshape; [|done].
    destruct (np_any_le _ _) eqn:Hany; [done|]. simplify_eq.
    repeat split; eauto. right. split; [done|].
    by apply np_any_le_distances.
  - intros (Hpw & [row Hrow] & Himg & -> & Hknown).
    case_bool_decide; [done|]. rewrite Hrow, Himg.
    destruct (active_face_rows w) as [|r rs] eqn:Hrows; [done|].
    destruct (stored_arrays (r :: rs)) as [|k ks] eqn:Hk; [done|].
    destruct Hknown as [|[Hshape Hfar]]; [done|].
    rewrite Hshape. apply np_any_le_distances in Hfar. by rewrite Hfar.
Qed.

Lemma validate_duplicate attrs w l :
  RegisterStudentSerializer_validate attrs w =
    (Rejected FaceAlreadyRegistered, l) ->
  password attrs = password2 attrs /\
  exists row, fichas_numbered w (ficha_numero attrs) = [row].
Proof.
  unfold RegisterStudentSerializer_validate, get_face_encoding_from_image,
    face_distance.
  intros H. case_bool_decide as Hpw; [done|].
  destruct (fichas_numbered w (ficha_numero attrs)) as [|row [|]];
    [done| |done].
  eauto.
Qed.

Lemma set_face_active_false_active w uid uid' u' fe' :
  w_users (set_face_active uid false w) !! uid' = Some u' ->
  face_encoding_data u' = Some fe' ->
  is_active fe' = true ->
  uid' <> uid /\ w_users w !! uid' = Some u'.
Proof.
  unfold set_face_active. simpl. intros Hu Hfd Hact.
  destruct (decide (uid' = uid)) as [->|Hne].
  - rewrite lookup_alter_eq in Hu.
    destruct (w_users w !! uid) as [u|]; simplify_eq/=.
    destruct (face_encoding_data u); simplify_eq/=.
  - by rewrite lookup_alter_ne in Hu.
Qed.

(** X1. [get_face_encoding_from_image] answers an encoding exactly for an
    image in which the library finds one face, and then logs nothing; an
    image with no face or with several is answered [None] with a warning
    that gives their number, and a failure of the library is answered
    [None] with an error line: the function never raises. *)
Theorem profile_image_needs_exactly_one_face image_file :
  let r := get_face_encoding_from_image image_file in
  (forall e, r.1 = Some e <-> profile_encodings image_file = Some [e]) /\
  (r.2 = NothingLogged <-> is_Some r.1) /\
  (forall n, r.2 = WarnFaceCount n <->
     exists encodings, profile_encodings image_file = Some encodings /\
                       length encodings = n /\ n <> 1%nat) /\
  (r.2 = ErrorProcessingImage <-> profile_encodings image_file = None).
Proof.
  unfold get_face_encoding_from_image.
  destruct (profile_encodings image_file) as [[|e' [|e'' es]]|]; simpl;
    repeat split; intros;
    repeat match goal with
           | H : exists _, _ |- _ => destruct H
           | H : _ /\ _ |- _ => destruct H
           | H : is_Some _ |- _ => destruct H
           end;
    simplify_eq/=; eauto.
Qed.

(** X2. A registration is accepted exactly when the two passwords are
    equal, one ficha has the given number, the picture shows one face,
    and no active face-encoding row stores an array at distance at most
    0.5 of it; the accepted value is the encoding of that face. *)
Theorem registration_accepts_a_new_single_face attrs w e l :
  RegisterStudentSerializer_validate attrs w = (Validated e, l) <->
  password attrs = password2 attrs /\
  (exists fid f,
     w_fichas w !! fid = Some f /\ numero_ficha f = ficha_numero attrs /\
     forall fid' f', w_fichas w !! fid' = Some f' ->
                     numero_ficha f' = ficha_numero attrs -> fid' = fid) /\
  profile_encodings (face_image attrs) = Some [e] /\ l = NothingLogged /\
  (forall uid u fe k,
     w_users w !! uid = Some u -> face_encoding_data u = Some fe ->
     is_active fe = true -> encoding_array fe = Some k ->
     float_le (face_distance1 k e) duplicate_distance = false) /\
  (stored_arrays (active_face_rows w) = [] \/
   shapes_ok (stored_arrays (active_face_rows w)) e = true).
Proof.
  rewrite validate_accepted, fichas_numbered_one.
  split.
  - intros (Hpw & Hf & Himg & Hl & Hknown). repeat split; try done.
    + intros uid u fe k Hu Hfd Hact Hk.
      destruct Hknown as [Hnil|[_ Hfar]].
      * assert (k ∈ stored_arrays (active_face_rows w)) as Hin
          by (apply elem_of_stored_active_arrays; eauto 10).
        rewrite Hnil in Hin. inversion Hin.
      * apply Hfar, elem_of_stored_active_arrays. eauto 10.
    + destruct Hknown as [|[? _]]; auto.
  - intros (Hpw & Hf & Himg & Hl & Hfar & Hknown). repeat split; try done.
    destruct Hknown as [|Hshape]; [by left|]. right. split; [done|].
    intros k (uid & u & fe & ? & ? & ? & ?)%elem_of_stored_active_arrays.
    eauto.
Qed.

(** X3. Only active rows are compared: when a registration is refused as
    a face already registered and every active array of the users other
    than [uid] is farther than 0.5, the same registration is accepted
    once the row of [uid] is deactivated. *)
Theorem deactivating_a_face_frees_it attrs w uid e l :
  RegisterStudentSerializer_validate attrs w =
    (Rejected FaceAlreadyRegistered, l) ->
  profile_encodings (face_image attrs) = Some [e] ->
  (forall uid' u fe k,
     uid' <> uid ->
     w_users w !! uid' = Some u -> face_encoding_data u = Some fe ->
     is_active fe = true -> encoding_array fe = Some k ->
     float_le (face_distance1 k e) duplicate_distance = false) ->
  (let known :=
     stored_arrays (active_face_rows (set_face_active uid false w)) in
   known = [] \/ shapes_ok known e = true) ->
  RegisterStudentSerializer_validate attrs (set_face_active uid false w) =
    (Validated e, NothingLogged).
Proof.
  intros [Hpw Hf]%validate_duplicate Himg Hfar Hshape.
  apply validate_accepted. repeat split; try done.
  destruct Hshape as [|Hshape]; [by left|]. right. split; [done|].
  intros k Hk. apply elem_of_stored_active_arrays in Hk
    as (uid' & u' & fe' & Hu & Hfd & Hact & Hk).
  destruct (set_face_active_false_active _ _ _ _ _ Hu Hfd Hact) as [Hne Hu'].
  eauto.
Qed.

End EnrollmentProperties.

(** * Sessions and their records *)

Section CampusProperties.
Context `{Lib : FaceRecognitionLib} `{Env : Environment} `{Med : MediaStore}.

Lemma bulk_create_lookup session_id ids a a' s u :
  bulk_create session_id ids a = Some a' ->
  a' !! (s, u) =
    if bool_decide (s = session_id /\ u ∈ ids) then Some new_attendance
    else a !! (s, u).
Proof.
  unfold bulk_create. case_bool_decide as H; [|done]. intros [= <-].
  clear H. induction ids as [|i ids IH]; simpl.
  - rewrite bool_decide_eq_false_2; [done|]. intros [_ H]. inversion H.
  - destruct (decide ((s, u) = (session_id, i))) as [[= -> ->]|Hne].
    + rewrite lookup_insert_eq, bool_decide_eq_true_2; [done|].
      split; [done|left].
    + rewrite lookup_insert_ne by done. rewrite IH.
      repeat case_bool_decide; try done; exfalso.
      * destruct H as [-> Hin]. apply H0. split; [done|by right].
      * destruct H0 as [-> Hin]. apply elem_of_cons in Hin as [->|Hin];
          [done|]. by apply H.
Qed.

Lemma perform_create_created user new_id data c c' :
  SessionViewSet_perform_create user new_id data c = (None, c') ->
  exists f a,
    w_fichas (c_world c) !! sd_ficha data = Some f /\
    instructs c user (sd_ficha data) = true /\
    w_sessions (c_world c) !! new_id = None /\
    slot_taken data (w_sessions (c_world c)) = false /\
    bulk_create new_id (student_rows (c_world c) f).*1
                (w_attendance (c_world c)) = Some a /\
    c' = with_world
           (with_attendance a
              (with_sessions
                 (<[new_id := new_session data]> (w_sessions (c_world c)))
                 (c_world c))) c.
Proof.
  unfold SessionViewSet_perform_create. intros H.
  destruct (w_fichas (c_world c) !! sd_ficha data) as [f|]; [|done].
  destruct (instructs c user (sd_ficha data)); [|done]. simpl in H.
  case_bool_decide as Hid; [done|].
  destruct (slot_taken data (w_sessions (c_world c))) eqn:Hslot; [done|].
  simpl in H.
  change (student_rows (with_sessions _ _) f)
    with (student_rows (c_world c) f) in H.
  change (w_attendance (with_sessions _ _))
    with (w_attendance (c_world c)) in H.
  destruct (bulk_create _ _ _) as [a|] eqn:Hbulk; [|done].
  exists f, a. repeat split; try done.
  - by apply eq_None_not_Some.
  - by injection H.
Qed.

(** X4. A session that is created gets one record per student enrolled
    in its ficha, each absent, without check-in time and not verified by
    face; the session row holds the ficha and the tolerance given; no
    other attendance record and no other table changes. *)
Theorem session_creation_records_every_student_absent
    user new_id data c c' :
  SessionViewSet_perform_create user new_id data c = (None, c') ->
  exists f,
    w_fichas (c_world c) !! sd_ficha data = Some f /\
    w_sessions (c_world c') =
      <[new_id := new_session data]> (w_sessions (c_world c)) /\
    (forall session_id student_id,
       w_attendance (c_world c') !! (session_id, student_id) =
         if bool_decide (session_id = new_id /\
                         student_id ∈ (student_rows (c_world c) f).*1)
         then Some new_attendance
         else w_attendance (c_world c) !! (session_id, student_id)) /\
    w_users (c_world c') = w_users (c_world c) /\
    w_fichas (c_world c') = w_fichas (c_world c) /\
    c_instructors c' = c_instructors c /\ c_excuses c' = c_excuses c.
Proof.
  intros (f & a & Hf & _ & _ & _ & Hbulk & ->)%perform_create_created.
  exists f. repeat split; try done.
  intros session_id student_id. simpl.
  by apply bulk_create_lookup.
Qed.

(** X5. A call of [perform_create] that raises has written no attendance
    record; it reaches the [raise] of line 286 exactly when the user is
    not among the instructors of the ficha, the exception raised there
    is [AttributeError] and not [PermissionDenied], and then no table has
    changed; only a constraint of the database can leave a session
    without records behind. *)
Theorem failed_session_creation_writes_no_record
    user new_id data c e c' :
  SessionViewSet_perform_create user new_id data c = (Some e, c') ->
  w_attendance (c_world c') = w_attendance (c_world c) /\
  (e = SessionAttributeError <->
   is_Some (w_fichas (c_world c) !! sd_ficha data) /\
   instructs c user (sd_ficha data) = false) /\
  (e <> SessionIntegrityError -> c' = c).
Proof.
  unfold SessionViewSet_perform_create. intros H.
  destruct (w_fichas (c_world c) !! sd_ficha data) as [f|].
  - destruct (instructs c user (sd_ficha data)); simpl in H.
    + destruct (_ || _); simplify_eq.
      * repeat split; try done. by intros [_ ?].
      * destruct (bulk_create _ _ _); simplify_eq.
        repeat split; try done. by intros [_ ?].
    + simplify_eq. repeat split; eauto.
  - simplify_eq. repeat split; try done. by intros [[? ?] _].
Qed.

Lemma created_session_tables user new_id data c c' f :
  SessionViewSet_perform_create user new_id data c = (None, c') ->
  w_fichas (c_world c) !! sd_ficha data = Some f ->
  w_sessions (c_world c') !! new_id = Some (new_session data) /\
  w_users (c_world c') = w_users (c_world c) /\
  forall uid,
    w_attendance (c_world c') !! (new_id, uid) =
      if bool_decide (uid ∈ (student_rows (c_world c) f).*1)
      then Some new_attendance
      else w_attendance (c_world c) !! (new_id, uid).
Proof.
  intros (f' & a & Hf' & _ & _ & _ & Hbulk & ->)%perform_create_created Hf.
  simplify_eq. simpl. split; [by rewrite lookup_insert_eq|].
  split; [done|]. intros uid.
  rewrite (bulk_create_lookup _ _ _ _ new_id uid Hbulk).
  repeat case_bool_decide; try done; exfalso; tauto.
Qed.


Lemma evolves_after_requests requests : forall w,
  evolves w (after_requests requests w).
Proof.
  induction requests as [|r requests IH]; intros w; simpl.
  - reflexivity.
  - etrans; [apply (evolves_recognize r.1 r.2)|apply IH].
Qed.


(** X7. Records are made for the students enrolled when the session is
    created, and for them only: a user who is not among them has no
    record of the new session, and a face match for that user is logged
    as a missing record, without any other effect. *)
Theorem unenrolled_match_in_a_new_session_is_record_missing
    user new_id data c c' f sid rec :
  SessionViewSet_perform_create user new_id data c = (None, c') ->
  w_fichas (c_world c) !! sd_ficha data = Some f ->
  sid ∉ (student_rows (c_world c) f).*1 ->
  w_attendance (c_world c) !! (new_id, sid) = None ->
  w_attendance (c_world c') !! (new_id, sid) = None /\
  apply_face_verification new_id sid rec (c_world c') =
    (Val rec, emit (LogRecordMissing sid) (c_world c')).
Proof.
  intros Hcreate Hf Hsid Hnone.
  destruct (created_session_tables _ _ _ _ _ _ Hcreate Hf)
    as (_ & _ & Ha).
  assert (w_attendance (c_world c') !! (new_id, sid) = None) as Hnone'.
  { rewrite Ha. by rewrite bool_decide_eq_false_2. }
  split; [done|]. by apply apply_missing.
Qed.

Lemma check_ins_only_lookup a a' key :
  check_ins_only a a' ->
  match a !! key with
  | Some r =>
      exists r', a' !! key = Some r' /\
        (r' = r \/
         status r = absent /\ (status r' = present \/ status r' = late) /\
         verified_by_face r' = true /\ is_Some (check_in_time r'))
  | None => a' !! key = None
  end.
Proof.
  intros H. specialize (H key).
  destruct (a !! key), (a' !! key); try done. eauto.
Qed.

(** X8. The records of a session are those made at its creation: after
    any requests, for any sessions, a user has a record of the session
    exactly when enrolled in the ficha at its creation, and that record
    is still the initial one or a check-in verified by face; no request
    adds, removes or excuses a record. *)
Theorem requests_keep_the_records_of_a_session
    user new_id data c c' f requests uid :
  SessionViewSet_perform_create user new_id data c = (None, c') ->
  w_fichas (c_world c) !! sd_ficha data = Some f ->
  w_attendance (c_world c) !! (new_id, uid) = None ->
  let a := w_attendance (after_requests requests (c_world c')) in
  (is_Some (a !! (new_id, uid)) <->
   uid ∈ (student_rows (c_world c) f).*1) /\
  forall r, a !! (new_id, uid) = Some r ->
    r = new_attendance \/
    (status r = present \/ status r = late) /\
    verified_by_face r = true /\ is_Some (check_in_time r).
Proof.
  intros Hcreate Hf Hnone a.
  destruct (created_session_tables _ _ _ _ _ _ Hcreate Hf)
    as (_ & _ & Ha).
  pose proof (ev_attendance _ _ (evolves_after_requests requests (c_world c')))
    as Hev.
  apply (check_ins_only_lookup _ _ (new_id, uid)) in Hev.
  rewrite Ha in Hev. fold a in Hev.
  case_bool_decide as Hin.
  - destruct Hev as (r' & Hr' & Hcase). rewrite Hr'. split.
    + split; eauto.
    + intros r [= <-]. destruct Hcase as [->|(_ & ? & ? & ?)]; auto.
  - rewrite Hnone in Hev. rewrite Hev. split.
    + split; [by intros [? ?]|done].
    + done.
Qed.

(** ** Excuses *)

Lemma excuse_exists_false c student_id session_id :
  excuse_exists c student_id session_id = false <->
  forall e, e ∈ c_excuses c ->
            ~ (ex_student e = student_id /\ ex_session e = session_id).
Proof.
  unfold excuse_exists. induction (c_excuses c) as [|e l IH]; simpl.
  - split; [intros _ e He; inversion He|done].
  - rewrite orb_false_iff, IH, bool_decide_eq_false. split.
    + intros [H1 H2] e' [->|He']%elem_of_cons; auto.
    + intros H. split; [apply H; left|intros e' He'; apply H; by right].
Qed.

(** X9. An excuse reaches [save] exactly when the student is enrolled in
    the ficha of the session, has an attendance record of the session
    whose status is absent, and has no excuse for the session yet; it is
    then saved for the requesting user and that session. *)
Theorem excuse_is_saved_only_for_an_unexcused_absence
    user session_id c student_id session_id' :
  ExcuseViewSet_perform_create user session_id c =
    ExcuseSaved student_id session_id' <->
  student_id = ru_id user /\ session_id' = session_id /\
  exists fid f a,
    session_ficha_id (c_world c) session_id = Some fid /\
    w_fichas (c_world c) !! fid = Some f /\
    ru_id user ∈ (student_rows (c_world c) f).*1 /\
    w_attendance (c_world c) !! (session_id, ru_id user) = Some a /\
    status a = absent /\
    forall e, e ∈ c_excuses c ->
              ~ (ex_student e = ru_id user /\ ex_session e = session_id).
Proof.
  unfold ExcuseViewSet_perform_create.
  setoid_rewrite <- excuse_exists_false. split.
  - intros H.
    destruct (session_ficha_id (c_world c) session_id) as [fid|] eqn:Hfid;
      simpl in H; [|done].
    destruct (w_fichas (c_world c) !! fid) as [f|] eqn:Hf; [|done].
    case_bool_decide as Hin; simpl in H; [|done].
    destruct (w_attendance (c_world c) !! (session_id, ru_id user))
      as [a|] eqn:Ha; [|done].
    case_bool_decide as Hst; [done|].
    destruct (excuse_exists c (ru_id user) session_id) eqn:Hex; [done|].
    simplify_eq. repeat split; try done.
    exists fid, f, a. repeat split; done.
  - intros (-> & -> & fid & f & a & Hfid & Hf & Hin & Ha & Hst & Hex).
    rewrite Hfid. simpl. rewrite Hf, bool_decide_eq_true_2 by done.
    simpl. rewrite Ha, bool_decide_eq_false_2 by (by intros []).
    by rewrite Hex.
Qed.

(** X10. Excuses are for absences only: once the face verification has
    checked a student in (the start of the session plus its tolerance
    being a representable datetime), the excuse the student could file
    before is refused with the message that only missed sessions can be
    excused. *)
Theorem checked_in_student_cannot_file_an_excuse
    user session_id c s fid f a rec :
  w_sessions (c_world c) !! session_id = Some s ->
  ficha s = Some fid ->
  w_fichas (c_world c) !! fid = Some f ->
  ru_id user ∈ (student_rows (c_world c) f).*1 ->
  w_attendance (c_world c) !! (session_id, ru_id user) = Some a ->
  status a = absent ->
  grace_period_representable s = true ->
  excuse_exists c (ru_id user) session_id = false ->
  ExcuseViewSet_perform_create user session_id c =
    ExcuseSaved (ru_id user) session_id /\
  ExcuseViewSet_perform_create user session_id
    (with_world
       (apply_face_verification session_id (ru_id user) rec (c_world c)).2
       c) =
    ExcuseRefused NotAbsent.
Proof.
  intros Hs Hfid Hf Hin Ha Hst Hrep Hex. split.
  - unfold ExcuseViewSet_perform_create, session_ficha_id.
    rewrite Hs. simpl. rewrite Hfid. simpl.
    rewrite Hf, bool_decide_eq_true_2 by done. simpl.
    rewrite Ha, bool_decide_eq_false_2 by (by intros []). by rewrite Hex.
  - rewrite (apply_absent _ _ _ _ _ _ Hs Ha Hst Hrep). simpl.
    unfold ExcuseViewSet_perform_create, session_ficha_id. simpl.
    rewrite Hs. simpl. rewrite Hfid. simpl. rewrite Hf.
    change (student_rows (world_after_check_in _ _ _ _) f)
      with (student_rows (c_world c) f).
    rewrite bool_decide_eq_true_2 by done. simpl.
    rewrite lookup_insert_eq. simpl.
    rewrite bool_decide_eq_true_2; [done|].
    destruct (new_status_cases s (clock (w_tick (c_world c)))) as [->| ->];
      done.
Qed.

Lemma created_session_other_tables user new_id data c c' :
  SessionViewSet_perform_create user new_id data c = (None, c') ->
  w_fichas (c_world c') = w_fichas (c_world c) /\
  c_instructors c' = c_instructors c /\ c_excuses c' = c_excuses c.
Proof.
  by intros (f & a & _ & _ & _ & _ & _ & ->)%perform_create_created.
Qed.

(** X11. Every student enrolled in the ficha can file an excuse for a
    session as soon as it is created, provided none is on file. *)
Theorem enrolled_student_may_excuse_a_new_session
    user new_id data c c' f student :
  SessionViewSet_perform_create user new_id data c = (None, c') ->
  w_fichas (c_world c) !! sd_ficha data = Some f ->
  ru_id student ∈ (student_rows (c_world c) f).*1 ->
  excuse_exists c (ru_id student) new_id = false ->
  ExcuseViewSet_perform_create student new_id c' =
    ExcuseSaved (ru_id student) new_id.
Proof.
  intros Hcreate Hf Hin Hex.
  destruct (created_session_tables _ _ _ _ _ _ Hcreate Hf)
    as (Hs & Hu & Ha).
  destruct (created_session_other_tables _ _ _ _ _ Hcreate)
    as (Hfs & _ & Hexc).
  unfold ExcuseViewSet_perform_create, session_ficha_id, excuse_exists,
    student_rows in *.
  rewrite Hs, Hfs, Hu, Hexc. simpl. rewrite Hf.
  rewrite bool_decide_eq_true_2 by done. simpl.
  rewrite Ha, bool_decide_eq_true_2 by done.
  rewrite bool_decide_eq_false_2 by (by intros []).
  by rewrite Hex.
Qed.

(** ** Who lists which record *)

(** X12. For an instructor, the lists agree with the object permission:
    the sessions listed are the sessions on which [IsInstructorOfFicha]
    grants the object permission, and the attendance records listed are
    the records on which it does. *)
Theorem instructor_lists_what_the_permission_grants
    c user session_id student_id :
  ru_role user = "instructor"%string ->
  (forall s,
     SessionViewSet_get_queryset c user !! session_id = Some s <->
     w_sessions (c_world c) !! session_id = Some s /\
     IsInstructorOfFicha_has_object_permission c user
       (ObjSession session_id) = true) /\
  (forall a,
     AttendanceLogViewSet_get_queryset c user !! (session_id, student_id)
       = Some a <->
     w_attendance (c_world c) !! (session_id, student_id) = Some a /\
     IsInstructorOfFicha_has_object_permission c user
       (ObjAttendance session_id student_id) = true).
Proof.
  intros Hrole.
  unfold SessionViewSet_get_queryset, AttendanceLogViewSet_get_queryset.
  rewrite Hrole. simpl. split.
  - intros s. by rewrite map_lookup_filter_Some.
  - intros a. by rewrite map_lookup_filter_Some.
Qed.

Lemma evolves_is_Some_attendance w w' key :
  evolves w w' ->
  is_Some (w_attendance w' !! key) <-> is_Some (w_attendance w !! key).
Proof.
  intros Hev. pose proof (ev_attendance _ _ Hev key) as H.
  destruct (w_attendance w !! key), (w_attendance w' !! key);
    try done; split; intros [? ?]; done || eauto.
Qed.

Lemma is_Some_filter_transfer {K A} `{Countable K}
    (P Q : K * A -> Prop) `{forall x, Decision (P x)}
    `{forall x, Decision (Q x)} (m m' : gmap K A) k :
  (is_Some (m' !! k) <-> is_Some (m !! k)) ->
  (forall x y, P (k, x) <-> Q (k, y)) ->
  is_Some (filter P m' !! k) <-> is_Some (filter Q m !! k).
Proof.
  intros Hdom HPQ. split.
  - intros [x [Hx HP]%map_lookup_filter_Some].
    destruct (proj1 Hdom (mk_is_Some _ _ Hx)) as [y Hy]. exists y.
    apply map_lookup_filter_Some. split; [done|]. by apply (HPQ x y).
  - intros [y [Hy HQ]%map_lookup_filter_Some].
    destruct (proj2 Hdom (mk_is_Some _ _ Hy)) as [x Hx]. exists x.
    apply map_lookup_filter_Some. split; [done|]. by apply (HPQ x y).
Qed.

(** X13. Recognition requests never change which attendance records a
    user lists: whatever the role, a record is in the list after any
    requests exactly when it was before. *)
Theorem requests_do_not_change_who_lists_a_record c user requests key :
  is_Some (AttendanceLogViewSet_get_queryset
             (with_world (after_requests requests (c_world c)) c) user
           !! key) <->
  is_Some (AttendanceLogViewSet_get_queryset c user !! key).
Proof.
  pose proof (evolves_after_requests requests (c_world c)) as Hev.
  pose proof (evolves_is_Some_attendance _ _ key Hev) as Hdom.
  pose proof (ev_sessions _ _ Hev) as Hs.
  unfold AttendanceLogViewSet_get_queryset. simpl.
  case_bool_decide.
  - by apply is_Some_filter_transfer.
  - case_bool_decide; [|done].
    apply is_Some_filter_transfer; [done|]. intros x y. simpl.
    unfold session_instructed_by, session_ficha_id, instructs. simpl.
    by rewrite Hs.
Qed.

(** X14. The face verification of an absent record removes exactly that
    absence from the lists of absences when the start of the session
    plus its tolerance is a representable datetime: the student checked
    in no longer lists the session, and the list of every other user is
    unchanged. When it is not representable nothing is written and
    every list stays as it is. *)
Theorem check_in_removes_the_absence user session_id sid s a rec w :
  w_sessions w !! session_id = Some s ->
  w_attendance w !! (session_id, sid) = Some a ->
  status a = absent ->
  ListAbsencesView_get_queryset
    (apply_face_verification session_id sid rec w).2 user =
  if grace_period_representable s
  then delete (session_id, sid) (ListAbsencesView_get_queryset w user)
  else ListAbsencesView_get_queryset w user.
Proof.
  intros Hs Ha Hst. rewrite (apply_absent_cases _ _ _ _ _ _ Hs Ha Hst).
  destruct (grace_period_representable s); simpl; [|done].
  unfold ListAbsencesView_get_queryset. simpl.
  case_bool_decide; [by rewrite delete_empty|].
  rewrite map_filter_insert_False, map_filter_delete; [done|].
  simpl. intros [_ Hab].
  destruct (new_status_cases s (clock (w_tick w))) as [Hn|Hn];
    rewrite Hn in Hab; done.
Qed.

(** ** Protected documents *)

Lemma prefix_app sub s : String.prefix sub (sub ++ s)%string = true.
Proof.
  induction sub as [|a sub IH]; simpl; [by destruct s|].
  by destruct (Ascii.ascii_dec a a).
Qed.

Lemma str_contains_unfold sub s :
  str_contains sub s =
    if String.prefix sub s then true
    else match s with
         | EmptyString => false
         | String _ s' => str_contains sub s'
         end.
Proof. by destruct s. Qed.

Lemma str_contains_app sub a b :
  str_contains sub (a ++ sub ++ b)%string = true.
Proof.
  induction a as [|x a IH].
  - change (str_contains sub (sub ++ b)%string = true).
    by rewrite str_contains_unfold, prefix_app.
  - change (str_contains sub (String x (a ++ sub ++ b)%string) = true).
    rewrite str_contains_unfold.
    by destruct (String.prefix sub _).
Qed.

(** X15. No path with [..] in it is served: the answer is 404 whoever
    asks and whatever the tables and the file store hold. *)
Theorem path_with_dot_dot_is_not_found user a b c :
  protected_media_view user (a ++ ".." ++ b)%string c = MediaNotFound.
Proof.
  unfold protected_media_view. by rewrite str_contains_app.
Qed.

(** X16. A document is served only to a user who lists its excuse: the
    path asked has no [..] in it and is the document of an excuse in the
    user's own list of excuses, so a student gets the documents of the
    own excuses only and an instructor those of the fichas instructed.
    The file served is the one at [os.path.join(MEDIA_ROOT, path)], which
    exists: it lies under [MEDIA_ROOT] when the path asked does not start
    with a slash; a path that starts with a slash is served as it is,
    [MEDIA_ROOT] being dropped. *)
Theorem document_is_served_to_who_lists_its_excuse
    user file_path c full_path :
  protected_media_view user file_path c = MediaServed full_path ->
  full_path = os_path_join MEDIA_ROOT file_path /\
  path_exists full_path = true /\
  str_contains ".." file_path = false /\
  (if String.prefix "/" file_path then full_path = file_path
   else String.prefix MEDIA_ROOT full_path = true) /\
  exists excuse,
    excuse ∈ ExcuseViewSet_get_queryset c user /\
    ex_document excuse = file_path /\
    (ru_role user = "student"%string -> ex_student excuse = ru_id user) /\
    (ru_role user = "instructor"%string ->
     session_instructed_by c user (ex_session excuse) = true).
Proof.
  unfold protected_media_view, ExcuseViewSet_get_queryset. intros H.
  destruct (str_contains ".." file_path) eqn:Hdots; [done|].
  destruct (filter _ (c_excuses c)) as [|excuse [|]] eqn:Hf; [done| |done].
  assert (excuse ∈ c_excuses c /\ ex_document excuse = file_path)
    as [Hin Hdoc].
  { assert (excuse ∈ filter (fun e => ex_document e = file_path)
                       (c_excuses c)) as Hx by (rewrite Hf; left).
    apply list_elem_of_filter in Hx as [? ?]. done. }
  set (joined := os_path_join MEDIA_ROOT file_path) in *.
  assert (forall r, (if negb (path_exists joined) then MediaNotFound
                     else if can_open joined then MediaServed joined
                          else MediaUncaught) = MediaServed r ->
                    r = joined /\ path_exists joined = true) as Hopen.
  { intros r Hr. destruct (path_exists _); [|done]. simpl in Hr.
    destruct (can_open _); [|done]. by injection Hr as <-. }
  assert (if String.prefix "/" file_path then joined = file_path
          else String.prefix MEDIA_ROOT joined = true) as Hunder.
  { subst joined. unfold os_path_join.
    destruct (String.prefix "/" file_path); [done|].
    destruct (_ || _); apply prefix_app. }
  case_bool_decide as Hstudent; simpl in H.
  - case_bool_decide as Howner; [done|]. simpl in H.
    rewrite bool_decide_eq_false_2 in H by (rewrite Hstudent; done).
    apply Hopen in H as [-> Hex]. do 4 (split; [done|]).
    exists excuse. rewrite bool_decide_eq_false_2 by (rewrite Hstudent; done).
    repeat split; try done.
    + by apply list_elem_of_filter.
    + by rewrite Hstudent.
  - case_bool_decide as Hinstr.
    + unfold session_instructed_by.
      destruct (session_ficha_id (c_world c) (ex_session excuse))
        as [fid|] eqn:Hfid; [|done].
      destruct (instructs c user fid) eqn:Hi; [|done]. simpl in H.
      apply Hopen in H as [-> Hex]. do 4 (split; [done|]).
      exists excuse. repeat split; try done.
      * apply list_elem_of_filter. by rewrite Hfid.
      * by rewrite Hfid.
    + apply Hopen in H as [-> Hex]. do 4 (split; [done|]).
      exists excuse. repeat split; done.
Qed.

(** ** The rest of a recognition request *)

#[local] Instance processing_frame_preorder session_id :
  PreOrder (processing_frame session_id).
Proof.
  split.
  - by intros w.
  - intros w1 w2 w3 (Ha & Hq & Hc) (Ha' & Hq' & Hc'). repeat split.
    + intros key Hk. by rewrite Ha', Ha.
    + intros fid. by rewrite Hq', Hq.
    + by rewrite Hc', Hc.
Qed.

Lemma processing_frame_emit session_id e w :
  (forall fid, e <> CallStudentsQuery fid) ->
  processing_frame session_id w (emit e w).
Proof.
  intros He. repeat split; simpl; try done.
  intros fid. rewrite count_queries_snoc, bool_decide_eq_false_2; [lia|].
  apply He.
Qed.

Lemma processing_frame_apply session_id sid rec w :
  processing_frame session_id w
    (apply_face_verification session_id sid rec w).2.
Proof.
  destruct (w_attendance w !! (session_id, sid)) as [a|] eqn:Ha.
  - destruct (decide (status a = absent)) as [Hst|Hst].
    + destruct (w_sessions w !! session_id) as [s|] eqn:Hs.
      * rewrite (apply_absent_cases _ _ _ _ _ _ Hs Ha Hst).
        destruct (grace_period_representable s);
          [|by apply (processing_frame_emit _ _ w)].
        unfold world_after_check_in.
        split; [|split]; simpl; [| |done].
        -- intros key Hk. rewrite lookup_insert_ne; [done|].
           intros <-. by apply Hk.
        -- intros fid. rewrite !count_queries_snoc.
           rewrite !bool_decide_eq_false_2 by done. lia.
      * rewrite (apply_absent_no_session _ _ _ _ _ Hs Ha Hst).
        by apply processing_frame_emit.
    + rewrite (apply_recorded _ _ _ _ _ Ha Hst). simpl.
      etrans; by apply processing_frame_emit.
  - rewrite (apply_missing _ _ _ _ Ha). by apply processing_frame_emit.
Qed.

Lemma processing_frame_process_face session_id known ids tol n i enc rec :
  preserves (processing_frame session_id)
    (process_face session_id known ids tol n i enc rec).
Proof.
  intros w.
  pose proof (process_face_cases session_id known ids tol n i enc rec w) as H.
  simpl in H.
  assert (processing_frame session_id w (emit (LogProcessing (S i) n) w))
    as H0 by (by apply processing_frame_emit).
  destruct (matched_indices _) as [|ix [|ix2 ixs]].
  - destruct known; rewrite H; simpl; [done |].
    etrans; [exact H0 | by apply processing_frame_emit].
  - destruct (ids !! ix) as [sid|]; [| by rewrite H].
    case_bool_decide; rewrite H.
    + etrans; [exact H0 | by apply processing_frame_emit].
    + etrans; [exact H0 |].
      etrans; [|apply processing_frame_apply].
      by apply processing_frame_emit.
  - destruct (mapM _ _); rewrite H; simpl; [| done].
    etrans; [exact H0 | by apply processing_frame_emit].
Qed.

Lemma processing_frame_process_faces session_id known ids tol n encs :
  forall i rec,
  preserves (processing_frame session_id)
    (process_faces session_id known ids tol n i encs rec).
Proof.
  induction encs as [|enc encs IH]; intros i rec; simpl.
  - by apply preserves_ret, _.
  - apply preserves_bind;
      [apply _ | apply processing_frame_process_face |].
    intros rec'. apply IH.
Qed.

Lemma processing_frame_process_stream img session_id settings known :
  preserves (processing_frame session_id)
    (process_stream img session_id settings known).
Proof.
  intros w.
  pose proof (process_stream_cases img session_id settings known w) as H.
  cbv zeta in H.
  assert (processing_frame session_id w (emit CallDetect w)) as H0
    by (by apply processing_frame_emit).
  destruct (detect img _) as [[|enc encs]|]; rewrite H; [| | done].
  - etrans; [exact H0 | by apply processing_frame_emit].
  - change (length (enc :: encs)) with (S (length encs)).
    pose proof (processing_frame_process_faces session_id known.1 known.2
                  (confidence_threshold settings) (S (length encs))
                  (enc :: encs) 0 []
                  (emit (LogDetected (S (length encs))) (emit CallDetect w)))
      as Hp.
    destruct (process_faces _ _ _ _ _ _ _ _ _) as [[rec|r|e] w'];
      simpl in *; (etrans; [exact H0 |]);
      (etrans; [| exact Hp]); by apply processing_frame_emit.
Qed.

Lemma load_known_encodings_queries fid f w fid' :
  count_queries fid' (w_trace (load_known_encodings fid f w).2) =
    (count_queries fid' (w_trace w) +
     match cache_lookup (w_cache w) (clock (w_tick w)) fid with
     | Some _ => 0
     | None => if bool_decide (fid' = fid) then 1 else 0
     end)%nat.
Proof.
  destruct (cache_lookup (w_cache w) (clock (w_tick w)) fid) as [data|]
    eqn:Hc.
  - rewrite (load_known_encodings_hit _ _ _ _ Hc). simpl.
    rewrite count_queries_snoc, bool_decide_eq_false_2 by done. lia.
  - destruct (load_known_encodings_miss fid f w Hc)
      as (w1 & _ & Ht & ->).
    assert (count_queries fid' (w_trace w1) =
            (count_queries fid' (w_trace w) +
             if bool_decide (fid' = fid) then 1 else 0)%nat) as Hq.
    { rewrite Ht, !count_queries_app, count_queries_warnings.
      unfold count_queries at 2. rewrite !filter_cons, filter_nil.
      repeat case_decide; repeat case_bool_decide; simplify_eq; simpl;
        lia. }
    destruct ((active_pairs w f).*2); simpl;
      rewrite count_queries_snoc, bool_decide_eq_false_2 by done;
      rewrite Hq; lia.
Qed.

(** The world once the known set is loaded, and what the rest of the
    request does to it. *)
Lemma recognize_after_load img session_id w fid f :
  ficha_of w session_id = Some (fid, f) ->
  let w1 :=
    (load_known_encodings fid f
       (emit LogThreshold (emit (LogStart session_id) w))).2 in
  processing_frame session_id w1
    (recognize_faces_in_stream img session_id w).2.
Proof.
  intros Hf. unfold recognize_faces_in_stream.
  rewrite recognize_body_cases, Hf. unfold mbind, M_bind.
  destruct (load_known_encodings fid f _) as [[known|r|e] w1]; simpl.
  - pose proof (processing_frame_process_stream img session_id
                  (w_settings w) known w1) as Hp.
    destruct (process_stream _ _ _ _ _) as [[r|r|[]] w']; simpl in *;
      try exact Hp; (etrans; [exact Hp|by apply processing_frame_emit]).
  - reflexivity.
  - destruct e; by apply processing_frame_emit.
Qed.

Lemma recognize_other_session img session_id w key :
  key.1 <> session_id ->
  w_attendance (recognize_faces_in_stream img session_id w).2 !! key =
    w_attendance w !! key.
Proof.
  intros Hk. destruct (ficha_of w session_id) as [[fid f]|] eqn:Hf.
  - destruct (recognize_after_load img session_id w fid f Hf) as (Ha & _).
    rewrite (Ha key Hk).
    by destruct (load_known_encodings_attendance fid f
                   (emit LogThreshold (emit (LogStart session_id) w)))
      as [-> _].
  - unfold recognize_faces_in_stream. by rewrite recognize_body_cases, Hf.
Qed.

(** X17. A request for a session that does not exist, has no ficha, or
    whose ficha is gone answers with the error of a session without
    ficha; it reads neither clock nor cache, runs no detection and
    changes nothing but the log. *)
Theorem session_without_ficha_is_only_logged img session_id w :
  ficha_of w session_id = None ->
  recognize_faces_in_stream img session_id w =
    (ErrorResponse SessionWithoutFicha,
     emit (LogNoFicha session_id)
       (emit LogThreshold (emit (LogStart session_id) w))).
Proof.
  intros Hf. unfold recognize_faces_in_stream.
  by rewrite recognize_body_cases, Hf.
Qed.

(** X18. A request in whose image no face is found, or on whose image
    the library fails, changes no attendance record and is answered with
    an error, never with a list of students: the error of a session
    without ficha exactly when the session has none; otherwise that of
    an empty roster, that of no face detected, only when the detection
    ran and found none, or the unexpected error, only when the library
    failed. *)
Theorem frame_without_faces_changes_no_record img session_id w :
  (forall enc encs,
     detect img (face_detection_model (w_settings w)) <>
       Some (enc :: encs)) ->
  let r := recognize_faces_in_stream img session_id w in
  w_attendance r.2 = w_attendance w /\
  exists e,
    r.1 = ErrorResponse e /\
    (e = SessionWithoutFicha <-> ficha_of w session_id = None) /\
    (e = NoFaceDetected ->
     detect img (face_detection_model (w_settings w)) = Some []) /\
    (e = UnexpectedError ->
     detect img (face_detection_model (w_settings w)) = None).
Proof.
  intros Hd. unfold recognize_faces_in_stream.
  rewrite recognize_body_cases.
  destruct (ficha_of w session_id) as [[fid f]|] eqn:Hf; simpl.
  - set (w0 := emit LogThreshold (emit (LogStart session_id) w)).
    pose proof (load_known_encodings_result fid f w0) as Hres.
    destruct (load_known_encodings_attendance fid f w0) as [Hatt _].
    unfold mbind, M_bind.
    destruct (load_known_encodings fid f w0) as [[known|r|e] w1];
      simpl in *; [| |done].
    + pose proof (process_stream_cases img session_id (w_settings w)
                    known w1) as Hp.
      cbv zeta in Hp.
      destruct (detect img (face_detection_model (w_settings w)))
        as [[|enc encs]|] eqn:Hdet; [| by destruct (Hd enc encs) |];
        rewrite Hp; simpl; (split; [done|]).
      * exists NoFaceDetected. repeat split; done.
      * exists UnexpectedError. repeat split; done.
    + subst r. split; [done|]. exists NoActiveFaces. repeat split; done.
  - split; [done|]. exists SessionWithoutFicha. repeat split; done.
Qed.

(** X19. Requests change the records of their own session only: the
    record of a session is the same after any requests made for other
    sessions. *)
Theorem requests_change_records_of_their_session_only requests : forall w key,
  Forall (fun r : image * Z => r.2 <> key.1) requests ->
  w_attendance (after_requests requests w) !! key = w_attendance w !! key.
Proof.
  induction requests as [|r requests IH]; intros w key Hall; [done|].
  apply Forall_cons in Hall as [Hr Hall]. simpl.
  rewrite (IH _ key Hall). apply recognize_other_session. congruence.
Qed.

(** X20. A request served from the cache queries no roster and leaves
    the cache as it is: a hit does not renew the entry, which expires
    one hour after it was written however often it is used. *)
Theorem cache_hit_neither_reloads_nor_renews img session_id w fid f data :
  ficha_of w session_id = Some (fid, f) ->
  cache_lookup (w_cache w) (clock (w_tick w)) fid = Some data ->
  let w' := (recognize_faces_in_stream img session_id w).2 in
  w_cache w' = w_cache w /\
  forall fid', count_queries fid' (w_trace w') = count_queries fid' (w_trace w).
Proof.
  intros Hf Hc w'.
  destruct (recognize_after_load img session_id w fid f Hf)
    as (_ & Hq & Hcache).
  fold w' in Hq, Hcache.
  set (w0 := emit LogThreshold (emit (LogStart session_id) w)) in *.
  split.
  - rewrite Hcache, load_known_encodings_cache.
    change (w_cache w0) with (w_cache w).
    change (w_tick w0) with (w_tick w). by rewrite Hc.
  - intros fid'. rewrite Hq, load_known_encodings_queries.
    change (w_cache w0) with (w_cache w).
    change (w_tick w0) with (w_tick w). rewrite Hc. simpl.
    rewrite !count_queries_snoc, !bool_decide_eq_false_2 by done. lia.
Qed.

(** X21. A request that misses the cache queries the roster of its ficha
    once and no other roster; when the roster has a valid active
    encoding, the known set is cached and served until one hour after
    the instant of the write, and no longer. *)
Theorem cache_miss_reloads_once_for_one_hour img session_id w fid f :
  ficha_of w session_id = Some (fid, f) ->
  cache_lookup (w_cache w) (clock (w_tick w)) fid = None ->
  let w' := (recognize_faces_in_stream img session_id w).2 in
  (forall fid',
     count_queries fid' (w_trace w') =
       (count_queries fid' (w_trace w) +
        if bool_decide (fid' = fid) then 1 else 0)%nat) /\
  ((active_pairs w f).*2 <> [] ->
   forall now,
     cache_lookup (w_cache w') now fid =
       if bool_decide (now < clock (S (w_tick w)) + 3600 * 1000000)
       then Some ((active_pairs w f).*2, (active_pairs w f).*1)
       else None).
Proof.
  intros Hf Hc w'.
  destruct (recognize_after_load img session_id w fid f Hf)
    as (_ & Hq & Hcache).
  fold w' in Hq, Hcache.
  set (w0 := emit LogThreshold (emit (LogStart session_id) w)) in *.
  split.
  - intros fid'. rewrite Hq, load_known_encodings_queries.
    change (w_cache w0) with (w_cache w).
    change (w_tick w0) with (w_tick w). rewrite Hc. simpl.
    rewrite !count_queries_snoc, !bool_decide_eq_false_2 by done. lia.
  - intros Hne now. rewrite Hcache, load_known_encodings_cache.
    change (w_cache w0) with (w_cache w).
    change (w_tick w0) with (w_tick w).
    change (active_pairs w0 f) with (active_pairs w f). rewrite Hc.
    destruct ((active_pairs w f).*2) as [|k ks] eqn:Hk; [done|].
    unfold cache_lookup. rewrite lookup_insert_eq. simpl.
    by rewrite <- Hk.
Qed.

(** ** Requests served from the cache do not look at the enrollment *)

Lemma same_but_enrollment_emit e w1 w2 :
  same_but_enrollment w1 w2 -> same_but_enrollment (emit e w1) (emit e w2).
Proof.
  intros (? & ? & ? & ? & ? & Ht & Hn & Hf).
  repeat split; simpl; try done; [by rewrite Ht | apply Hf | apply Hf].
Qed.

Lemma same_but_enrollment_tick w1 w2 :
  same_but_enrollment w1 w2 -> same_but_enrollment (tick w1) (tick w2).
Proof.
  intros (? & ? & ? & ? & Ht & ? & Hn & Hf).
  repeat split; simpl; rewrite ?Ht; try done; apply Hf.
Qed.

Lemma enrollment_blind_ret {A} (a : A) : enrollment_blind (mret a).
Proof. by intros w1 w2 H. Qed.

Lemma enrollment_blind_raise {A} e : enrollment_blind (@raise _ A e).
Proof. by intros w1 w2 H. Qed.

Lemma enrollment_blind_return {A} r : enrollment_blind (@return_ _ A r).
Proof. by intros w1 w2 H. Qed.

Lemma enrollment_blind_log e : enrollment_blind (log e).
Proof.
  intros w1 w2 H. split; [done|]. by apply same_but_enrollment_emit.
Qed.

Lemma enrollment_blind_bind {A B} (m : M A) (k : A -> M B) :
  enrollment_blind m -> (forall a, enrollment_blind (k a)) ->
  enrollment_blind (m ≫= k).
Proof.
  intros Hm Hk w1 w2 H. destruct (Hm w1 w2 H) as [Hr Hw].
  unfold mbind, M_bind.
  destruct (m w1) as [[a|r|e] w1'], (m w2) as [[a'|r'|e'] w2'];
    simpl in *; simplify_eq; try done.
  by apply Hk.
Qed.

Lemma enrollment_blind_match_face i known ids enc tol :
  enrollment_blind (match_face i known ids enc tol).
Proof.
  unfold match_face.
  destruct (matched_indices _) as [|ix [|ix2 ixs]].
  - destruct known; [apply enrollment_blind_raise|].
    apply enrollment_blind_bind; [apply enrollment_blind_log|].
    intros _. apply enrollment_blind_ret.
  - destruct (ids !! ix); [|apply enrollment_blind_raise].
    apply enrollment_blind_bind; [apply enrollment_blind_log|].
    intros _. apply enrollment_blind_ret.
  - destruct (mapM _ _); [|apply enrollment_blind_raise].
    apply enrollment_blind_bind; [apply enrollment_blind_log|].
    intros _. apply enrollment_blind_ret.
Qed.

Lemma enrollment_blind_apply session_id sid rec :
  enrollment_blind (apply_face_verification session_id sid rec).
Proof.
  intros w1 w2 H.
  pose proof H as (Hset & Hs & Ha & Hc & Ht & Htr & Hn & Hf).
  destruct (w_attendance w1 !! (session_id, sid)) as [a|] eqn:Ha1.
  - assert (w_attendance w2 !! (session_id, sid) = Some a) as Ha2
      by (by rewrite Ha).
    destruct (decide (status a = absent)) as [Hst|Hst].
    + destruct (w_sessions w1 !! session_id) as [s|] eqn:Hs1.
      * assert (w_sessions w2 !! session_id = Some s) as Hs2
          by (by rewrite Hs).
        rewrite (apply_absent_cases _ _ _ _ _ _ Hs1 Ha1 Hst),
          (apply_absent_cases _ _ _ _ _ _ Hs2 Ha2 Hst).
        destruct (grace_period_representable s);
          [|split; [done|];
            by apply same_but_enrollment_tick, same_but_enrollment_emit].
        simpl. split.
        -- specialize (Hn sid). rewrite Ht.
           destruct (w_users w1 !! sid), (w_users w2 !! sid);
             simplify_eq/=; [by rewrite Hn|done].
        -- unfold world_after_check_in.
           repeat split; simpl; rewrite ?Ha, ?Htr, ?Ht; try done;
             apply Hf.
      * assert (w_sessions w2 !! session_id = None) as Hs2
          by (by rewrite Hs).
        rewrite (apply_absent_no_session _ _ _ _ _ Hs1 Ha1 Hst),
          (apply_absent_no_session _ _ _ _ _ Hs2 Ha2 Hst).
        split; [done|]. by apply same_but_enrollment_emit.
    + rewrite (apply_recorded _ _ _ _ _ Ha1 Hst),
        (apply_recorded _ _ _ _ _ Ha2 Hst).
      split; [done|]. by do 2 apply same_but_enrollment_emit.
  - assert (w_attendance w2 !! (session_id, sid) = None) as Ha2
      by (by rewrite Ha).
    rewrite (apply_missing _ _ _ _ Ha1), (apply_missing _ _ _ _ Ha2).
    split; [done|]. by apply same_but_enrollment_emit.
Qed.

Lemma enrollment_blind_process_face session_id known ids tol n i enc rec :
  enrollment_blind (process_face session_id known ids tol n i enc rec).
Proof.
  unfold process_face.
  apply enrollment_blind_bind; [apply enrollment_blind_log|]. intros _.
  apply enrollment_blind_bind; [apply enrollment_blind_match_face|].
  intros [sid|]; [|apply enrollment_blind_ret].
  case_bool_decide; [apply enrollment_blind_ret|].
  apply enrollment_blind_apply.
Qed.

Lemma enrollment_blind_process_faces session_id known ids tol n encs :
  forall i rec,
  enrollment_blind (process_faces session_id known ids tol n i encs rec).
Proof.
  induction encs as [|enc encs IH]; intros i rec; simpl.
  - apply enrollment_blind_ret.
  - apply enrollment_blind_bind; [apply enrollment_blind_process_face|].
    intros rec'. apply IH.
Qed.

Lemma enrollment_blind_process_stream img session_id settings known :
  enrollment_blind (process_stream img session_id settings known).
Proof.
  unfold process_stream, detect_faces.
  apply enrollment_blind_bind.
  - apply enrollment_blind_bind; [apply enrollment_blind_log|]. intros _.
    destruct (detect img _); [|apply enrollment_blind_raise].
    apply enrollment_blind_bind; [apply enrollment_blind_log|].
    intros _. apply enrollment_blind_ret.
  - intros [|enc encs]; [apply enrollment_blind_return|].
    apply enrollment_blind_bind; [apply enrollment_blind_process_faces|].
    intros rec. apply enrollment_blind_return.
Qed.

Lemma same_but_enrollment_set_face_active uid b w :
  same_but_enrollment w (set_face_active uid b w).
Proof.
  repeat split; simpl; try done.
  intros id. destruct (decide (id = uid)) as [->|Hne].
  - rewrite lookup_alter_eq. by destruct (w_users w !! uid).
  - by rewrite lookup_alter_ne.
Qed.

(** X22. While the cache serves the ficha of a session, a request does
    not look at the enrollment store: in two worlds that differ only in
    the face-encoding rows of the users and in the rosters of the fichas,
    it gives the same response and writes the same records. A face that
    was deactivated, or a student who left the ficha, after the known
    set was cached is still matched until the entry expires. *)
Theorem cached_roster_hides_enrollment_changes
    img session_id w1 w2 fid f data :
  same_but_enrollment w1 w2 ->
  ficha_of w1 session_id = Some (fid, f) ->
  cache_lookup (w_cache w1) (clock (w_tick w1)) fid = Some data ->
  (recognize_faces_in_stream img session_id w2).1 =
    (recognize_faces_in_stream img session_id w1).1 /\
  same_but_enrollment (recognize_faces_in_stream img session_id w1).2
                      (recognize_faces_in_stream img session_id w2).2.
Proof.
  intros H Hf1 Hc1.
  pose proof H as (Hset & Hs & _ & Hc & Ht & _ & _ & Hfs).
  assert (exists f2, ficha_of w2 session_id = Some (fid, f2)) as [f2 Hf2].
  { unfold ficha_of in *. rewrite Hs.
    destruct (w_sessions w1 !! session_id ≫= ficha) as [fid'|];
      simpl in *; [|done].
    destruct (w_fichas w1 !! fid') as [f'|] eqn:Hf'; simpl in *; [|done].
    simplify_eq.
    destruct (proj2 (Hfs fid) (mk_is_Some _ _ Hf')) as [f2 ->]. eauto. }
  unfold recognize_faces_in_stream.
  rewrite !recognize_body_cases, Hf1, Hf2, Hset. unfold mbind, M_bind.
  rewrite (load_known_encodings_hit fid f _ data) by done.
  rewrite (load_known_encodings_hit fid f2 _ data)
    by (simpl; by rewrite Hc, Ht).
  destruct (enrollment_blind_process_stream img session_id (w_settings w1)
              data
              (emit (LogCacheHit fid)
                 (tick (emit LogThreshold (emit (LogStart session_id) w1))))
              (emit (LogCacheHit fid)
                 (tick (emit LogThreshold (emit (LogStart session_id) w2)))))
    as [Hr Hw].
  { apply same_but_enrollment_emit, same_but_enrollment_tick.
    by do 2 apply same_but_enrollment_emit. }
  destruct (process_stream _ _ _ _ (emit _ (tick (emit _ (emit _ w1)))))
    as [[r|r|e] w1'],
    (process_stream _ _ _ _ (emit _ (tick (emit _ (emit _ w2)))))
    as [[r'|r'|e'] w2']; simpl in *; simplify_eq; try done.
  destruct e; (split; [done|by apply same_but_enrollment_emit]).
Qed.

End CampusProperties.

(** * Concrete checks *)

Section ScenarioChecks.
#[local] Existing Instance Scenario.lib.
#[local] Existing Instance Scenario.env.
Import Scenario.

Lemma classroom_cache_nonempty : cache_nonempty classroom.
Proof. intros fid e H. simpl in H. by rewrite lookup_empty in H. Defined.

Lemma scenario_clock_monotone : forall k, clock k <= clock (S k).
Proof. intros k. simpl. lia. Defined.

(** One request with five faces: Ana is checked in on the boundary
    instant, the second face is ambiguous, the third is unknown, Beto has
    no record and Eva is one second late. *)
Example scenario_request :
  (recognize_faces_in_stream five_faces 100 classroom).1 =
  RecognizedStudents [ana_present; eva_late].
Proof. vm_compute. reflexivity. Qed.

Lemma face_verification_idempotent_witness :
  exists r1 w1 rest,
    apply_sequence 100 7 [2; 1; 4]%nat classroom = (r1, w1) :: rest /\
    length rest = 2%nat /\
    w_attendance (default w1 (last rest.*2)) !! (100, 7) =
      Some {| status := present;
              check_in_time := Some (start_0900 + 600 * 1000000);
              verified_by_face := true |}.
Proof.
  destruct (face_verification_idempotent 100 7 (morning 1) not_yet classroom
              2 [1; 4]%nat)
    as (r1 & w1 & rest & H1 & _ & _ & _ & H2 & _ & H3);
    [reflexivity | reflexivity | reflexivity | reflexivity |].
  exists r1, w1, rest. split; [exact H1 |]. split; [exact H2 | exact H3].
Defined.

(** C1, as stated, fails: for the session of 9999-12-31 at 23:55 with
    ten minutes of tolerance, none of three applications to Ana's absent
    record transitions it: each raises, nothing is saved and the record
    stays absent. *)
Lemma no_application_transitions_past_the_last_datetime :
  w_sessions last_day_classroom !! 100 = Some last_evening /\
  w_attendance last_day_classroom !! (100, 7) = Some not_yet /\
  (apply_sequence 100 7 [0; 1; 2]%nat last_day_classroom).*1 =
    [Raise OtherException; Raise OtherException; Raise OtherException] /\
  (fun rw => w_attendance rw.2 !! (100, 7)) <$>
    apply_sequence 100 7 [0; 1; 2]%nat last_day_classroom =
    [Some not_yet; Some not_yet; Some not_yet] /\
  (fun rw => count_saves 100 7 (w_trace rw.2)) <$>
    apply_sequence 100 7 [0; 1; 2]%nat last_day_classroom =
    [0; 0; 0]%nat.
Proof. repeat split; vm_compute; reflexivity. Qed.


(** 09:10:01 is late. *)
Example grace_boundary_one_second_later :
  status <$> w_attendance
               (apply_face_verification 100 7 [] (advance 3 classroom)).2
               !! (100, 7) = Some late.
Proof. vm_compute. reflexivity. Qed.


(** The face 13 is within the threshold of Ana (10) and of Eva (16). *)
Lemma ambiguous_match_mutates_nothing_witness :
  process_face 100 known_encodings known_student_ids 6 5 1 (face 13) []
    classroom =
    (Val [],
     emit (LogAmbiguous 2 [7; 12]) (emit (LogProcessing 2 5) classroom)).
Proof.
  destruct (ambiguous_match_mutates_nothing 100 known_encodings
              known_student_ids 6 5 1 (face 13) [] classroom)
    as (_ & _ & H & _); [vm_compute; lia |].
  exact H.
Defined.



Lemma response_lists_the_transitions_witness :
  Forall (entry_recorded
            (recognize_faces_in_stream five_faces 100 classroom).2 100)
         [ana_present; eva_late] /\
  updates_of (w_trace (recognize_faces_in_stream five_faces 100 classroom).2)
    = [(7, present); (12, late)].
Proof.
  destruct (response_lists_the_transitions five_faces 100 classroom
              1 ficha_2557 (known_encodings, known_student_ids)
              [face 8; face 13; face 60; face 31; face 17])
    as [H _];
    [reflexivity | vm_compute; reflexivity | reflexivity | done |].
  destruct (H [ana_present; eva_late]) as (_ & _ & _ & He & _ & Hu);
    [vm_compute; reflexivity |].
  split; [exact He | exact Hu].
Defined.

(** C5, as stated, fails: a frame with one detected face and a non-empty
    known set yields a response without any entry when the face matches
    nobody. *)
Lemma response_omits_unmatched_detection :
  detect (frame [face 60]) "hog" = Some [face 60] /\
  active_pairs classroom ficha_2557 <> [] /\
  (recognize_faces_in_stream (frame [face 60]) 100 classroom).1 =
    RecognizedStudents [] /\
  length ([] : list RecognizedStudent) <> length [face 60].
Proof.
  split; [reflexivity |]. split; [by vm_compute |].
  split; [vm_compute; reflexivity | by simpl].
Qed.

(** Session 200 belongs to ficha 2558, which has no valid active
    encoding and no cache entry. *)
Lemma empty_roster_short_circuits_witness :
  exists evs,
    w_trace (recognize_faces_in_stream (frame [face 8]) 200 classroom).2 =
      w_trace classroom ++ evs /\
    (recognize_faces_in_stream (frame [face 8]) 200 classroom).1 =
      ErrorResponse NoActiveFaces /\
    (CallDetect ∉ evs) /\
    w_attendance (recognize_faces_in_stream (frame [face 8]) 200 classroom).2
      = attendance /\
    w_cache (recognize_faces_in_stream (frame [face 8]) 200 classroom).2 = ∅.
Proof.
  apply (empty_roster_short_circuits (frame [face 8]) 200 2 ficha_2558
           classroom).
  - reflexivity.
  - vm_compute. reflexivity.
Defined.

(** The faces of ficha 2557 are deactivated while their known set is
    cached: the ficha has no valid active encoding, and the next request
    for session 100 runs the detection and checks Ana in. *)
Lemma stale_roster_is_still_detected :
  ficha_of deactivated_classroom 100 = Some (1, ficha_2557) /\
  active_pairs deactivated_classroom ficha_2557 = [] /\
  (recognize_faces_in_stream (frame [face 8]) 100 deactivated_classroom).1 =
    RecognizedStudents
      [{| rs_id := 7; rs_full_name := "Ana Ruiz"; rs_status := late |}] /\
  w_trace
    (recognize_faces_in_stream (frame [face 8]) 100 deactivated_classroom).2 =
    w_trace deactivated_classroom ++
      [LogStart 100; LogThreshold; LogCacheHit 1; CallDetect; LogDetected 1;
       LogProcessing 1 1; LogUnique 7; LogRecordFound 7 absent;
       CallSave 100 7; LogUpdated 7 late].
Proof. vm_compute. done. Qed.

(** The face 31 matches Beto only, who has no record for session 100. *)
Lemma record_missing_is_logged_and_skipped_witness :
  process_face 100 known_encodings known_student_ids 6 5 3 (face 31) []
    classroom =
    (Val [],
     emit (LogRecordMissing 8)
       (emit (LogUnique 8) (emit (LogProcessing 4 5) classroom))).
Proof.
  destruct (record_missing_is_logged_and_skipped 100 known_encodings
              known_student_ids 6 5 3 (face 31) [] [] classroom 1 8)
    as (H & _); [vm_compute; reflexivity | reflexivity | lia | reflexivity |].
  exact H.
Defined.

(** C7, as stated, fails on "surfaced to the caller": the response of a
    request whose only face matches a student without record is the
    response of a request whose only face matches nobody; the missing
    record shows in the log only. *)
Lemma record_missing_not_in_response :
  let missing := recognize_faces_in_stream (frame [face 31]) 100 classroom in
  let unmatched := recognize_faces_in_stream (frame [face 60]) 100 classroom in
  LogRecordMissing 8 ∈ w_trace missing.2 /\
  (LogRecordMissing 8 ∉ w_trace unmatched.2) /\
  missing.1 = RecognizedStudents [] /\
  missing.1 = unmatched.1.
Proof.
  cbv zeta. split; [| split; [| split]].
  - apply (bool_decide_unpack _). vm_compute. exact I.
  - apply (bool_decide_unpack _). vm_compute. exact I.
  - vm_compute. reflexivity.
  - vm_compute. reflexivity.
Qed.

(** Three callers, two of ficha 2557 and one of ficha 2558, take two
    turns each in a classroom where the entry of ficha 2557 is expired
    and older than the deactivation of Ana's face: ficha 2557 is reloaded
    twice, and the callers served obtain the known set without Ana. *)
Lemma concurrent_callers_reload_independently_witness :
  let threads :=
    [caller 1 ficha_2557; caller 2 ficha_2558; caller 1 ficha_2557] in
  let run s := run_schedule s (stale_classroom, threads) in
  count_queries 1 (w_trace stale_classroom) = 1%nat /\
  count_queries 1 (w_trace (run [0; 1; 2; 0; 1; 2]%nat).1) = 3%nat /\
  (forall t th r,
     (run [0; 1; 2; 0; 1; 2; 0; 1; 2]%nat).2 !! t = Some th ->
     th_ficha_id th = 1 -> th_stage th = Finished r ->
     r = Val ([face 30; face 16], [8; 12])).
Proof.
  cbv zeta. split; [vm_compute; reflexivity |].
  split.
  - destruct (concurrent_callers_reload_independently stale_classroom 1
                [caller 1 ficha_2557; caller 2 ficha_2558;
                 caller 1 ficha_2557]
                [0; 1; 2; 0; 1; 2]%nat)
      as (_ & _ & _ & _ & Hall).
    + exact scenario_clock_monotone.
    + vm_compute. reflexivity.
    + repeat constructor.
    + rewrite Hall; [vm_compute; reflexivity |].
      intros t (th & Ht & Hid).
      destruct t as [|[|[|t]]]; simpl in Ht; simplify_eq; try done.
  - intros t th r Ht Hid Hst.
    destruct (concurrent_callers_reload_independently stale_classroom 1
                [caller 1 ficha_2557; caller 2 ficha_2558;
                 caller 1 ficha_2557]
                [0; 1; 2; 0; 1; 2; 0; 1; 2]%nat)
      as (_ & Hserved & _).
    + exact scenario_clock_monotone.
    + vm_compute. reflexivity.
    + repeat constructor.
    + destruct (Hserved t th r Ht Hid Hst) as [_ ->].
      destruct t as [|[|[|t]]]; vm_compute in Ht; simplify_eq;
        try done; vm_compute; reflexivity.
Defined.

(** C8, as stated, fails: two callers of ficha 2557 that both read the
    cache before either writes it both query the students; the reload
    happens twice, not once. *)
Lemma two_callers_two_reloads :
  let sys' :=
    run_schedule [0; 1; 0; 1; 0; 1]%nat
      (classroom, [caller 1 ficha_2557; caller 1 ficha_2557]) in
  cache_lookup (w_cache classroom) (clock (w_tick classroom)) 1 = None /\
  count_queries 1 (w_trace classroom) = 0%nat /\
  count_queries 1 (w_trace sys'.1) = 2%nat /\
  th_stage <$> sys'.2 =
    [Finished (Val (known_encodings, known_student_ids));
     Finished (Val (known_encodings, known_student_ids))].
Proof.
  cbv zeta. split; [reflexivity |]. split; [reflexivity |].
  split; vm_compute; reflexivity.
Qed.

Lemma cache_holds_nonempty_rosters_only_witness :
  cache_nonempty
    (recognize_faces_in_stream (frame [face 8]) 100 classroom).2 /\
  Forall (fun rw => rw.1 = ErrorResponse NoActiveFaces /\
                    w_cache rw.2 = w_cache classroom)
    (request_sequence 200 [frame [face 8]; frame [face 31]] classroom).
Proof.
  destruct (cache_holds_nonempty_rosters_only classroom)
    as (H1 & _ & H3).
  - exact classroom_cache_nonempty.
  - exact scenario_clock_monotone.
  - split; [apply H1 |].
    destruct (H3 200 2 ficha_2558 [frame [face 8]; frame [face 31]])
      as (_ & H & _); [reflexivity | reflexivity | vm_compute; reflexivity |].
    exact H.
Defined.

(** Caro (9) has an active encoding of length 64: she is not in the known
    set the reload builds, and the reload warns about her. *)
Lemma known_set_is_active_valid_encodings_witness :
  (9 ∉ known_student_ids) /\
  LogWrongLength 9 64
    ∈ w_trace (load_known_encodings 1 ficha_2557 classroom).2.
Proof.
  destruct (known_set_is_active_valid_encodings 1 ficha_2557 classroom
              (known_encodings, known_student_ids)
              (load_known_encodings 1 ficha_2557 classroom).2)
    as [H _].
  - vm_compute. reflexivity.
  - change (cache_lookup (w_cache classroom) (clock (w_tick classroom)) 1)
      with (@None (list encoding * list Z)) in H.
    cbv beta iota in H. destruct H as (_ & _ & H).
    destruct (H 9 caro
                {| is_active := true; encoding_array := Some short_array |}
                short_array)
      as [Hout Hwarn].
    + apply (bool_decide_unpack _). vm_compute. exact I.
    + reflexivity.
    + reflexivity.
    + reflexivity.
    + reflexivity.
    + unfold short_array. rewrite length_replicate. lia.
    + split; [exact Hout |].
      unfold short_array in Hwarn. rewrite length_replicate in Hwarn.
      exact Hwarn.
Defined.

(** The faces of ficha 2557 are deactivated while their known set is
    cached: the known set of the next request is the cached one, and its
    first entry is the face of Ana, whose row is not active. *)
Lemma cached_known_set_holds_a_deactivated_face :
  (load_known_encodings 1 ficha_2557 deactivated_classroom).1 =
    Val (known_encodings, known_student_ids) /\
  known_student_ids !! 0%nat = Some 7 /\
  known_encodings !! 0%nat = Some (face 10) /\
  ~ has_valid_active_encoding deactivated_classroom ficha_2557 7 (face 10).
Proof.
  split; [vm_compute; reflexivity|]. split; [reflexivity|].
  split; [reflexivity|].
  intros (_ & u & fe & Hu & Hfe & Hact & _).
  vm_compute in Hu. injection Hu as <-.
  simpl in Hfe. injection Hfe as <-. discriminate Hact.
Qed.

End ScenarioChecks.

(** * Concrete checks of the code around the service *)

Section CampusChecks.
#[local] Existing Instance Scenario.lib.
#[local] Existing Instance Scenario.env.
#[local] Existing Instance Scenario.enrollment.
#[local] Existing Instance Scenario.media.
Import Scenario.

(** A picture of one face that is far from every active face of the
    registry is accepted. *)
Lemma registration_accepts_a_new_single_face_witness :
  password (applicant 50) = password2 (applicant 50) /\
  profile_encodings (face_image (applicant 50)) = Some [face 50].
Proof.
  destruct (proj1 (registration_accepts_a_new_single_face
                     (applicant 50) registry (face 50) NothingLogged))
    as (H1 & _ & H2 & _); [vm_compute; reflexivity|].
  split; [exact H1 | exact H2].
Defined.

(** Dani's face (90) is registered: while the row is active a picture at
    distance 0.1 is refused, and it is accepted once the row is
    deactivated. *)
Lemma deactivating_a_face_frees_it_witness :
  RegisterStudentSerializer_validate (applicant 91)
    (set_face_active 10 false (set_face_active 10 true registry)) =
    (Validated (face 91), NothingLogged).
Proof.
  apply (deactivating_a_face_frees_it (applicant 91)
           (set_face_active 10 true registry) 10 (face 91) NothingLogged).
  - vm_compute. reflexivity.
  - vm_compute. reflexivity.
  - intros uid' u fe k Hne Hu Hfd Hact Hk.
    apply elem_of_map_to_list in Hu.
    vm_compute (map_to_list _) in Hu.
    repeat (apply elem_of_cons in Hu as [Hu|Hu];
            [injection Hu as -> ->; simpl in Hfd; simplify_eq/=;
             try done; vm_compute; reflexivity|]).
    by apply elem_of_nil in Hu.
  - right. vm_compute. reflexivity.
Defined.

Lemma campus_300_created :
  SessionViewSet_perform_create instructor_50 300 afternoon campus =
    (None, campus_300).
Proof. vm_compute. reflexivity. Defined.

Lemma session_creation_records_every_student_absent_witness :
  w_attendance (c_world campus_300) !! (300, 8) = Some new_attendance /\
  w_attendance (c_world campus_300) !! (100, 8) = None.
Proof.
  destruct (session_creation_records_every_student_absent
              instructor_50 300 afternoon campus campus_300
              campus_300_created) as (f & Hf & _ & Ha & _).
  injection Hf as <-.
  split; rewrite Ha; vm_compute; reflexivity.
Defined.

(** Instructor 51 does not instruct ficha 2557. *)
Lemma failed_session_creation_writes_no_record_witness :
  (SessionViewSet_perform_create instructor_51 300 afternoon campus).2 =
    campus.
Proof.
  destruct (failed_session_creation_writes_no_record
              instructor_51 300 afternoon campus SessionAttributeError
              (SessionViewSet_perform_create instructor_51 300 afternoon
                 campus).2) as (_ & _ & H);
    [vm_compute; reflexivity|].
  by apply H.
Defined.


(** Ana is not enrolled in ficha 2558. *)
Lemma unenrolled_match_in_a_new_session_is_record_missing_witness :
  apply_face_verification 400 7 [] (c_world campus_400) =
    (Val [], emit (LogRecordMissing 7) (c_world campus_400)).
Proof.
  apply (unenrolled_match_in_a_new_session_is_record_missing
           instructor_51 400 afternoon_2558 campus campus_400 ficha_2558
           7 []).
  - vm_compute. reflexivity.
  - reflexivity.
  - apply (bool_decide_unpack _). vm_compute. exact I.
  - reflexivity.
Defined.

Lemma requests_keep_the_records_of_a_session_witness :
  is_Some (w_attendance
             (after_requests [(five_faces, 300); (five_faces, 100)]
                (c_world campus_300)) !! (300, 7)).
Proof.
  destruct (requests_keep_the_records_of_a_session
              instructor_50 300 afternoon campus campus_300 ficha_2557
              [(five_faces, 300); (five_faces, 100)] 7
              campus_300_created) as [H _]; [reflexivity | reflexivity |].
  apply H. apply (bool_decide_unpack _). vm_compute. exact I.
Defined.

(** Eva is absent from session 100 and has no excuse on file. *)
Lemma excuse_is_saved_only_for_an_unexcused_absence_witness :
  exists fid f a,
    session_ficha_id (c_world campus) 100 = Some fid /\
    w_fichas (c_world campus) !! fid = Some f /\
    w_attendance (c_world campus) !! (100, 12) = Some a /\
    status a = absent.
Proof.
  destruct (proj1 (excuse_is_saved_only_for_an_unexcused_absence
                     student_eva 100 campus 12 100))
    as (_ & _ & fid & f & a & H1 & H2 & _ & H3 & H4 & _);
    [vm_compute; reflexivity|].
  exists fid, f, a. repeat split; assumption.
Defined.

Lemma checked_in_student_cannot_file_an_excuse_witness :
  ExcuseViewSet_perform_create student_eva 100 campus = ExcuseSaved 12 100 /\
  ExcuseViewSet_perform_create student_eva 100
    (with_world (apply_face_verification 100 12 [] classroom).2 campus) =
    ExcuseRefused NotAbsent.
Proof.
  apply (checked_in_student_cannot_file_an_excuse
           student_eva 100 campus (morning 1) 1 ficha_2557 not_yet []);
    try reflexivity.
  apply (bool_decide_unpack _). vm_compute. exact I.
Defined.

Lemma enrolled_student_may_excuse_a_new_session_witness :
  ExcuseViewSet_perform_create student_ana 300 campus_300 =
    ExcuseSaved 7 300.
Proof.
  apply (enrolled_student_may_excuse_a_new_session
           instructor_50 300 afternoon campus campus_300 ficha_2557
           student_ana campus_300_created);
    [reflexivity | | reflexivity].
  apply (bool_decide_unpack _). vm_compute. exact I.
Defined.

Lemma instructor_lists_what_the_permission_grants_witness :
  SessionViewSet_get_queryset campus instructor_50 !! 100 =
    Some (morning 1) /\
  AttendanceLogViewSet_get_queryset campus instructor_51 !! (100, 7) = None.
Proof.
  split.
  - apply (proj1 (instructor_lists_what_the_permission_grants
                    campus instructor_50 100 7 eq_refl)).
    split; reflexivity.
  - destruct (AttendanceLogViewSet_get_queryset campus instructor_51
                !! (100, 7)) as [a|] eqn:Ha; [|reflexivity].
    apply (proj2 (instructor_lists_what_the_permission_grants
                    campus instructor_51 100 7 eq_refl)) in Ha
      as [_ Hp].
    vm_compute in Hp. discriminate Hp.
Defined.

Lemma check_in_removes_the_absence_witness :
  ListAbsencesView_get_queryset
    (apply_face_verification 100 7 [] classroom).2 student_ana !! (100, 7) =
    None /\
  ListAbsencesView_get_queryset classroom student_ana !! (100, 7) =
    Some not_yet.
Proof.
  split.
  - rewrite (check_in_removes_the_absence student_ana 100 7 (morning 1)
               not_yet [] classroom); [|reflexivity..].
    apply lookup_delete_eq.
  - vm_compute. reflexivity.
Defined.

Lemma document_is_served_to_who_lists_its_excuse_witness :
  ana_excuse ∈ ExcuseViewSet_get_queryset campus student_ana /\
  String.prefix "/srv/media" "/srv/media/excuses/ana.pdf" = true.
Proof.
  destruct (document_is_served_to_who_lists_its_excuse
              student_ana "excuses/ana.pdf" campus
              "/srv/media/excuses/ana.pdf")
    as (_ & _ & _ & Hunder & excuse & Hin & Hdoc & _);
    [vm_compute; reflexivity|].
  split; [|exact Hunder].
  vm_compute in Hin. apply list_elem_of_singleton in Hin. subst excuse.
  vm_compute. left.
Defined.

(** Eva asks for the document of her excuse, which is named by an
    absolute path: the file served is not under [MEDIA_ROOT]. *)
Example absolute_document_is_served_as_it_is :
  protected_media_view student_eva "/etc/hostname" campus_with_eva_excuse =
    MediaServed "/etc/hostname".
Proof. vm_compute. reflexivity. Qed.

(** Eva's request for the document of Ana's excuse. *)
Example document_of_another_student_is_not_found :
  protected_media_view student_eva "excuses/ana.pdf" campus = MediaNotFound.
Proof. vm_compute. reflexivity. Qed.

Lemma session_without_ficha_is_only_logged_witness :
  (recognize_faces_in_stream five_faces 999 classroom).1 =
    ErrorResponse SessionWithoutFicha.
Proof.
  by rewrite (session_without_ficha_is_only_logged five_faces 999 classroom
                eq_refl).
Defined.

Lemma frame_without_faces_changes_no_record_witness :
  w_attendance (recognize_faces_in_stream (frame []) 100 classroom).2 =
    attendance.
Proof.
  by destruct (frame_without_faces_changes_no_record (frame []) 100
                 classroom) as [H _].
Defined.

(** A request for session 200 leaves Ana's record of session 100 as it
    is. *)
Lemma requests_change_records_of_their_session_only_witness :
  w_attendance (after_requests [(five_faces, 200)] classroom) !! (100, 7) =
    Some not_yet.
Proof.
  rewrite (requests_change_records_of_their_session_only
             [(five_faces, 200)] classroom (100, 7)); [reflexivity|].
  apply (bool_decide_unpack _). vm_compute. exact I.
Defined.

Lemma cache_hit_neither_reloads_nor_renews_witness :
  w_cache (recognize_faces_in_stream five_faces 100 warm_classroom).2 =
    w_cache warm_classroom.
Proof.
  by destruct (cache_hit_neither_reloads_nor_renews five_faces 100
                 warm_classroom 1 ficha_2557
                 (known_encodings, known_student_ids))
    as [H _]; [reflexivity | vm_compute; reflexivity |].
Defined.

(** The entry written at 09:09:59 is served at 10:09:58 and no longer at
    10:09:59. *)
Lemma cache_miss_reloads_once_for_one_hour_witness :
  count_queries 1 (w_trace warm_classroom) = 1%nat /\
  cache_lookup (w_cache warm_classroom) (clock 1 + 3599 * 1000000) 1 =
    Some (known_encodings, known_student_ids) /\
  cache_lookup (w_cache warm_classroom) (clock 1 + 3600 * 1000000) 1 = None.
Proof.
  destruct (cache_miss_reloads_once_for_one_hour five_faces 100 classroom
              1 ficha_2557) as [Hq Hc]; [reflexivity | reflexivity |].
  split; [by rewrite Hq|].
  split; (rewrite Hc; [vm_compute; reflexivity | by vm_compute]).
Defined.

(** Ana's face is deactivated after the known set was cached: she is
    still recognised. *)
Lemma cached_roster_hides_enrollment_changes_witness :
  (recognize_faces_in_stream five_faces 100
     (set_face_active 7 false idle_classroom)).1 =
  RecognizedStudents
    [{| rs_id := 7; rs_full_name := "Ana Ruiz"; rs_status := late |};
     eva_late].
Proof.
  destruct (cached_roster_hides_enrollment_changes five_faces 100
              idle_classroom (set_face_active 7 false idle_classroom)
              1 ficha_2557 (known_encodings, known_student_ids))
    as [-> _];
    [apply same_but_enrollment_set_face_active | reflexivity
    | vm_compute; reflexivity |].
  vm_compute. reflexivity.
Defined.

End CampusChecks.
